(** * sunpy.coordinates.transformations: a shallow embedding

    The transformation functions of [sunpy/coordinates/transformations.py]
    are embedded as Rocq functions over the real numbers.

    Conventions of the embedding.
    - Python exceptions are values of [PyError]; a computation that may
      raise has type [result A] and is sequenced with [x <- c ;; k].
    - A NumPy array is an [nd A]: a 0-d value ([Scalar]) or a 1-d array
      ([Array]); binary ufuncs broadcast as NumPy does for these shapes.
    - An Astropy [Quantity] is a value with a [Unit]; the unit carries its
      scale to SI and its length and angle exponents, so that [to] and the
      unit-aware arithmetic fail exactly where the dimensions disagree.
    - float64 is idealised by [R]: rounding is not modelled.  A division
      by zero, which NumPy answers with [nan] or [inf], has no value among
      the reals: the computation ends in [NotANumber].  [sqrt] and [asin]
      are the total functions of the Standard Library, and no theorem below
      uses the value they take outside their mathematical domain.
    - A spherical point holds its longitude as an Astropy [Longitude],
      wrapped into an interval of one turn that ends at a wrap angle.  The
      wrap angle at which a frame shows its longitudes belongs to the frame
      classes, which [frames.py] declares; it is the parameter [wrap_angle]
      of the functions that build spherical points.
    - [coord.transform_to(frame)] dispatches through Astropy's transform
      graph; the functions that call it take the dispatcher as the argument
      [transform_to] (open recursion), so every statement about them holds
      for whatever the graph does. *)

From Stdlib Require Import Reals Lra RNsatz ZArith List String Bool Lia.
Import ListNotations.
Open Scope string_scope.
Open Scope list_scope.
Open Scope R_scope.

(** ** Exceptions *)

(** The exceptions of Python that the module meets, and [NotANumber], which
    is no exception: it marks a computation whose float64 result holds
    [nan] or [inf]. *)
Inductive PyError : Type :=
| ValueError (msg : string)
| ConvertError (msg : string)
| AttributeError (msg : string)
| UnitsError
| NotANumber.

Inductive result (A : Type) : Type :=
| Ok (a : A)
| Raise (e : PyError).
Arguments Ok {A} a.
Arguments Raise {A} e.

Definition bind {A B : Type} (c : result A) (k : A -> result B) : result B :=
  match c with
  | Ok a => k a
  | Raise e => Raise e
  end.

Notation "x <- c ;; k" := (bind c (fun x => k))
  (at level 61, c at next level, right associativity).

(** The computation ends in an exception of Python. *)
Definition raises {A : Type} (c : result A) : Prop :=
  exists e, c = Raise e /\ e <> NotANumber.

(** The computation returns a value, all of whose numbers are reals. *)
Definition returns {A : Type} (c : result A) : Prop :=
  exists a, c = Ok a.

(** ** NumPy arrays of dimension 0 and 1 *)

Module Np.

Inductive nd (A : Type) : Type :=
| Scalar (a : A)
| Array (l : list A).
Arguments Scalar {A} a.
Arguments Array {A} l.

Definition nd_map {A B : Type} (f : A -> B) (a : nd A) : nd B :=
  match a with
  | Scalar x => Scalar (f x)
  | Array l => Array (map f l)
  end.

Fixpoint zip_with {A B C : Type} (f : A -> B -> C) (l1 : list A) (l2 : list B)
  : list C :=
  match l1, l2 with
  | x :: l1', y :: l2' => f x y :: zip_with f l1' l2'
  | _, _ => []
  end.

(** Broadcasting of a binary ufunc: a scalar meets anything, two arrays
    need equal lengths unless one of them has length one. *)
Definition broadcast2 {A B C : Type} (f : A -> B -> C) (a : nd A) (b : nd B)
  : result (nd C) :=
  match a, b with
  | Scalar x, Scalar y => Ok (Scalar (f x y))
  | Scalar x, Array l => Ok (Array (map (f x) l))
  | Array l, Scalar y => Ok (Array (map (fun x => f x y) l))
  | Array l1, Array l2 =>
      if Nat.eqb (List.length l1) (List.length l2) then Ok (Array (zip_with f l1 l2))
      else match l1, l2 with
           | [x], _ => Ok (Array (map (f x) l2))
           | _, [y] => Ok (Array (map (fun x => f x y) l1))
           | _, _ => Raise (ValueError "operands could not be broadcast together")
           end
  end.

Definition isscalar {A : Type} (a : nd A) : bool :=
  match a with
  | Scalar _ => true
  | Array _ => false
  end.

Definition elements {A : Type} (a : nd A) : list A :=
  match a with
  | Scalar x => [x]
  | Array l => l
  end.

Definition np_any (a : nd bool) : bool := existsb (fun b => b) (elements a).
Definition np_all (a : nd bool) : bool := forallb (fun b => b) (elements a).

Definition ones_like (a : nd R) : nd R := nd_map (fun _ => 1) a.

(** [np.isclose] with [atol = 0], the default of [astropy.units.allclose]. *)
Definition rtol : R := 1 / 100000.

Definition isclose (a b : R) : bool :=
  if Rle_dec (Rabs (a - b)) (rtol * Rabs b) then true else false.

(** The wrapping of [astropy.coordinates.Longitude]: the angle [x], less
    whole turns of [a360], in the interval from [wrap_angle - a360] to
    [wrap_angle]; all three in the unit of the angle. *)
Definition wrap_value (wrap_angle a360 x : R) : R :=
  let wrap_angle_floor := wrap_angle - a360 in
  let wraps := IZR (Int_part ((x - wrap_angle_floor) / a360)) in
  x - wraps * a360.

(** The same for angles in degrees. *)
Definition wrap_at (wrap_angle x : R) : R := wrap_value wrap_angle 360 x.

(** [np.arctan2] on finite reals. *)
Definition arctan2 (y x : R) : R :=
  if Rlt_dec 0 x then atan (y / x)
  else if Rlt_dec x 0 then
         (if Rle_dec 0 y then atan (y / x) + PI else atan (y / x) - PI)
       else if Rlt_dec 0 y then PI / 2
            else if Rlt_dec y 0 then - (PI / 2)
                 else 0.

End Np.
Import Np.

(** ** Astropy units and quantities *)

Module Units.

Record Unit : Type := mkUnit {
  scale : R;      (* size of the unit in SI base units *)
  ldim : Z;       (* exponent of length *)
  adim : Z        (* exponent of angle *)
}.

Definition one : Unit := mkUnit 1 0 0.
Definition m : Unit := mkUnit 1 1 0.
Definition km : Unit := mkUnit 1000 1 0.
Definition rad : Unit := mkUnit 1 0 1.
Definition deg : Unit := mkUnit (PI / 180) 0 1.

Definition same_dims (u v : Unit) : bool :=
  Z.eqb (ldim u) (ldim v) && Z.eqb (adim u) (adim v).

(** [unit is u.one]: the unscaled dimensionless unit itself. *)
Definition is_one (u : Unit) : bool :=
  same_dims u one && (if Req_dec_T (scale u) 1 then true else false).

Definition unit_mul (u v : Unit) : Unit :=
  mkUnit (scale u * scale v) (ldim u + ldim v) (adim u + adim v).

Definition unit_div (u v : Unit) : Unit :=
  mkUnit (scale u / scale v) (ldim u - ldim v) (adim u - adim v).

Record Quantity : Type := mkQ {
  value : nd R;
  unit : Unit
}.

(** [q.to(u)] *)
Definition to (u : Unit) (q : Quantity) : result Quantity :=
  if same_dims (unit q) u
  then Ok (mkQ (nd_map (fun v => v * (scale (unit q) / scale u)) (value q)) u)
  else Raise UnitsError.

(** [a + b], [a - b]: the right operand is converted to the unit of the
    left one. *)
Definition qadd (a b : Quantity) : result Quantity :=
  b' <- to (unit a) b ;;
  v <- broadcast2 Rplus (value a) (value b') ;;
  Ok (mkQ v (unit a)).

Definition qsub (a b : Quantity) : result Quantity :=
  b' <- to (unit a) b ;;
  v <- broadcast2 Rminus (value a) (value b') ;;
  Ok (mkQ v (unit a)).

Definition qneg (a : Quantity) : Quantity :=
  mkQ (nd_map Ropp (value a)) (unit a).

Definition qmul (a b : Quantity) : result Quantity :=
  v <- broadcast2 Rmult (value a) (value b) ;;
  Ok (mkQ v (unit_mul (unit a) (unit b))).

(** [a / b]: where a divisor is zero NumPy gives [nan] or [inf], and the
    quotient has no value among the reals. *)
Definition qdiv (a b : Quantity) : result Quantity :=
  if existsb (fun y => if Req_dec_T y 0 then true else false) (elements (value b))
  then Raise NotANumber
  else
    v <- broadcast2 Rdiv (value a) (value b) ;;
    Ok (mkQ v (unit_div (unit a) (unit b))).

(** [a ** 2] *)
Definition qsquare (a : Quantity) : Quantity :=
  mkQ (nd_map (fun v => v * v) (value a)) (unit_mul (unit a) (unit a)).

(** [np.sqrt]; units of odd exponent have no square root among the units
    represented here. *)
Definition qsqrt (a : Quantity) : result Quantity :=
  if Z.even (ldim (unit a)) && Z.even (adim (unit a))
  then Ok (mkQ (nd_map sqrt (value a))
               (mkUnit (sqrt (scale (unit a)))
                       (Z.div2 (ldim (unit a))) (Z.div2 (adim (unit a)))))
  else Raise UnitsError.

(** [np.sin], [np.cos]: the argument must be an angle. *)
Definition qtrig (f : R -> R) (a : Quantity) : result Quantity :=
  a' <- to rad a ;;
  Ok (mkQ (nd_map f (value a')) one).

Definition qsin : Quantity -> result Quantity := qtrig sin.
Definition qcos : Quantity -> result Quantity := qtrig cos.

(** [np.arcsin]: the argument must be dimensionless. *)
Definition qarcsin (a : Quantity) : result Quantity :=
  a' <- to one a ;;
  Ok (mkQ (nd_map asin (value a')) rad).

Definition qarccos (a : Quantity) : result Quantity :=
  a' <- to one a ;;
  Ok (mkQ (nd_map acos (value a')) rad).

(** [np.arctan2 (a, b)] *)
Definition qarctan2 (a b : Quantity) : result Quantity :=
  b' <- to (unit a) b ;;
  v <- broadcast2 arctan2 (value a) (value b') ;;
  Ok (mkQ v rad).

(** [np.deg2rad], [np.rad2deg] on a quantity: a change of unit. *)
Definition deg2rad (a : Quantity) : result Quantity := to rad a.
Definition rad2deg (a : Quantity) : result Quantity := to deg a.

(** [Longitude (angle, wrap_angle = w)], [w] in degrees: the wrap angle
    and 360 degrees are converted to the unit of the angle, which is
    wrapped into the turn that ends at [w]; a quantity that is no angle is
    refused. *)
Definition Longitude (wrap_angle : R) (angle : Quantity) : result Quantity :=
  if same_dims deg (unit angle)
  then
    let in_unit := scale deg / scale (unit angle) in
    Ok (mkQ (nd_map (wrap_value (wrap_angle * in_unit) (360 * in_unit))
               (value angle))
            (unit angle))
  else Raise UnitsError.

(** [astropy.units.allclose (a, b)] *)
Definition allclose (a b : Quantity) : result bool :=
  a' <- to (unit b) a ;;
  v <- broadcast2 isclose (value a') (value b) ;;
  Ok (np_all v).

End Units.
Import Units.

(** ** Frames, observers and representations *)

(** An observation instant, counted from the default epoch J2000; an
    [obstime] is a scalar or an array of instants. *)
Definition Time : Type := nd Z.

Definition DEFAULT_OBSTIME : Time := Scalar 0%Z.

Inductive Representation : Type :=
| CartesianRepresentation (x y z : Quantity)
| SphericalRepresentation (lon lat distance : Quantity)
| UnitSphericalRepresentation (lon lat : Quantity).

(** A geometric observer is a Stonyhurst coordinate object; [oid] is the
    identity of the Python object. *)
Record ObserverFrame : Type := mkObserver {
  oid : nat;
  obs_lat : Quantity;
  obs_lon : Quantity;
  obs_radius : Quantity
}.

(** The [observer] attribute holds a geometric observer or, as long as no
    [obstime] is known, the name of a body. *)
Inductive Observer : Type :=
| ObserverLabel (name : string)
| ObserverCoord (o : ObserverFrame).

Inductive FrameClass : Type :=
| HeliographicStonyhurst
| HeliographicCarrington
| Heliocentric
| Helioprojective
| HCRS.

(** A frame object.  [observer = None]: the object has no attribute of that
    name (the heliographic classes declare none).  [data = None]: a frame
    without coordinate data. *)
Record Frame : Type := mkFrame {
  frame_class : FrameClass;
  obstime : option Time;
  observer : option Observer;
  data : option Representation
}.

(** [isinstance (obs, BaseCoordinateFrame)] *)
Definition is_frame (obs : Observer) : bool :=
  match obs with
  | ObserverCoord _ => true
  | ObserverLabel _ => false
  end.

(** [obs_1 == obs_2]: strings compare by value, frame objects by identity,
    a string never equals a frame. *)
Definition py_eq (obs_1 obs_2 : Observer) : bool :=
  match obs_1, obs_2 with
  | ObserverLabel s1, ObserverLabel s2 => String.eqb s1 s2
  | ObserverCoord o1, ObserverCoord o2 => Nat.eqb (oid o1) (oid o2)
  | _, _ => false
  end.

(** Attribute look-ups. *)
Definition get_observer (f : Frame) : result Observer :=
  match observer f with
  | Some obs => Ok obs
  | None => Raise (AttributeError "observer")
  end.

Definition attr_lat (obs : Observer) : result Quantity :=
  match obs with
  | ObserverCoord o => Ok (obs_lat o)
  | ObserverLabel _ => Raise (AttributeError "lat")
  end.

Definition attr_lon (obs : Observer) : result Quantity :=
  match obs with
  | ObserverCoord o => Ok (obs_lon o)
  | ObserverLabel _ => Raise (AttributeError "lon")
  end.

Definition attr_radius (obs : Observer) : result Quantity :=
  match obs with
  | ObserverCoord o => Ok (obs_radius o)
  | ObserverLabel _ => Raise (AttributeError "radius")
  end.

(** [frame.data] raises on a frame without data; [frame._data] does not. *)
Definition get_data (f : Frame) : result Representation :=
  match data f with
  | Some rep => Ok rep
  | None => Raise (ValueError "The frame object does not have associated data")
  end.

(** [frame.realize_frame (representation)] *)
Definition realize_frame (f : Frame) (rep : option Representation) : Frame :=
  mkFrame (frame_class f) (obstime f) (observer f) rep.

(** [coord.observer = obs] *)
Definition set_observer (f : Frame) (obs : Observer) : Frame :=
  mkFrame (frame_class f) (obstime f) (Some obs) (data f).

(** [np.hypot] *)
Definition qhypot (a b : Quantity) : result Quantity :=
  b' <- to (unit a) b ;;
  v <- broadcast2 (fun x y => sqrt (x * x + y * y)) (value a) (value b') ;;
  Ok (mkQ v (unit a)).

(** [rep.represent_as (SphericalRepresentation)] as (lon, lat, distance). *)
Definition represent_as_spherical (rep : Representation)
  : result (Quantity * Quantity * Quantity) :=
  match rep with
  | SphericalRepresentation lon lat distance => Ok (lon, lat, distance)
  | UnitSphericalRepresentation lon lat =>
      Ok (lon, lat, mkQ (ones_like (value lon)) one)
  | CartesianRepresentation x y z =>
      s <- qhypot x y ;;
      r <- qhypot s z ;;
      lon <- qarctan2 y x ;;
      lat <- qarctan2 z s ;;
      Ok (lon, lat, r)
  end.

(** [rep.represent_as (CartesianRepresentation)] as (x, y, z). *)
Definition represent_as_cartesian (rep : Representation)
  : result (Quantity * Quantity * Quantity) :=
  match rep with
  | CartesianRepresentation x y z => Ok (x, y, z)
  | SphericalRepresentation lon lat d =>
      coslat <- qcos lat ;;
      coslon <- qcos lon ;;
      sinlon <- qsin lon ;;
      sinlat <- qsin lat ;;
      dc <- qmul d coslat ;;
      x <- qmul dc coslon ;;
      y <- qmul dc sinlon ;;
      z <- qmul d sinlat ;;
      Ok (x, y, z)
  | UnitSphericalRepresentation lon lat =>
      coslat <- qcos lat ;;
      coslon <- qcos lon ;;
      sinlon <- qsin lon ;;
      sinlat <- qsin lat ;;
      x <- qmul coslat coslon ;;
      y <- qmul coslat sinlon ;;
      Ok (x, y, sinlat)
  end.

(** [coord.spherical]; [coord.x], [coord.y], [coord.z]. *)
Definition spherical (c : Frame) : result (Quantity * Quantity * Quantity) :=
  rep <- get_data c ;;
  represent_as_spherical rep.

Definition cartesian (c : Frame) : result (Quantity * Quantity * Quantity) :=
  rep <- get_data c ;;
  represent_as_cartesian rep.

(** Comparison of two [obstime] attributes.  [Time.__ne__] answers [True]
    and [Time.__eq__] answers [False] for an operand that is not a time. *)
Definition obstime_ne (a b : option Time) : result (nd bool) :=
  match a, b with
  | Some t1, Some t2 => broadcast2 (fun i j => negb (Z.eqb i j)) t1 t2
  | None, None => Ok (Scalar false)
  | _, _ => Ok (Scalar true)
  end.

Definition obstime_eq (a b : option Time) : result (nd bool) :=
  match a, b with
  | Some t1, Some t2 => broadcast2 Z.eqb t1 t2
  | None, None => Ok (Scalar true)
  | _, _ => Ok (Scalar false)
  end.

(** ** 3-vectors and 3x3 matrices of the affine transformation *)

Module Matrix.

Record vec3 : Type := mkVec { vx : R; vy : R; vz : R }.

Record mat3 : Type := mkMat {
  m11 : R; m12 : R; m13 : R;
  m21 : R; m22 : R; m23 : R;
  m31 : R; m32 : R; m33 : R
}.

Definition identity : mat3 := mkMat 1 0 0 0 1 0 0 0 1.

Definition vsub (a b : vec3) : vec3 :=
  mkVec (vx a - vx b) (vy a - vy b) (vz a - vz b).

Definition vadd (a b : vec3) : vec3 :=
  mkVec (vx a + vx b) (vy a + vy b) (vz a + vz b).

Definition vneg (a : vec3) : vec3 := mkVec (- vx a) (- vy a) (- vz a).

Definition cross (a b : vec3) : vec3 :=
  mkVec (vy a * vz b - vz a * vy b)
        (vz a * vx b - vx a * vz b)
        (vx a * vy b - vy a * vx b).

Definition dot (a b : vec3) : R := vx a * vx b + vy a * vy b + vz a * vz b.

Definition norm (a : vec3) : R := sqrt (dot a a).

(** [matrix_product (a, b)] *)
Definition matrix_product (a b : mat3) : mat3 :=
  mkMat (m11 a * m11 b + m12 a * m21 b + m13 a * m31 b)
        (m11 a * m12 b + m12 a * m22 b + m13 a * m32 b)
        (m11 a * m13 b + m12 a * m23 b + m13 a * m33 b)
        (m21 a * m11 b + m22 a * m21 b + m23 a * m31 b)
        (m21 a * m12 b + m22 a * m22 b + m23 a * m32 b)
        (m21 a * m13 b + m22 a * m23 b + m23 a * m33 b)
        (m31 a * m11 b + m32 a * m21 b + m33 a * m31 b)
        (m31 a * m12 b + m32 a * m22 b + m33 a * m32 b)
        (m31 a * m13 b + m32 a * m23 b + m33 a * m33 b).

(** [matrix_transpose (a)] *)
Definition matrix_transpose (a : mat3) : mat3 :=
  mkMat (m11 a) (m21 a) (m31 a)
        (m12 a) (m22 a) (m32 a)
        (m13 a) (m23 a) (m33 a).

(** [vector.transform (matrix)] *)
Definition transform (a : mat3) (v : vec3) : vec3 :=
  mkVec (m11 a * vx v + m12 a * vy v + m13 a * vz v)
        (m21 a * vx v + m22 a * vy v + m23 a * vz v)
        (m31 a * vx v + m32 a * vy v + m33 a * vz v).

Definition orthonormal (a : mat3) : Prop :=
  matrix_product (matrix_transpose a) a = identity.

End Matrix.
Import Matrix.

Notation "' pat <- c ;; k" := (bind c (fun pat => k))
  (at level 61, pat pattern, c at next level, right associativity).

(** ** The transformation functions *)

Section Transformations.

(** [sunpy.coordinates.sun.L0]: the Carrington longitude of the central
    meridian at an instant, in degrees. *)
Variable L0 : Z -> R.

(** [sunpy.sun.constants.get('radius')] in metres. *)
Variable RSUN_METERS : R.

(** [Helioprojective.calculate_distance] of [sunpy.coordinates.frames]. *)
Variable calculate_distance : Frame -> result Frame.

(** [astropy.coordinates.get_body_barycentric (body, instant)]. *)
Variable get_body_barycentric : string -> Z -> vec3.

(** [astropy.coordinates.matrix_utilities.rotation_matrix (angle, axis)]. *)
Variable rotation_matrix : R -> vec3 -> mat3.

(** [coord.transform_to (frame)]: the dispatch through the transform graph. *)
Variable transform_to : Frame -> Frame -> result Frame.

(** The wrap angle, in degrees, at which a frame of each class shows the
    longitudes of its spherical points ([sunpy.coordinates.frames];
    Astropy's own default is 360). *)
Variable wrap_angle : FrameClass -> R.

(** [frame.realize_frame (SphericalRepresentation (lon, lat, distance))]:
    the longitude becomes a [Longitude] of the frame. *)
Definition realize_spherical (frame : Frame) (lon lat distance : Quantity)
  : result Frame :=
  lon <- Longitude (wrap_angle (frame_class frame)) lon ;;
  let representation := SphericalRepresentation lon lat distance in
  Ok (realize_frame frame (Some representation)).

Definition _carrington_offset (obstime : option Time) : result Quantity :=
  match obstime with
  | None => Raise (ValueError "To perform this transformation the coordinate Frame needs a obstime Attribute")
  | Some t => Ok (mkQ (nd_map L0 t) deg)
  end.

Definition _observers_are_equal (obs_1 obs_2 : Observer) (string_ok : bool)
  : result bool :=
  if string_ok && py_eq obs_1 obs_2 then Ok true
  else if negb (is_frame obs_1 && is_frame obs_2)
  then Raise (ValueError "To compare two observers, both must be instances of BaseCoordinateFrame. Cannot compare two observers {} and {}.")
  else
    lat1 <- attr_lat obs_1 ;;
    lat2 <- attr_lat obs_2 ;;
    close_lat <- allclose lat1 lat2 ;;
    if negb close_lat then Ok false
    else
      lon1 <- attr_lon obs_1 ;;
      lon2 <- attr_lon obs_2 ;;
      close_lon <- allclose lon1 lon2 ;;
      if negb close_lon then Ok false
      else
        radius1 <- attr_radius obs_1 ;;
        radius2 <- attr_radius obs_2 ;;
        allclose radius1 radius2.

Definition hgs_to_hgc (hgscoord hgcframe : Frame) : result Frame :=
  mismatch <- match obstime hgcframe with
              | None => Ok true
              | Some t =>
                  ne <- obstime_ne (Some t) (obstime hgscoord) ;;
                  Ok (np_any ne)
              end ;;
  if mismatch : bool
  then Raise (ValueError "Can not transform from Heliographic Stonyhurst to Heliographic Carrington, unless both frames have matching obstime.")
  else
    '(lon, _, _) <- spherical hgscoord ;;
    offset <- _carrington_offset (obstime hgscoord) ;;
    offset <- to deg offset ;;
    c_lon <- qadd lon offset ;;
    '(_, lat, _) <- spherical hgscoord ;;
    '(_, _, distance) <- spherical hgscoord ;;
    let hgcframe := mkFrame (frame_class hgcframe) (obstime hgscoord) None None in
    realize_spherical hgcframe c_lon lat distance.

Definition hgc_to_hgs (hgccoord hgsframe : Frame) : result Frame :=
  mismatch <- match obstime hgsframe with
              | None => Ok true
              | Some t =>
                  ne <- obstime_ne (Some t) (obstime hgccoord) ;;
                  Ok (np_any ne)
              end ;;
  if mismatch : bool
  then Raise (ValueError "Can not transform from Heliographic Carrington to Heliographic Stonyhurst, unless both frames have matching obstime.")
  else
    let obstime := obstime hgsframe in
    '(lon, _, _) <- spherical hgccoord ;;
    offset <- _carrington_offset obstime ;;
    offset <- to deg offset ;;
    s_lon <- qsub lon offset ;;
    '(_, lat, _) <- spherical hgccoord ;;
    '(_, _, distance) <- spherical hgccoord ;;
    realize_spherical hgsframe s_lon lat distance.

(** Lines 126-140 of [hcc_to_hpc]: the projection of a coordinate that is
    expressed for the observer of the destination frame. *)
Definition hcc_to_hpc_projection (helioccoord heliopframe : Frame) : result Frame :=
  '(x, y, z) <- cartesian helioccoord ;;
  x <- to m x ;;
  y <- to m y ;;
  z <- to m z ;;
  (* distance between the points (x, y, z) and (0, 0, D0) *)
  xx_yy <- qadd (qsquare x) (qsquare y) ;;
  obs <- get_observer helioccoord ;;
  radius <- attr_radius obs ;;
  dz <- qsub radius z ;;
  sum <- qadd xx_yy (qsquare dz) ;;
  distance <- qsqrt sum ;;
  obs <- get_observer helioccoord ;;
  radius <- attr_radius obs ;;
  dz <- qsub radius z ;;
  angle_x <- qarctan2 x dz ;;
  hpcx <- rad2deg angle_x ;;
  ratio <- qdiv y distance ;;
  angle_y <- qarcsin ratio ;;
  hpcy <- rad2deg angle_y ;;
  distance_km <- to km distance ;;
  realize_spherical heliopframe hpcx hpcy distance_km.

Definition hcc_to_hpc (helioccoord heliopframe : Frame) : result Frame :=
  obs_c <- get_observer helioccoord ;;
  obs_p <- get_observer heliopframe ;;
  equal <- _observers_are_equal obs_c obs_p false ;;
  helioccoord <- (if negb equal
                  then
                    let heliocframe := mkFrame Heliocentric None (Some obs_p) None in
                    transform_to helioccoord heliocframe
                  else Ok helioccoord) ;;
  hcc_to_hpc_projection helioccoord heliopframe.

Definition hpc_to_hcc (heliopcoord heliocframe : Frame) : result Frame :=
  obs_p <- get_observer heliopcoord ;;
  obs_c <- get_observer heliocframe ;;
  equal <- _observers_are_equal obs_p obs_c false ;;
  if negb equal
  then
    let heliocframe_heliopobs := mkFrame Heliocentric None (Some obs_p) None in
    helioccoord_heliopobs <- transform_to heliopcoord heliocframe_heliopobs ;;
    transform_to helioccoord_heliopobs heliocframe
  else
    obs_p <- get_observer heliopcoord ;;
    if negb (is_frame obs_p)
    then Raise (ConvertError "Cannot transform helioprojective coordinates to heliocentric coordinates for observer '{}' without `obstime` being specified.")
    else
      heliopcoord <- calculate_distance heliopcoord ;;
      '(Tx, _, _) <- spherical heliopcoord ;;
      x <- deg2rad Tx ;;
      '(_, Ty, _) <- spherical heliopcoord ;;
      y <- deg2rad Ty ;;
      cosx <- qcos x ;;
      sinx <- qsin x ;;
      cosy <- qcos y ;;
      siny <- qsin y ;;
      '(_, _, distance) <- spherical heliopcoord ;;
      d <- to m distance ;;
      d_cosy <- qmul d cosy ;;
      rx <- qmul d_cosy sinx ;;
      ry <- qmul d siny ;;
      obs <- get_observer heliopcoord ;;
      radius <- attr_radius obs ;;
      radius <- to m radius ;;
      d_cosy_cosx <- qmul d_cosy cosx ;;
      rz <- qsub radius d_cosy_cosx ;;
      rx <- to km rx ;;
      ry <- to km ry ;;
      rz <- to km rz ;;
      let representation := CartesianRepresentation rx ry rz in
      Ok (realize_frame heliocframe (Some representation)).

(** [hpc_to_hcc] with the test of lines 155-158 and its [ConvertError]
    deleted; every other line is as in [hpc_to_hcc]. *)
Definition hpc_to_hcc_without_observer_test (heliopcoord heliocframe : Frame)
  : result Frame :=
  obs_p <- get_observer heliopcoord ;;
  obs_c <- get_observer heliocframe ;;
  equal <- _observers_are_equal obs_p obs_c false ;;
  if negb equal
  then
    let heliocframe_heliopobs := mkFrame Heliocentric None (Some obs_p) None in
    helioccoord_heliopobs <- transform_to heliopcoord heliocframe_heliopobs ;;
    transform_to helioccoord_heliopobs heliocframe
  else
    heliopcoord <- calculate_distance heliopcoord ;;
    '(Tx, _, _) <- spherical heliopcoord ;;
    x <- deg2rad Tx ;;
    '(_, Ty, _) <- spherical heliopcoord ;;
    y <- deg2rad Ty ;;
    cosx <- qcos x ;;
    sinx <- qsin x ;;
    cosy <- qcos y ;;
    siny <- qsin y ;;
    '(_, _, distance) <- spherical heliopcoord ;;
    d <- to m distance ;;
    d_cosy <- qmul d cosy ;;
    rx <- qmul d_cosy sinx ;;
    ry <- qmul d siny ;;
    obs <- get_observer heliopcoord ;;
    radius <- attr_radius obs ;;
    radius <- to m radius ;;
    d_cosy_cosx <- qmul d_cosy cosx ;;
    rz <- qsub radius d_cosy_cosx ;;
    rx <- to km rx ;;
    ry <- to km ry ;;
    rz <- to km rz ;;
    let representation := CartesianRepresentation rx ry rz in
    Ok (realize_frame heliocframe (Some representation)).

Definition hcc_to_hgs (helioccoord heliogframe : Frame) : result Frame :=
  obs <- get_observer helioccoord ;;
  if negb (is_frame obs)
  then Raise (ConvertError "Cannot transform heliocentric coordinates to heliographic coordinates for observer '{}' without `obstime` being specified.")
  else
    '(x, y, z) <- cartesian helioccoord ;;
    x <- to m x ;;
    y <- to m y ;;
    z <- to m z ;;
    l0_rad <- attr_lon obs ;;
    b0_deg <- attr_lat obs ;;
    b0 <- deg2rad b0_deg ;;
    cosb <- qcos b0 ;;
    b0 <- deg2rad b0_deg ;;
    sinb <- qsin b0 ;;
    xx_yy <- qadd (qsquare x) (qsquare y) ;;
    sum <- qadd xx_yy (qsquare z) ;;
    hecr <- qsqrt sum ;;
    z_cosb <- qmul z cosb ;;
    y_sinb <- qmul y sinb ;;
    den <- qsub z_cosb y_sinb ;;
    angle <- qarctan2 x den ;;
    hgln <- qadd angle l0_rad ;;
    y_cosb <- qmul y cosb ;;
    z_sinb <- qmul z sinb ;;
    num <- qadd y_cosb z_sinb ;;
    ratio <- qdiv num hecr ;;
    hglt <- qarcsin ratio ;;
    lon <- rad2deg hgln ;;
    lat <- rad2deg hglt ;;
    hecr_km <- to km hecr ;;
    realize_spherical heliogframe lon lat hecr_km.

(** Lines 215-220 of [hgs_to_hcc]: the radial distance the conversion
    works with. *)
Definition hgs_to_hcc_radius (r : Quantity) : result Quantity :=
  unit_sphere <- (if is_one (unit r) then allclose r (mkQ (Scalar 1) one)
                  else Ok false) ;;
  if unit_sphere : bool
  then
    let r := mkQ (ones_like (value r)) (unit r) in
    qmul r (mkQ (Scalar RSUN_METERS) m)
  else Ok r.

(** Lines 222-250 of [hgs_to_hcc]: the conversion for a given radial
    distance [r]. *)
Definition hgs_to_hcc_cartesian (hglon hglat r : Quantity) (heliocframe : Frame)
  : result Frame :=
  obs <- get_observer heliocframe ;;
  if negb (is_frame obs)
  then Raise (ConvertError "Cannot transform heliographic coordinates to heliocentric coordinates for observer '{}' without `obstime` being specified.")
  else
    l0 <- attr_lon obs ;;
    l0_rad <- to rad l0 ;;
    b0_deg <- attr_lat obs ;;
    lon <- deg2rad hglon ;;
    lat <- deg2rad hglat ;;
    b0 <- to rad b0_deg ;;
    cosb <- qcos b0 ;;
    b0 <- to rad b0_deg ;;
    sinb <- qsin b0 ;;
    lon <- qsub lon l0_rad ;;
    cosx <- qcos lon ;;
    sinx <- qsin lon ;;
    cosy <- qcos lat ;;
    siny <- qsin lat ;;
    r_cosy <- qmul r cosy ;;
    x <- qmul r_cosy sinx ;;
    siny_cosb <- qmul siny cosb ;;
    cosy_cosx <- qmul cosy cosx ;;
    cosy_cosx_sinb <- qmul cosy_cosx sinb ;;
    fy <- qsub siny_cosb cosy_cosx_sinb ;;
    y <- qmul r fy ;;
    siny_sinb <- qmul siny sinb ;;
    cosy_cosx <- qmul cosy cosx ;;
    cosy_cosx_cosb <- qmul cosy_cosx cosb ;;
    fz <- qadd siny_sinb cosy_cosx_cosb ;;
    zz <- qmul r fz ;;
    x <- to km x ;;
    y <- to km y ;;
    zz <- to km zz ;;
    let representation := CartesianRepresentation x y zz in
    Ok (realize_frame heliocframe (Some representation)).

Definition hgs_to_hcc (heliogcoord heliocframe : Frame) : result Frame :=
  '(hglon, _, _) <- spherical heliogcoord ;;
  '(_, hglat, _) <- spherical heliogcoord ;;
  '(_, _, r) <- spherical heliogcoord ;;
  r <- hgs_to_hcc_radius r ;;
  hgs_to_hcc_cartesian hglon hglat r heliocframe.

Definition hpc_to_hpc (heliopcoord heliopframe : Frame) : result Frame :=
  obs_from <- get_observer heliopcoord ;;
  obs_to <- get_observer heliopframe ;;
  same <- (if py_eq obs_from obs_to then Ok true
           else
             lat1 <- attr_lat obs_from ;;
             lat2 <- attr_lat obs_to ;;
             close_lat <- allclose lat1 lat2 ;;
             if negb close_lat then Ok false
             else
               lon1 <- attr_lon obs_from ;;
               lon2 <- attr_lon obs_to ;;
               close_lon <- allclose lon1 lon2 ;;
               if negb close_lon then Ok false
               else
                 radius1 <- attr_radius obs_from ;;
                 radius2 <- attr_radius obs_to ;;
                 allclose radius1 radius2) ;;
  if same : bool
  then Ok (realize_frame heliopframe (data heliopcoord))
  else
    obs_to <- get_observer heliopframe ;;
    if negb (is_frame obs_to)
    then Raise (ConvertError "Cannot transform between helioprojective frames without `obstime` being specified for observer {}.")
    else
      obs_from <- get_observer heliopcoord ;;
      if negb (is_frame obs_from)
      then Raise (ConvertError "Cannot transform between helioprojective frames without `obstime` being specified for observer {}.")
      else
        hgs <- transform_to heliopcoord (mkFrame HeliographicStonyhurst None None None) ;;
        obs_to <- get_observer heliopframe ;;
        let hgs := set_observer hgs obs_to in
        transform_to hgs heliopframe.

Definition _make_rotation_matrix_from_reprs (A B : vec3) : mat3 :=
  let rotation_axis := cross A B in
  let rotation_angle := - acos (dot A B / (norm A * norm B)) in
  rotation_matrix rotation_angle rotation_axis.

(** [UnitSphericalRepresentation (lon, lat).to_cartesian ()], angles in
    degrees. *)
Definition unit_spherical_to_cartesian (lon_deg lat_deg : R) : vec3 :=
  let lon := lon_deg * (PI / 180) in
  let lat := lat_deg * (PI / 180) in
  mkVec (cos lat * cos lon) (cos lat * sin lon) (sin lat).

Definition _SOLAR_NORTH_POLE_HCRS : vec3 :=
  unit_spherical_to_cartesian 286.13 63.87.

Definition _SUN_DETILT_MATRIX : mat3 :=
  _make_rotation_matrix_from_reprs _SOLAR_NORTH_POLE_HCRS (mkVec 0 0 1).

(** [np.stack] *)
Definition np_stack {A : Type} (l : list A) : result (nd A) :=
  match l with
  | [] => Raise (ValueError "need at least one array to stack")
  | _ => Ok (Array l)
  end.

(** Only the [obstime] of the two arguments is read, so that
    [hgs_to_hcrs] can pass them in swapped roles. *)
Definition hcrs_to_hgs (hcrscoord hgsframe : Frame) : result (nd mat3 * nd vec3) :=
  match obstime hgsframe with
  | None => Raise (ValueError "To perform this transformation the coordinate Frame needs an obstime Attribute")
  | Some t =>
      let sun_pos_icrs := nd_map (get_body_barycentric "sun") t in
      let earth_pos_icrs := nd_map (get_body_barycentric "earth") t in
      sun_earth <- broadcast2 vsub earth_pos_icrs sun_pos_icrs ;;
      let sun_earth_detilt := nd_map (transform _SUN_DETILT_MATRIX) sun_earth in
      let hgs_x_axis_detilt :=
        nd_map (fun v => mkVec (vx v * 1) (vy v * 1) (vz v * 0)) sun_earth_detilt in
      let x_axis := mkVec 1 0 0 in
      (* the shape of [hgs_x_axis_detilt] is the shape of the obstime *)
      rot_matrix <- match hgs_x_axis_detilt with
                    | Scalar vect =>
                        Ok (Scalar (_make_rotation_matrix_from_reprs vect x_axis))
                    | Array vects =>
                        let rot_matrix_list :=
                          map (fun vect => _make_rotation_matrix_from_reprs vect x_axis) vects in
                        np_stack rot_matrix_list
                    end ;;
      let total_matrix :=
        nd_map (fun rot => matrix_product rot _SUN_DETILT_MATRIX) rot_matrix in
      ne <- obstime_ne (obstime hcrscoord) (Some t) ;;
      offset <- (if np_any ne
                 then
                   match obstime hcrscoord with
                   | None => Raise (AttributeError "tdb")
                   | Some t_old =>
                       let sun_pos_old_icrs := nd_map (get_body_barycentric "sun") t_old in
                       offset_icrf <- broadcast2 vsub sun_pos_icrs sun_pos_old_icrs ;;
                       broadcast2 transform total_matrix offset_icrf
                   end
                 else Ok (Scalar (mkVec 0 0 0))) ;;
      Ok (total_matrix, offset)
  end.

Definition hgs_to_hcrs (hgscoord hcrsframe : Frame) : result (nd mat3 * nd vec3) :=
  '(total_matrix, offset) <- hcrs_to_hgs hcrsframe hgscoord ;;
  let reverse_matrix := nd_map matrix_transpose total_matrix in
  reverse_offset <- broadcast2 transform reverse_matrix (nd_map vneg offset) ;;
  Ok (reverse_matrix, reverse_offset).

Definition hgs_to_hgs (from_coo to_frame : Frame) : result Frame :=
  eq <- obstime_eq (obstime from_coo) (obstime to_frame) ;;
  if np_all eq
  then
    rep <- get_data from_coo ;;
    Ok (realize_frame to_frame (Some rep))
  else
    hcrs <- transform_to from_coo (mkFrame HCRS (Some DEFAULT_OBSTIME) None None) ;;
    transform_to hcrs to_frame.

Definition hgc_to_hgc (from_coo to_frame : Frame) : result Frame :=
  eq <- obstime_eq (obstime from_coo) (obstime to_frame) ;;
  if np_all eq
  then
    rep <- get_data from_coo ;;
    Ok (realize_frame to_frame (Some rep))
  else
    hgs_from <- transform_to from_coo
                  (mkFrame HeliographicStonyhurst (obstime from_coo) None None) ;;
    hgs_to <- transform_to hgs_from
                (mkFrame HeliographicStonyhurst (obstime to_frame) None None) ;;
    transform_to hgs_to to_frame.

Definition hcc_to_hcc (hcccoord hccframe : Frame) : result Frame :=
  obs_from <- get_observer hcccoord ;;
  obs_to <- get_observer hccframe ;;
  equal <- _observers_are_equal obs_from obs_to true ;;
  if equal : bool
  then Ok (realize_frame hccframe (data hcccoord))
  else
    hgscoord <- transform_to hcccoord (mkFrame HeliographicStonyhurst None None None) ;;
    obs_to <- get_observer hccframe ;;
    let hgscoord := set_observer hgscoord obs_to in
    transform_to hgscoord hccframe.

End Transformations.

(** ** Notions used in the statements *)

(** Two obstimes hold the same instants, read with NumPy's broadcasting:
    a scalar (or an array of one element) matches an array all of whose
    elements are that instant. *)
Definition instants_match (a b : Time) : Prop :=
  match a, b with
  | Scalar i, Scalar j => i = j
  | Scalar i, Array l => Forall (fun j => i = j) l
  | Array l, Scalar j => Forall (fun i => i = j) l
  | Array l1, Array l2 =>
      l1 = l2 \/
      (exists i, l1 = [i] /\ Forall (fun j => i = j) l2) \/
      (exists j, l2 = [j] /\ Forall (fun i => i = j) l1)
  end.

(** An observer that carries its geometry. *)
Definition geometric (obs : option Observer) : Prop :=
  exists o, obs = Some (ObserverCoord o).

(** A scalar quantity. *)
Definition qty (v : R) (u : Unit) : Quantity := mkQ (Scalar v) u.

(** The first statement of [hgs_to_hgc] and of [hgc_to_hgs]: whether the
    obstime of the destination is missing or differs from the one of the
    coordinate. *)
Definition obstime_guard (dest src : option Time) : result bool :=
  match dest with
  | None => Ok true
  | Some t => ne <- obstime_ne (Some t) src ;; Ok (np_any ne)
  end.

(** ** Sample inputs *)

Module Sample.

(** An observer at 150 million km on the Stonyhurst meridian. *)
Definition earth : ObserverFrame :=
  mkObserver 1 (qty 0 deg) (qty 0 deg) (qty 150000000 km).

(** The wrap angles of the frame classes: 360 degrees for Carrington
    longitudes, 180 degrees for the others. *)
Definition wrap_angle (cls : FrameClass) : R :=
  match cls with
  | HeliographicCarrington => 360
  | _ => 180
  end.

(** A transform graph that hands every coordinate back. *)
Definition no_graph (c : Frame) (_ : Frame) : result Frame := Ok c.

Definition no_distance (c : Frame) : result Frame := Ok c.

Definition L0_zero (_ : Z) : R := 0.

Definition L0_linear (i : Z) : R := IZR i.

(** A point on the solar limb, in metres, seen from [earth]. *)
Definition hcc_limb : Frame :=
  mkFrame Heliocentric None (Some (ObserverCoord earth))
    (Some (CartesianRepresentation (qty 695700000 m) (qty 0 m) (qty 0 m))).

(** The same data with an observer that is still a label. *)
Definition hcc_label : Frame :=
  mkFrame Heliocentric None (Some (ObserverLabel "earth"))
    (Some (CartesianRepresentation (qty 695700000 m) (qty 0 m) (qty 0 m))).

Definition hcc_frame_earth : Frame :=
  mkFrame Heliocentric None (Some (ObserverCoord earth)) None.

Definition hcc_frame_label : Frame :=
  mkFrame Heliocentric None (Some (ObserverLabel "earth")) None.

Definition hpc_frame_earth : Frame :=
  mkFrame Helioprojective None (Some (ObserverCoord earth)) None.

(** Helioprojective frames without obstime: their observers are labels. *)
Definition hpc_point_earth_label : Frame :=
  mkFrame Helioprojective None (Some (ObserverLabel "earth"))
    (Some (UnitSphericalRepresentation (qty 0 deg) (qty 0 deg))).

Definition hpc_frame_venus_label : Frame :=
  mkFrame Helioprojective None (Some (ObserverLabel "venus")) None.

(** A Helioprojective direction seen by the geometric observer [earth]. *)
Definition hpc_point_earth : Frame :=
  mkFrame Helioprojective (Some (Scalar 7%Z)) (Some (ObserverCoord earth))
    (Some (UnitSphericalRepresentation (qty 0 deg) (qty 0 deg))).

(** Stonyhurst and Carrington frames, which carry no observer. *)
Definition hgs_frame (t : option Time) : Frame :=
  mkFrame HeliographicStonyhurst t None None.

Definition hgc_frame (t : option Time) : Frame :=
  mkFrame HeliographicCarrington t None None.

Definition hgs_frame_label_observer : Frame :=
  mkFrame HeliographicStonyhurst None (Some (ObserverLabel "earth")) None.

Definition hgs_point (t : option Time) : Frame :=
  mkFrame HeliographicStonyhurst t None
    (Some (SphericalRepresentation (qty 10 deg) (qty 20 deg) (qty 695700 km))).

(** A Stonyhurst direction without distance. *)
Definition hgs_direction : Frame :=
  mkFrame HeliographicStonyhurst None None
    (Some (UnitSphericalRepresentation (qty 10 deg) (qty 20 deg))).

Definition hcrs_frame (t : Time) : Frame := mkFrame HCRS (Some t) None None.

(** An ephemeris with the Sun at rest and the Earth on a fixed axis. *)
Definition ephemeris (body : string) (_ : Z) : vec3 :=
  if String.eqb body "earth" then mkVec 0 1 0 else mkVec 0 0 0.

(** The rotation about the z axis by [angle], whatever the axis asked for. *)
Definition z_rotation (angle : R) (_ : vec3) : mat3 :=
  mkMat (cos angle) (sin angle) 0
        (- sin angle) (cos angle) 0
        0 0 1.

End Sample.

(** ** Further definitions: the remaining code of the module *)

(** [hpc_to_hpc] with the two tests of lines 266-271 and their
    [ConvertError] deleted; every other line is as in [hpc_to_hpc]. *)
Definition hpc_to_hpc_without_observer_tests
    (transform_to : Frame -> Frame -> result Frame)
    (heliopcoord heliopframe : Frame) : result Frame :=
  obs_from <- get_observer heliopcoord ;;
  obs_to <- get_observer heliopframe ;;
  same <- (if py_eq obs_from obs_to then Ok true
           else
             lat1 <- attr_lat obs_from ;;
             lat2 <- attr_lat obs_to ;;
             close_lat <- allclose lat1 lat2 ;;
             if negb close_lat then Ok false
             else
               lon1 <- attr_lon obs_from ;;
               lon2 <- attr_lon obs_to ;;
               close_lon <- allclose lon1 lon2 ;;
               if negb close_lon then Ok false
               else
                 radius1 <- attr_radius obs_from ;;
                 radius2 <- attr_radius obs_to ;;
                 allclose radius1 radius2) ;;
  if same : bool
  then Ok (realize_frame heliopframe (data heliopcoord))
  else
    hgs <- transform_to heliopcoord (mkFrame HeliographicStonyhurst None None None) ;;
    obs_to <- get_observer heliopframe ;;
    let hgs := set_observer hgs obs_to in
    transform_to hgs heliopframe.

(** The rotation that [hcrs_to_hgs] computes for one instant: the rotation
    of the de-tilted Sun-Earth vector, without its z component, onto the x
    axis, after the de-tilt rotation. *)
Definition hgs_rotation (get_body_barycentric : string -> Z -> vec3)
    (rotation_matrix : R -> vec3 -> mat3) (i : Z) : mat3 :=
  let sun_earth :=
    vsub (get_body_barycentric "earth" i) (get_body_barycentric "sun" i) in
  let sun_earth_detilt :=
    transform (_SUN_DETILT_MATRIX rotation_matrix) sun_earth in
  let hgs_x_axis_detilt :=
    mkVec (vx sun_earth_detilt * 1) (vy sun_earth_detilt * 1)
          (vz sun_earth_detilt * 0) in
  matrix_product
    (_make_rotation_matrix_from_reprs rotation_matrix hgs_x_axis_detilt
       (mkVec 1 0 0))
    (_SUN_DETILT_MATRIX rotation_matrix).

(** *** Shapes of arrays, for the statements about broadcasting *)

(** [a.shape]: [None] for a 0-d array, the length of a 1-d array. *)
Definition shape {A : Type} (a : nd A) : option nat :=
  match a with
  | Scalar _ => None
  | Array l => Some (List.length l)
  end.

(** Two shapes that NumPy broadcasts together, and the shape of the
    result. *)
Definition broadcastable (s1 s2 : option nat) : Prop :=
  match s1, s2 with
  | Some n1, Some n2 => n1 = n2 \/ n1 = 1%nat \/ n2 = 1%nat
  | _, _ => True
  end.

Definition broadcast_shape (s1 s2 : option nat) : option nat :=
  match s1, s2 with
  | None, s => s
  | s, None => s
  | Some n1, Some n2 =>
      Some (if Nat.eqb n1 n2 then n1 else if Nat.eqb n1 1 then n2 else n1)
  end.

(** *** The culling loop of [_make_sunpy_graph], lines 417-438 *)

Section Culling.

(** Frame classes, compared as dictionary keys, and the transforms that
    the edges of the graph carry. *)
Variables Class Transform : Type.
Variable class_eqb : Class -> Class -> bool.

(** [graph._graph]: a dict from the source frame to a dict from the
    destination frame to the transform, both in insertion order. *)
Definition TransformGraph : Type := list (Class * list (Class * Transform)).

(** [k in d] *)
Definition dict_contains {V : Type} (k : Class) (d : list (Class * V)) : bool :=
  existsb (fun e => class_eqb k (fst e)) d.

(** [del d[k]], for a key that is in [d] *)
Definition dict_del {V : Type} (k : Class) (d : list (Class * V))
  : list (Class * V) :=
  filter (fun e => negb (class_eqb k (fst e))) d.

Definition keep_list : list string :=
  ["icrs"; "hcrs"; "heliocentrictrueecliptic"; "heliocentricmeanecliptic";
   "heliographic_stonyhurst"; "heliographic_carrington";
   "heliocentric"; "helioprojective";
   "gcrs"; "precessedgeocentric"; "geocentrictrueecliptic";
   "geocentricmeanecliptic"; "cirs"; "altaz"; "itrs"].

Definition cull_list (get_names : list string) : list string :=
  filter (fun name => negb (existsb (String.eqb name) keep_list)) get_names.

(** The body of the loop of lines 430-438 for one frame. *)
Definition cull_frame (small_graph : TransformGraph) (frame : Class)
  : TransformGraph :=
  let small_graph :=
    if dict_contains frame small_graph then dict_del frame small_graph
    else small_graph in
  map (fun entry =>
         (fst entry,
          if dict_contains frame (snd entry) then dict_del frame (snd entry)
          else snd entry))
      small_graph.

(** Lines 427-438: the graph once every frame of [cull_frames] is culled. *)
Definition cull_graph (lookup_name : string -> Class) (get_names : list string)
    (small_graph : TransformGraph) : TransformGraph :=
  let cull_frames := map lookup_name (cull_list get_names) in
  fold_left cull_frame cull_frames small_graph.

(** The graph holds the transform [t] from [src] to [dst]. *)
Definition has_edge (g : TransformGraph) (src dst : Class) (t : Transform)
  : Prop :=
  exists row, In (src, row) g /\ In (dst, t) row.

(** Every name under which the graph knows the frame is on [keep_list]. *)
Definition kept (lookup_name : string -> Class) (get_names : list string)
    (c : Class) : Prop :=
  forall name, In name get_names -> lookup_name name = c -> In name keep_list.

End Culling.

Arguments dict_contains {Class} class_eqb {V} k d.
Arguments dict_del {Class} class_eqb {V} k d.
Arguments cull_frame {Class Transform} class_eqb small_graph frame.
Arguments cull_graph {Class Transform} class_eqb lookup_name get_names small_graph.
Arguments has_edge {Class Transform} g src dst t.
Arguments kept {Class} lookup_name get_names c.

Module Example.

(** A second observer, off the Stonyhurst meridian and the equator. *)
Definition venus : ObserverFrame :=
  mkObserver 2 (qty 3 deg) (qty 40 deg) (qty 108000000 km).

Definition hcc_frame_venus : Frame :=
  mkFrame Heliocentric None (Some (ObserverCoord venus)) None.

(** The two edges that the module registers between Heliocentric and
    Stonyhurst, as [hcc_to_hcc] walks them. *)
Definition direct_graph (c f : Frame) : result Frame :=
  match frame_class c, frame_class f with
  | Heliocentric, HeliographicStonyhurst => hcc_to_hgs Sample.wrap_angle c f
  | HeliographicStonyhurst, Heliocentric => hgs_to_hcc 695700000 c f
  | _, _ => Raise (ConvertError "no path")
  end.

(** A small graph with one frame, FK5, that is not on [keep_list]. *)
Definition names : list string := ["icrs"; "fk5"; "hcrs"].

Definition lookup_name (name : string) : string :=
  if String.eqb name "icrs" then "ICRS"
  else if String.eqb name "fk5" then "FK5"
  else "HCRS".

Definition graph : TransformGraph string nat :=
  [("ICRS", [("FK5", 1%nat); ("HCRS", 2%nat)]);
   ("FK5", [("ICRS", 3%nat)]);
   ("HCRS", [("ICRS", 4%nat)])].


(** A Helioprojective point at the disc centre, 149304300 km from [earth]. *)
Definition hpc_centre : Frame :=
  mkFrame Helioprojective None (Some (ObserverCoord Sample.earth))
    (Some (SphericalRepresentation (qty 0 deg) (qty 0 deg) (qty 149304300 km))).

(** A Heliocentric point off the axes, in metres, seen from [earth]. *)
Definition hcc_point : Frame :=
  mkFrame Heliocentric None (Some (ObserverCoord Sample.earth))
    (Some (CartesianRepresentation (qty 300000000 m) (qty 400000000 m)
             (qty 500000000 m))).


(** A Stonyhurst point with its distance in km. *)
Definition hgs_point_km : Frame :=
  mkFrame HeliographicStonyhurst None None
    (Some (SphericalRepresentation (qty 10 deg) (qty 20 deg) (qty 695700 km))).

(** A Heliocentric frame without obstime, its observer the label "venus". *)
Definition hcc_frame_venus_label : Frame :=
  mkFrame Heliocentric None (Some (ObserverLabel "venus")) None.

(** Two Heliocentric points [(x, y, z)], in metres, seen from
    [Sample.earth]. *)
Definition two_points : nd (R * R * R) :=
  Array [(300000000, 400000000, 500000000); (0, 0, 695700000)].

Definition hcc_points : Frame :=
  mkFrame Heliocentric None (Some (ObserverCoord Sample.earth))
    (Some (CartesianRepresentation
             (mkQ (Array [300000000; 0]) m)
             (mkQ (Array [400000000; 0]) m)
             (mkQ (Array [500000000; 695700000]) m))).

(** Two spherical points: longitude and latitude in degrees, distance in
    km. *)
Definition two_directions : nd (R * R * R) :=
  Array [(10, 20, 695700); (1, 2, 149304300)].

Definition hgs_points : Frame :=
  mkFrame HeliographicStonyhurst None None
    (Some (SphericalRepresentation
             (mkQ (Array [10; 1]) deg)
             (mkQ (Array [20; 2]) deg)
             (mkQ (Array [695700; 149304300]) km))).

Definition hpc_points : Frame :=
  mkFrame Helioprojective None (Some (ObserverCoord Sample.earth))
    (Some (SphericalRepresentation
             (mkQ (Array [10; 1]) deg)
             (mkQ (Array [20; 2]) deg)
             (mkQ (Array [695700; 149304300]) km))).

(** An array obstime of two instants. *)
Definition two_instants : Time := Array [1%Z; 2%Z].

End Example.

(** ** Auxiliary lemmas *)

Ltac run :=
  cbv -[Rplus Rmult Rminus Rdiv Ropp Rinv sqrt sin cos atan asin acos PI Rabs
        IZR Rle_dec Rlt_dec Req_dec_T arctan2 isclose rtol wrap_value wrap_at].

Lemma Rmult_one_over (a b : R) : a * (1 / b) = a / b.
Proof. unfold Rdiv. ring. Qed.

Lemma Rdiv_degree (a : R) : a / (PI / 180) = a * (180 / PI).
Proof. pose proof PI_RGT_0. field. lra. Qed.

(** The wrap angle and the turn, converted from degrees to degrees. *)
Lemma wrap_value_degrees (w x : R) :
  wrap_value (w * (PI / 180 / (PI / 180))) (360 * (PI / 180 / (PI / 180))) x
  = wrap_at w x.
Proof.
  pose proof PI_RGT_0.
  replace (PI / 180 / (PI / 180)) with 1 by (field; lra).
  now rewrite !Rmult_1_r.
Qed.

(** Unit factors of value 1 left by the conversions between units. *)
Ltac norm_units :=
  repeat first [rewrite Rdiv_1_r | rewrite Rmult_1_r | rewrite Rmult_1_l
               | rewrite sqrt_1 | rewrite Rmult_one_over
               | rewrite Rdiv_degree | rewrite wrap_value_degrees].

(** The test of [qdiv] on a divisor that is not zero. *)
Ltac divisor_nonzero H :=
  match goal with
  | |- context [Req_dec_T ?d 0] =>
      destruct (Req_dec_T d 0) as [H | _]; [exfalso |]
  end.

(** *** The wrapping of longitudes *)

Lemma Int_part_plus_IZR (r : R) (k : Z) :
  Int_part (r + IZR k) = (Int_part r + k)%Z.
Proof.
  symmetry. apply Int_part_spec. rewrite plus_IZR.
  destruct (base_Int_part r) as [Hle Hgt]. split; lra.
Qed.

(** The wrapped angle differs from the angle by whole turns. *)
Lemma wrap_value_turns (w a x : R) :
  exists k : Z, wrap_value w a x = x - IZR k * a.
Proof. unfold wrap_value. eexists. reflexivity. Qed.

(** It lies in the turn that ends at the wrap angle. *)
Lemma wrap_value_range (w a x : R) :
  0 < a -> w - a <= wrap_value w a x < w.
Proof.
  intros Ha. unfold wrap_value.
  destruct (base_Int_part ((x - (w - a)) / a)) as [Hle Hgt].
  set (k := IZR (Int_part ((x - (w - a)) / a))) in *.
  assert (Hq : (x - (w - a)) / a * a = x - (w - a)) by (field; lra).
  split; nra.
Qed.

(** Whole turns added to an angle do not show after wrapping. *)
Lemma wrap_value_shift (w a x : R) (k : Z) :
  wrap_value w a (x + IZR k * a) = wrap_value w a x.
Proof.
  unfold wrap_value. destruct (Req_dec_T a 0) as [-> | Ha].
  - rewrite !Rdiv_0_r. ring.
  - replace ((x + IZR k * a - (w - a)) / a) with ((x - (w - a)) / a + IZR k)
      by (field; exact Ha).
    rewrite Int_part_plus_IZR, plus_IZR. ring.
Qed.

(** An angle that lies in the turn is left as it is. *)
Lemma wrap_value_id (w a x : R) :
  0 < a -> w - a <= x < w -> wrap_value w a x = x.
Proof.
  intros Ha [Hlo Hhi]. unfold wrap_value.
  replace (Int_part ((x - (w - a)) / a)) with 0%Z; [ring |].
  apply Int_part_spec. cbn [IZR].
  assert (Hq : (x - (w - a)) / a * a = x - (w - a)) by (field; lra).
  split; nra.
Qed.

(** Wrapping twice, with an offset in between, is wrapping once. *)
Lemma wrap_value_wrap (w1 w2 a x y : R) :
  wrap_value w2 a (wrap_value w1 a x + y) = wrap_value w2 a (x + y).
Proof.
  destruct (wrap_value_turns w1 a x) as [k ->].
  replace (x - IZR k * a + y) with (x + y + IZR (- k) * a)
    by (rewrite opp_IZR; ring).
  apply wrap_value_shift.
Qed.

Lemma sin_turns (x : R) (k : Z) : sin (x - IZR k * (2 * PI)) = sin x.
Proof.
  destruct k as [| p | p].
  - f_equal. cbn [IZR]. ring.
  - rewrite <- (sin_period (x - IZR (Z.pos p) * (2 * PI)) (Pos.to_nat p)).
    f_equal. rewrite INR_IZR_INZ, positive_nat_Z. ring.
  - rewrite <- (sin_period x (Pos.to_nat p)). f_equal.
    rewrite INR_IZR_INZ, positive_nat_Z.
    change (Z.neg p) with (- Z.pos p)%Z. rewrite opp_IZR. ring.
Qed.

Lemma cos_turns (x : R) (k : Z) : cos (x - IZR k * (2 * PI)) = cos x.
Proof.
  destruct k as [| p | p].
  - f_equal. cbn [IZR]. ring.
  - rewrite <- (cos_period (x - IZR (Z.pos p) * (2 * PI)) (Pos.to_nat p)).
    f_equal. rewrite INR_IZR_INZ, positive_nat_Z. ring.
  - rewrite <- (cos_period x (Pos.to_nat p)). f_equal.
    rewrite INR_IZR_INZ, positive_nat_Z.
    change (Z.neg p) with (- Z.pos p)%Z. rewrite opp_IZR. ring.
Qed.

(** Sine and cosine do not see the wrapping of an angle in degrees. *)
Lemma sin_wrap_at (w x : R) : sin (wrap_at w x * (PI / 180)) = sin (x * (PI / 180)).
Proof.
  unfold wrap_at. destruct (wrap_value_turns w 360 x) as [k ->].
  replace ((x - IZR k * 360) * (PI / 180)) with (x * (PI / 180) - IZR k * (2 * PI))
    by field.
  apply sin_turns.
Qed.

Lemma cos_wrap_at (w x : R) : cos (wrap_at w x * (PI / 180)) = cos (x * (PI / 180)).
Proof.
  unfold wrap_at. destruct (wrap_value_turns w 360 x) as [k ->].
  replace ((x - IZR k * 360) * (PI / 180)) with (x * (PI / 180) - IZR k * (2 * PI))
    by field.
  apply cos_turns.
Qed.

Lemma wrap_at_range (w x : R) : w - 360 <= wrap_at w x < w.
Proof. apply wrap_value_range. lra. Qed.

Lemma wrap_at_id (w x : R) : w - 360 <= x < w -> wrap_at w x = x.
Proof. apply wrap_value_id. lra. Qed.

Lemma wrap_at_turns (w x : R) : exists k : Z, wrap_at w x = x - IZR k * 360.
Proof. apply wrap_value_turns. Qed.

Lemma wrap_at_unique (w x : R) (k : Z) :
  w - 360 <= x - IZR k * 360 < w -> wrap_at w x = x - IZR k * 360.
Proof.
  intros H. unfold wrap_at.
  replace x with (x - IZR k * 360 + IZR k * 360) at 1 by ring.
  rewrite wrap_value_shift. apply wrap_value_id; [lra | exact H].
Qed.

Lemma wrap_at_wrap (w1 w2 x y : R) :
  wrap_at w2 (wrap_at w1 x + y) = wrap_at w2 (x + y).
Proof. apply wrap_value_wrap. Qed.

Lemma nd_map_id_ext {A : Type} (f : A -> A) (a : nd A) :
  (forall x, f x = x) -> nd_map f a = a.
Proof.
  intros Hf. destruct a as [x | l]; simpl.
  - now rewrite Hf.
  - f_equal. induction l as [| y l IH]; simpl; [reflexivity |].
    now rewrite Hf, IH.
Qed.

Lemma same_dims_refl (u : Unit) : same_dims u u = true.
Proof. unfold same_dims. now rewrite !Z.eqb_refl. Qed.

(** Converting a quantity to the unit it already has changes nothing. *)
Lemma to_own_unit (u : Unit) (v : nd R) :
  scale u <> 0 -> to u (mkQ v u) = Ok (mkQ v u).
Proof.
  intros Hu. unfold to. simpl. rewrite same_dims_refl. do 2 f_equal.
  apply nd_map_id_ext. intros x. field. exact Hu.
Qed.

Lemma deg_scale_nonzero : scale deg <> 0.
Proof. simpl. pose proof PI_RGT_0. lra. Qed.

(** A [Longitude] in degrees. *)
Lemma Longitude_degrees (w : R) (v : nd R) :
  Longitude w (mkQ v deg) = Ok (mkQ (nd_map (wrap_at w) v) deg).
Proof.
  unfold Longitude. cbn [unit value same_dims deg ldim adim Z.eqb Pos.eqb andb
                         scale].
  pose proof PI_RGT_0.
  replace (PI / 180 / (PI / 180)) with 1 by (field; lra).
  now rewrite !Rmult_1_r.
Qed.

Lemma Longitude_degrees_scalar (w x : R) :
  Longitude w (qty x deg) = Ok (qty (wrap_at w x) deg).
Proof. apply Longitude_degrees. Qed.

(** The comparison of instants answers all-equal only on matching
    obstimes. *)
Lemma zip_with_ne_none (l1 l2 : list Z) :
  List.length l1 = List.length l2 ->
  existsb (fun b => b) (zip_with (fun i j => negb (Z.eqb i j)) l1 l2) = false ->
  l1 = l2.
Proof.
  revert l2. induction l1 as [| i l1 IH]; intros [| j l2] Hlen H; simpl in *;
    try discriminate; [reflexivity |].
  apply orb_false_iff in H as [Hij Hrest].
  apply negb_false_iff, Z.eqb_eq in Hij. subst j.
  f_equal. apply IH; [lia | exact Hrest].
Qed.

Lemma map_ne_none_l (i : Z) (l : list Z) :
  existsb (fun b => b) (map (fun j => negb (Z.eqb i j)) l) = false ->
  Forall (fun j => i = j) l.
Proof.
  induction l as [| j l IH]; simpl; intros H; [constructor |].
  apply orb_false_iff in H as [Hij Hrest].
  apply negb_false_iff, Z.eqb_eq in Hij. constructor; auto.
Qed.

Lemma map_ne_none_r (j : Z) (l : list Z) :
  existsb (fun b => b) (map (fun i => negb (Z.eqb i j)) l) = false ->
  Forall (fun i => i = j) l.
Proof.
  induction l as [| i l IH]; simpl; intros H; [constructor |].
  apply orb_false_iff in H as [Hij Hrest].
  apply negb_false_iff, Z.eqb_eq in Hij. constructor; auto.
Qed.

Lemma obstime_ne_none (t1 t2 : Time) (ne : nd bool) :
  obstime_ne (Some t1) (Some t2) = Ok ne -> np_any ne = false ->
  instants_match t1 t2.
Proof.
  unfold obstime_ne, np_any.
  destruct t1 as [i | l1], t2 as [j | l2]; simpl.
  - intros [= <-]. simpl. rewrite orb_false_r.
    intros H. now apply negb_false_iff, Z.eqb_eq in H.
  - intros [= <-]. simpl. apply map_ne_none_l.
  - intros [= <-]. simpl. apply map_ne_none_r.
  - destruct (Nat.eqb (List.length l1) (List.length l2)) eqn:Hlen.
    + intros [= <-]. simpl. intros H. left.
      apply zip_with_ne_none; [now apply Nat.eqb_eq | exact H].
    + destruct l1 as [| i [| i' l1]].
      * destruct l2 as [| j [| j' l2]]; try discriminate.
        intros [= <-]. simpl. intros _. right. right.
        exists j. split; [reflexivity | constructor].
      * intros [= <-]. simpl. intros H. right. left.
        exists i. split; [reflexivity | now apply map_ne_none_l].
      * destruct l2 as [| j [| j' l2]]; try discriminate.
        intros [= <-]. simpl. intros H. right. right.
        exists j. split; [reflexivity |].
        now apply (map_ne_none_r j (i :: i' :: l1)).
Qed.

Lemma obstime_guard_passes (dest src : option Time) :
  obstime_guard dest src = Ok false ->
  exists t1 t2, dest = Some t1 /\ src = Some t2 /\ instants_match t1 t2.
Proof.
  unfold obstime_guard. destruct dest as [t1 |]; [| discriminate].
  destruct src as [t2 |]; [| simpl; discriminate].
  destruct (obstime_ne (Some t1) (Some t2)) as [ne |] eqn:Hne; simpl;
    [| discriminate].
  intros [= Hany]. exists t1, t2. repeat split.
  eapply obstime_ne_none; eassumption.
Qed.

Lemma obstime_guard_error (dest src : option Time) :
  (forall b, obstime_guard dest src <> Ok b) ->
  exists msg, obstime_guard dest src = Raise (ValueError msg).
Proof.
  unfold obstime_guard. destruct dest as [t1 |]; [| intros H; now destruct (H true)].
  destruct src as [t2 |]; simpl; [| intros H; now destruct (H true)].
  destruct t1 as [i | l1], t2 as [j | l2]; simpl;
    try (intros H; exfalso; eapply H; reflexivity).
  destruct (Nat.eqb (List.length l1) (List.length l2));
    [intros H; exfalso; eapply H; reflexivity |].
  destruct l1 as [| i [| i' l1]], l2 as [| j [| j' l2]]; simpl;
    try (intros H; exfalso; eapply H; reflexivity); eauto.
Qed.

Lemma zip_with_ne_refl (l : list Z) :
  existsb (fun b => b) (zip_with (fun i j => negb (Z.eqb i j)) l l) = false.
Proof.
  induction l as [| i l IH]; simpl; [reflexivity |].
  now rewrite Z.eqb_refl, IH.
Qed.

Lemma zip_with_eq_refl (l : list Z) :
  forallb (fun b => b) (zip_with Z.eqb l l) = true.
Proof.
  induction l as [| i l IH]; simpl; [reflexivity |].
  now rewrite Z.eqb_refl, IH.
Qed.

Lemma obstime_guard_same (t : Time) :
  obstime_guard (Some t) (Some t) = Ok false.
Proof.
  unfold obstime_guard, obstime_ne, np_any. destruct t as [i | l]; simpl.
  - now rewrite Z.eqb_refl.
  - rewrite Nat.eqb_refl. simpl. now rewrite zip_with_ne_refl.
Qed.

Lemma obstime_eq_same (t : option Time) :
  exists eq, obstime_eq t t = Ok eq /\ np_all eq = true.
Proof.
  unfold obstime_eq, np_all. destruct t as [[i | l] |]; simpl.
  - eexists. split; [reflexivity |]. simpl. now rewrite Z.eqb_refl.
  - rewrite Nat.eqb_refl. eexists. split; [reflexivity |]. simpl.
    apply zip_with_eq_refl.
  - eexists. split; reflexivity.
Qed.

Lemma py_eq_refl (obs : Observer) : py_eq obs obs = true.
Proof.
  destruct obs as [s | o]; simpl; [apply String.eqb_refl | apply Nat.eqb_refl].
Qed.

(** Without [string_ok] the comparison of observers answers only for two
    frame objects. *)
Lemma _observers_are_equal_answers (obs_1 obs_2 : Observer) (b : bool) :
  _observers_are_equal obs_1 obs_2 false = Ok b ->
  is_frame obs_1 = true /\ is_frame obs_2 = true.
Proof.
  unfold _observers_are_equal. simpl.
  destruct (is_frame obs_1), (is_frame obs_2); simpl; try discriminate.
  intros _. split; reflexivity.
Qed.

Lemma _observers_are_equal_not_frames (obs_1 obs_2 : Observer) :
  is_frame obs_1 && is_frame obs_2 = false ->
  _observers_are_equal obs_1 obs_2 false =
  Raise (ValueError "To compare two observers, both must be instances of BaseCoordinateFrame. Cannot compare two observers {} and {}.").
Proof.
  unfold _observers_are_equal. simpl. intros ->. reflexivity.
Qed.

(** ** Stonyhurst and Carrington *)

(** C7.  [hgs_to_hgc] and [hgc_to_hgs] raise (a [ValueError]) whenever the
    destination or the source obstime is [None], and whenever both are set
    but do not hold matching instants; no point is produced. *)
Theorem obstime_mismatch_raises (L0 : Z -> R) (wrap_angle : FrameClass -> R)
    (coord frame : Frame) :
  (obstime frame = None \/ obstime coord = None \/
   exists t_dest t_src,
     obstime frame = Some t_dest /\ obstime coord = Some t_src /\
     ~ instants_match t_dest t_src) ->
  (exists msg, hgs_to_hgc L0 wrap_angle coord frame = Raise (ValueError msg)) /\
  (exists msg, hgc_to_hgs L0 wrap_angle coord frame = Raise (ValueError msg)).
Proof.
  intros H.
  assert (Hguard : obstime_guard (obstime frame) (obstime coord) = Ok true \/
                   exists msg, obstime_guard (obstime frame) (obstime coord)
                               = Raise (ValueError msg)).
  { destruct (obstime_guard (obstime frame) (obstime coord)) as [[|] | e] eqn:Hg.
    - now left.
    - exfalso. apply obstime_guard_passes in Hg as (t1 & t2 & H1 & H2 & Hm).
      destruct H as [H | [H | (t1' & t2' & H1' & H2' & Hn)]]; congruence.
    - right. rewrite <- Hg. apply obstime_guard_error.
      intros b. congruence. }
  unfold hgs_to_hgc, hgc_to_hgs.
  change (match obstime frame with
          | Some t => ne <- obstime_ne (Some t) (obstime coord) ;; Ok (np_any ne)
          | None => Ok true
          end) with (obstime_guard (obstime frame) (obstime coord)).
  destruct Hguard as [-> | [msg ->]]; simpl; eauto.
Qed.

(** C2.  With the same obstime [t] on the coordinate and on the destination
    frame, [hgs_to_hgc] adds the Carrington offset [L0 t] (degrees) to the
    longitude and [hgc_to_hgs] subtracts it; latitude and distance are the
    ones of the coordinate.  The new longitude is held as a [Longitude] of
    the destination frame: for a scalar longitude in degrees at a scalar
    instant it is [l + L0 i], respectively [l - L0 i], shown in the turn
    that ends at the wrap angle [w] of the frame, that is, less a whole
    number of turns, and as it is when it lies between [w - 360] and [w]. *)
Theorem carrington_longitude_shift (L0 : Z -> R) (wrap_angle : FrameClass -> R)
    (coord frame : Frame) (t : Time) (lon lat distance : Quantity) :
  obstime coord = Some t ->
  obstime frame = Some t ->
  spherical coord = Ok (lon, lat, distance) ->
  let w := wrap_angle (frame_class frame) in
  hgs_to_hgc L0 wrap_angle coord frame =
    (c_lon <- qadd lon (mkQ (nd_map L0 t) deg) ;;
     c_lon <- Longitude w c_lon ;;
     Ok (mkFrame (frame_class frame) (Some t) None
           (Some (SphericalRepresentation c_lon lat distance)))) /\
  hgc_to_hgs L0 wrap_angle coord frame =
    (s_lon <- qsub lon (mkQ (nd_map L0 t) deg) ;;
     s_lon <- Longitude w s_lon ;;
     Ok (realize_frame frame (Some (SphericalRepresentation s_lon lat distance)))) /\
  (forall l i, lon = qty l deg -> t = Scalar i ->
     (c_lon <- qadd lon (mkQ (nd_map L0 t) deg) ;; Longitude w c_lon)
     = Ok (qty (wrap_at w (l + L0 i)) deg) /\
     (s_lon <- qsub lon (mkQ (nd_map L0 t) deg) ;; Longitude w s_lon)
     = Ok (qty (wrap_at w (l - L0 i)) deg)) /\
  (forall x,
     (exists k : Z, wrap_at w x = x - IZR k * 360) /\
     w - 360 <= wrap_at w x < w /\
     (w - 360 <= x < w -> wrap_at w x = x)).
Proof.
  intros Hc Hf Hsph w.
  pose proof deg_scale_nonzero as Hdeg.
  split; [| split; [| split]].
  - unfold hgs_to_hgc. rewrite Hf, Hc.
    change (ne <- obstime_ne (Some t) (Some t) ;; Ok (np_any ne))
      with (obstime_guard (Some t) (Some t)).
    rewrite obstime_guard_same. cbn [bind]. rewrite Hsph.
    unfold _carrington_offset. cbn [bind].
    rewrite to_own_unit by exact Hdeg. cbn [bind].
    destruct (qadd lon (mkQ (nd_map L0 t) deg)) as [c_lon | e];
      [| reflexivity].
    cbn [bind]. unfold realize_spherical. cbn [frame_class]. fold w.
    destruct (Longitude w c_lon); reflexivity.
  - unfold hgc_to_hgs. rewrite Hf, Hc.
    change (ne <- obstime_ne (Some t) (Some t) ;; Ok (np_any ne))
      with (obstime_guard (Some t) (Some t)).
    rewrite obstime_guard_same. cbn [bind]. rewrite Hsph.
    unfold _carrington_offset. cbn [bind].
    rewrite to_own_unit by exact Hdeg. cbn [bind].
    destruct (qsub lon (mkQ (nd_map L0 t) deg)) as [s_lon | e];
      [| reflexivity].
    cbn [bind]. unfold realize_spherical. fold w.
    destruct (Longitude w s_lon); reflexivity.
  - intros l i -> ->. unfold qadd, qsub, qty. cbn [unit value nd_map].
    rewrite to_own_unit by exact Hdeg. cbn [bind value broadcast2].
    split; apply Longitude_degrees_scalar.
  - intros x. split; [apply wrap_at_turns | split].
    + apply wrap_at_range.
    + apply wrap_at_id.
Qed.

(** ** Heliocentric to Stonyhurst: the observer that is tested *)

(** C5, amended.  [hcc_to_hgs] tests the observer of the coordinate it is
    given, not one of the destination frame: it raises [ConvertError] when
    that observer is a label, raises whenever it is not geometric, and
    returns a point only when it is geometric. *)
Theorem hcc_to_hgs_requires_source_observer (wrap_angle : FrameClass -> R)
    (helioccoord heliogframe : Frame) :
  (forall name, observer helioccoord = Some (ObserverLabel name) ->
     exists msg,
       hcc_to_hgs wrap_angle helioccoord heliogframe
       = Raise (ConvertError msg)) /\
  (~ geometric (observer helioccoord) ->
     raises (hcc_to_hgs wrap_angle helioccoord heliogframe)) /\
  (returns (hcc_to_hgs wrap_angle helioccoord heliogframe) ->
     geometric (observer helioccoord)).
Proof.
  unfold hcc_to_hgs, get_observer, geometric, raises, returns.
  destruct (observer helioccoord) as [[name | o] |]; cbn [bind is_frame negb].
  - split; [eauto | split].
    + intros _. eexists. split; [reflexivity | discriminate].
    + intros [a Ha]. discriminate.
  - split; [intros name [=] | split]; [| eauto].
    intros Hn. exfalso. apply Hn. eauto.
  - split; [intros name [=] | split].
    + intros _. eexists. split; [reflexivity | discriminate].
    + intros [a Ha]. discriminate.
Qed.

(** ** Helioprojective to Helioprojective: observers that are labels *)

(** C6, behaviour of the code.  When one of the two observers is a label,
    [hpc_to_hpc] returns the data unchanged if the observers are [==], and
    otherwise the comparison of line 261 reads [.lat] of a string and raises
    [AttributeError]: the [ConvertError] of lines 266-271 is never raised. *)
Theorem hpc_to_hpc_label_observer (transform_to : Frame -> Frame -> result Frame)
    (heliopcoord heliopframe : Frame) (obs_from obs_to : Observer) :
  observer heliopcoord = Some obs_from ->
  observer heliopframe = Some obs_to ->
  is_frame obs_from && is_frame obs_to = false ->
  hpc_to_hpc transform_to heliopcoord heliopframe =
  if py_eq obs_from obs_to
  then Ok (realize_frame heliopframe (data heliopcoord))
  else Raise (AttributeError "lat").
Proof.
  intros Hfrom Hto Hlabel.
  unfold hpc_to_hpc, get_observer. rewrite Hfrom, Hto. cbn [bind].
  destruct (py_eq obs_from obs_to); [reflexivity |].
  destruct obs_from as [s1 | o1]; [reflexivity |].
  destruct obs_to as [s2 | o2]; [reflexivity | discriminate].
Qed.

(** ** Helioprojective to Heliocentric: the unreachable test *)

(** C10.  In [hpc_to_hcc] the comparison of the observers (called without
    [string_ok]) raises its [ValueError] as soon as one of the two observers
    is not a frame object, two equal labels included; hence the observer
    test of lines 155-158 never fires: for every input and every behaviour
    of the collaborators, [hpc_to_hcc] is the function without that test. *)
Theorem hpc_to_hcc_observer_test_unreachable
    (calculate_distance : Frame -> result Frame)
    (transform_to : Frame -> Frame -> result Frame)
    (heliopcoord heliocframe : Frame) :
  (forall obs_p obs_c,
     observer heliopcoord = Some obs_p ->
     observer heliocframe = Some obs_c ->
     is_frame obs_p && is_frame obs_c = false ->
     hpc_to_hcc calculate_distance transform_to heliopcoord heliocframe =
     Raise (ValueError "To compare two observers, both must be instances of BaseCoordinateFrame. Cannot compare two observers {} and {}.")) /\
  hpc_to_hcc calculate_distance transform_to heliopcoord heliocframe =
  hpc_to_hcc_without_observer_test calculate_distance transform_to
    heliopcoord heliocframe.
Proof.
  split.
  - intros obs_p obs_c Hp Hc Hlabel.
    unfold hpc_to_hcc, get_observer. rewrite Hp, Hc. cbn [bind].
    now rewrite _observers_are_equal_not_frames.
  - unfold hpc_to_hcc, hpc_to_hcc_without_observer_test, get_observer.
    destruct (observer heliopcoord) as [obs_p |]; [| reflexivity].
    destruct (observer heliocframe) as [obs_c |]; [| reflexivity].
    cbn [bind].
    destruct (_observers_are_equal obs_p obs_c false) as [equal | e] eqn:Heq;
      [| reflexivity].
    apply _observers_are_equal_answers in Heq as [Hp _].
    cbn [bind]. destruct equal; cbn [negb]; [| reflexivity].
    now rewrite Hp.
Qed.

(** ** Transformations within one frame class *)

(** C9.  When the obstimes of the coordinate and of the destination frame
    are the same, [hgs_to_hgs] and [hgc_to_hgc] return the data of the
    coordinate, unchanged, in the destination frame; so does [hcc_to_hcc]
    when the comparison of the observers (labels allowed) answers [True],
    which it does for an observer compared with itself. *)
Theorem same_frame_returns_data (transform_to : Frame -> Frame -> result Frame) :
  (forall from_coo to_frame rep,
     obstime from_coo = obstime to_frame ->
     data from_coo = Some rep ->
     hgs_to_hgs transform_to from_coo to_frame
       = Ok (realize_frame to_frame (Some rep)) /\
     hgc_to_hgc transform_to from_coo to_frame
       = Ok (realize_frame to_frame (Some rep))) /\
  (forall hcccoord hccframe obs_from obs_to,
     observer hcccoord = Some obs_from ->
     observer hccframe = Some obs_to ->
     _observers_are_equal obs_from obs_to true = Ok true ->
     hcc_to_hcc transform_to hcccoord hccframe
       = Ok (realize_frame hccframe (data hcccoord))) /\
  (forall obs, _observers_are_equal obs obs true = Ok true) /\
  (forall frame rep,
     data (realize_frame frame rep) = rep /\
     frame_class (realize_frame frame rep) = frame_class frame /\
     obstime (realize_frame frame rep) = obstime frame /\
     observer (realize_frame frame rep) = observer frame).
Proof.
  split; [| split; [| split]].
  - intros from_coo to_frame rep Ht Hd.
    unfold hgs_to_hgs, hgc_to_hgc, get_data. rewrite <- Ht, Hd.
    destruct (obstime_eq_same (obstime from_coo)) as (eq & -> & Hall).
    cbn [bind]. rewrite Hall. split; reflexivity.
  - intros hcccoord hccframe obs_from obs_to Hfrom Hto Heq.
    unfold hcc_to_hcc, get_observer. rewrite Hfrom, Hto. cbn [bind].
    now rewrite Heq.
  - intros obs. unfold _observers_are_equal. now rewrite py_eq_refl.
  - intros frame rep. repeat split.
Qed.

(** ** Stonyhurst to Heliocentric: the unit sphere *)

Lemma is_one_true (u : Unit) : is_one u = true -> u = one.
Proof.
  unfold is_one, same_dims. destruct u as [s l a]. cbn [scale ldim adim one].
  intros H. apply andb_true_iff in H as [Hdims Hscale].
  apply andb_true_iff in Hdims as [Hl Ha].
  apply Z.eqb_eq in Hl, Ha.
  destruct (Req_dec_T s 1) as [Hs | Hs]; [| discriminate].
  now subst.
Qed.

Lemma ones_times (c : R) (v : nd R) :
  broadcast2 Rmult (ones_like v) (Scalar c) = Ok (nd_map (fun _ => c) v).
Proof.
  destruct v as [x | l]; cbn [ones_like nd_map broadcast2].
  - do 2 f_equal. ring.
  - do 2 f_equal. rewrite map_map. apply map_ext. intros x. ring.
Qed.

Lemma unit_sphere_radius (RSUN_METERS : R) (r : Quantity) :
  is_one (unit r) = true ->
  allclose r (qty 1 one) = Ok true ->
  hgs_to_hcc_radius RSUN_METERS r
  = Ok (mkQ (nd_map (fun _ => RSUN_METERS) (value r)) m).
Proof.
  intros Hone Hclose. unfold hgs_to_hcc_radius.
  rewrite Hone. fold (qty 1 one). rewrite Hclose. cbn [bind].
  unfold qmul. cbn [value unit]. rewrite ones_times. cbn [bind].
  rewrite (is_one_true _ Hone). do 2 f_equal.
  unfold unit_mul, one, m. cbn [scale ldim adim]. f_equal. ring.
Qed.

Lemma given_radius (RSUN_METERS : R) (r : Quantity) :
  is_one (unit r) = false \/ allclose r (qty 1 one) = Ok false ->
  hgs_to_hcc_radius RSUN_METERS r = Ok r.
Proof.
  unfold hgs_to_hcc_radius. fold (qty 1 one).
  intros [Hunit | Hfar].
  - now rewrite Hunit.
  - rewrite Hfar. now destruct (is_one (unit r)).
Qed.

Lemma cartesian_point_eq (f : Frame) (u1 u2 u3 : Unit) (a b c a' b' c' : R) :
  a = a' -> b = b' -> c = c' ->
  Ok (realize_frame f
        (Some (CartesianRepresentation (qty a u1) (qty b u2) (qty c u3))))
  = Ok (realize_frame f
          (Some (CartesianRepresentation (qty a' u1) (qty b' u2) (qty c' u3)))).
Proof. now intros -> -> ->. Qed.

(** Lines 222-250 on one point: longitude, latitude and the observer's
    [l0], [b0] in degrees, the radial distance [r] in metres. *)
Lemma hgs_to_hcc_cartesian_metres (heliocframe : Frame) (o : ObserverFrame)
    (hglon hglat r l0 b0 : R) :
  observer heliocframe = Some (ObserverCoord o) ->
  obs_lon o = qty l0 deg -> obs_lat o = qty b0 deg ->
  let lon := (hglon - l0) * (PI / 180) in
  let lat := hglat * (PI / 180) in
  let b := b0 * (PI / 180) in
  hgs_to_hcc_cartesian (qty hglon deg) (qty hglat deg) (qty r m) heliocframe =
  Ok (realize_frame heliocframe
        (Some (CartesianRepresentation
                 (qty (r * cos lat * sin lon / 1000) km)
                 (qty (r * (sin lat * cos b - cos lat * cos lon * sin b) / 1000) km)
                 (qty (r * (sin lat * sin b + cos lat * cos lon * cos b) / 1000) km)))).
Proof.
  intros Hobs Hlon Hlat lon lat b.
  destruct heliocframe as [cls t ob d]. cbn [observer] in Hobs. subst ob.
  destruct o as [id la lo ra]. cbn [obs_lon obs_lat] in Hlon, Hlat. subst la lo.
  run.
  replace (hglat * (PI / 180 / 1) * (1 / 1)) with lat by (unfold lat; field).
  replace (b0 * (PI / 180 / 1) * (1 / 1)) with b by (unfold b; field).
  replace ((hglon * (PI / 180 / 1) - l0 * (PI / 180 / 1) * (1 / 1)) * (1 / 1))
    with lon by (unfold lon; field).
  apply (cartesian_point_eq
           (mkFrame cls t (Some (ObserverCoord
                                   (mkObserver id (qty b0 deg) (qty l0 deg) ra))) d));
    unfold lon, lat, b; field.
Qed.

(** A dimensionless distance that is used as given leaves the components
    dimensionless, and their conversion to km raises. *)
Lemma hgs_to_hcc_cartesian_dimensionless (heliocframe : Frame) (o : ObserverFrame)
    (hglon hglat r l0 b0 : R) :
  observer heliocframe = Some (ObserverCoord o) ->
  obs_lon o = qty l0 deg -> obs_lat o = qty b0 deg ->
  hgs_to_hcc_cartesian (qty hglon deg) (qty hglat deg) (qty r one) heliocframe
  = Raise UnitsError.
Proof.
  intros Hobs Hlon Hlat.
  destruct heliocframe as [cls t ob d]. cbn [observer] in Hobs. subst ob.
  destruct o as [id la lo ra]. cbn [obs_lon obs_lat] in Hlon, Hlat. subst la lo.
  reflexivity.
Qed.

(** C8.  In [hgs_to_hcc] a radial distance whose unit is the dimensionless
    unit and whose value is close to 1 is replaced, before the Cartesian
    components are computed, by one solar radius in metres exactly; a
    distance with any other unit, or a dimensionless one that is not close
    to 1, enters the computation as given.  For a scalar [v] "close to 1"
    reads [|v - 1| <= 1e-5]. *)
Theorem hgs_to_hcc_unit_sphere (RSUN_METERS : R)
    (heliogcoord heliocframe : Frame) (hglon hglat r : Quantity) :
  spherical heliogcoord = Ok (hglon, hglat, r) ->
  (is_one (unit r) = true -> allclose r (qty 1 one) = Ok true ->
     hgs_to_hcc RSUN_METERS heliogcoord heliocframe =
     hgs_to_hcc_cartesian hglon hglat
       (mkQ (nd_map (fun _ => RSUN_METERS) (value r)) m) heliocframe) /\
  (is_one (unit r) = false \/ allclose r (qty 1 one) = Ok false ->
     hgs_to_hcc RSUN_METERS heliogcoord heliocframe =
     hgs_to_hcc_cartesian hglon hglat r heliocframe) /\
  (forall v, r = qty v one ->
     (Rabs (v - 1) <= 1 / 100000 ->
        hgs_to_hcc_radius RSUN_METERS r = Ok (qty RSUN_METERS m)) /\
     (Rabs (v - 1) > 1 / 100000 ->
        hgs_to_hcc_radius RSUN_METERS r = Ok r)).
Proof.
  intros Hsph. split; [| split].
  - intros Hone Hclose. unfold hgs_to_hcc. rewrite Hsph. cbn [bind].
    now rewrite unit_sphere_radius.
  - intros Hgiven. unfold hgs_to_hcc. rewrite Hsph. cbn [bind].
    now rewrite given_radius.
  - intros v ->.
    assert (Hone : is_one (unit (qty v one)) = true).
    { unfold is_one, qty, one, same_dims. cbn.
      destruct (Req_dec_T 1 1) as [_ | Hn]; [reflexivity | now destruct Hn]. }
    assert (Hclose : allclose (qty v one) (qty 1 one)
                     = Ok (isclose (v * (1 / 1)) 1 && true)).
    { reflexivity. }
    unfold isclose, rtol in Hclose.
    replace (v * (1 / 1) - 1) with (v - 1) in Hclose by field.
    replace (1 / 100000 * Rabs 1) with (1 / 100000) in Hclose
      by (rewrite Rabs_R1; field).
    split; intros Hv.
    + rewrite (unit_sphere_radius RSUN_METERS _ Hone); [reflexivity |].
      rewrite Hclose.
      destruct (Rle_dec (Rabs (v - 1)) (1 / 100000)); [reflexivity | contradiction].
    + apply given_radius. right. rewrite Hclose.
      destruct (Rle_dec (Rabs (v - 1)) (1 / 100000)); [lra | reflexivity].
Qed.

(** ** Heliocentric to Helioprojective *)

Lemma spherical_point_eq (f : Frame) (u1 u2 u3 : Unit) (a b c a' b' c' : R) :
  a = a' -> b = b' -> c = c' ->
  Ok (realize_frame f
        (Some (SphericalRepresentation (qty a u1) (qty b u2) (qty c u3))))
  = Ok (realize_frame f
          (Some (SphericalRepresentation (qty a' u1) (qty b' u2) (qty c' u3)))).
Proof. now intros -> -> ->. Qed.

Lemma PI_nonzero : PI <> 0.
Proof. pose proof PI_RGT_0. lra. Qed.

Lemma sqrt_unit_scale : sqrt (1 * 1) = 1.
Proof. rewrite Rmult_1_r. apply sqrt_1. Qed.

(** The projection of lines 126-140 on one point given in metres, for an
    observer whose radius [Dv] is given in a length unit [u]. *)
Lemma hcc_to_hpc_projection_scalar (wrap_angle : FrameClass -> R)
    (helioccoord heliopframe : Frame)
    (o : ObserverFrame) (u : Unit) (x y z Dv : R) :
  data helioccoord
  = Some (CartesianRepresentation (qty x m) (qty y m) (qty z m)) ->
  observer helioccoord = Some (ObserverCoord o) ->
  obs_radius o = qty Dv u -> ldim u = 1%Z -> adim u = 0%Z -> scale u <> 0 ->
  let D := Dv * scale u in
  let distance := sqrt (x * x + y * y + (D - z) * (D - z)) in
  0 < x * x + y * y + (D - z) * (D - z) ->
  hcc_to_hpc_projection wrap_angle helioccoord heliopframe =
  Ok (realize_frame heliopframe
        (Some (SphericalRepresentation
                 (qty (wrap_at (wrap_angle (frame_class heliopframe))
                         (arctan2 x (D - z) * (180 / PI))) deg)
                 (qty (asin (y / distance) * (180 / PI)) deg)
                 (qty (distance / 1000) km)))).
Proof.
  intros Hdata Hobs Hrad Hl Ha Hs D distance Hpos.
  destruct helioccoord as [cls t ob d]. cbn [data observer] in Hdata, Hobs.
  subst ob d. destruct o as [id la lo ra]. cbn [obs_radius] in Hrad. subst ra.
  destruct u as [s l a]. cbn [ldim adim scale] in *. subst l a.
  destruct heliopframe as [cls' t' ob' d'].
  run.
  pose proof PI_nonzero as HPI.
  assert (Hsum : x * (1 / 1) * (x * (1 / 1)) +
                 y * (1 / 1) * (y * (1 / 1)) * (1 * 1 / (1 * 1)) +
                 (Dv - z * (1 / 1) * (1 / s)) * (Dv - z * (1 / 1) * (1 / s)) *
                 (s * s / (1 * 1))
                 = x * x + y * y + (D - z) * (D - z))
    by (unfold D; field; exact Hs).
  rewrite Hsum, sqrt_unit_scale.
  divisor_nonzero Hzero.
  { apply sqrt_lt_R0 in Hpos. lra. }
  rewrite wrap_value_degrees.
  apply (spherical_point_eq (mkFrame cls' t' ob' d')).
  - f_equal. f_equal; [f_equal |]; unfold D; field; assumption.
  - f_equal; [f_equal |]; [| field; assumption].
    unfold Rdiv. rewrite Rinv_1, !Rmult_1_r. reflexivity.
  - unfold Rdiv. rewrite Rmult_1_l. reflexivity.
Qed.

(** C1.  Let [reexpressed] be the Heliocentric coordinate the projection
    works on: the given coordinate when the observers compare equal, else
    the one [transform_to] returns for a Heliocentric frame with the
    observer of the destination.  With Cartesian components [(x, y, z)] in
    metres, an observer at radial distance [D] (in metres) and a point that
    is not at the observer, [hcc_to_hpc] returns in the destination frame
    the spherical point of longitude [atan2 (x, D - z)] and latitude
    [asin (y / distance)], both in degrees, at
    [distance = sqrt (x^2 + y^2 + (D - z)^2)] (given in km).  The longitude
    is held as a [Longitude] of the frame: it is shown in the turn that
    ends at the wrap angle [w] of the frame, that is, less a whole number
    of turns, and is [atan2 (x, D - z)] itself when that lies between
    [w - 360] and [w]. *)
Theorem hcc_to_hpc_formula (transform_to : Frame -> Frame -> result Frame)
    (wrap_angle : FrameClass -> R)
    (helioccoord heliopframe reexpressed : Frame)
    (obs_c obs_p : Observer) (o : ObserverFrame) (u : Unit) (x y z Dv : R) :
  observer helioccoord = Some obs_c ->
  observer heliopframe = Some obs_p ->
  (_observers_are_equal obs_c obs_p false = Ok true /\
   reexpressed = helioccoord) \/
  (_observers_are_equal obs_c obs_p false = Ok false /\
   transform_to helioccoord (mkFrame Heliocentric None (Some obs_p) None)
   = Ok reexpressed) ->
  data reexpressed
  = Some (CartesianRepresentation (qty x m) (qty y m) (qty z m)) ->
  observer reexpressed = Some (ObserverCoord o) ->
  obs_radius o = qty Dv u -> ldim u = 1%Z -> adim u = 0%Z -> scale u <> 0 ->
  let D := Dv * scale u in
  let distance := sqrt (x * x + y * y + (D - z) * (D - z)) in
  let lon := arctan2 x (D - z) * (180 / PI) in
  let w := wrap_angle (frame_class heliopframe) in
  0 < x * x + y * y + (D - z) * (D - z) ->
  hcc_to_hpc transform_to wrap_angle helioccoord heliopframe =
  Ok (realize_frame heliopframe
        (Some (SphericalRepresentation
                 (qty (wrap_at w lon) deg)
                 (qty (asin (y / distance) * (180 / PI)) deg)
                 (qty (distance / 1000) km)))) /\
  (exists k : Z, wrap_at w lon = lon - IZR k * 360) /\
  (w - 360 <= lon < w -> wrap_at w lon = lon).
Proof.
  intros Hc Hp Hre Hdata Hobs Hrad Hl Ha Hs D distance lon w Hpos.
  split; [| split; [apply wrap_at_turns | apply wrap_at_id]].
  unfold hcc_to_hpc, get_observer. rewrite Hc, Hp. cbn [bind].
  destruct Hre as [[-> ->] | [-> ->]]; cbn [bind negb];
    now apply hcc_to_hpc_projection_scalar with (o := o).
Qed.

(** ** The affine transformation between HCRS and Stonyhurst *)

Section MatrixFacts.

Lemma matrix_product_assoc (a b c : mat3) :
  matrix_product (matrix_product a b) c = matrix_product a (matrix_product b c).
Proof. destruct a, b, c. unfold matrix_product. cbn. f_equal; ring. Qed.

Lemma matrix_transpose_product (a b : mat3) :
  matrix_transpose (matrix_product a b)
  = matrix_product (matrix_transpose b) (matrix_transpose a).
Proof.
  destruct a, b. unfold matrix_product, matrix_transpose. cbn. f_equal; ring.
Qed.

Lemma matrix_product_identity_l (a : mat3) : matrix_product identity a = a.
Proof. destruct a. unfold matrix_product, identity. cbn. f_equal; ring. Qed.

Lemma orthonormal_product (a b : mat3) :
  orthonormal a -> orthonormal b -> orthonormal (matrix_product a b).
Proof.
  unfold orthonormal. intros Ha Hb.
  rewrite matrix_transpose_product, matrix_product_assoc.
  rewrite <- (matrix_product_assoc (matrix_transpose a) a b).
  now rewrite Ha, matrix_product_identity_l.
Qed.

Lemma transform_product (a b : mat3) (v : vec3) :
  transform (matrix_product a b) v = transform a (transform b v).
Proof. destruct a, b, v. unfold transform, matrix_product. cbn. f_equal; ring. Qed.

Lemma transform_identity (v : vec3) : transform identity v = v.
Proof. destruct v. unfold transform, identity. cbn. f_equal; ring. Qed.

Lemma transform_vneg (a : mat3) (v : vec3) :
  transform a (vneg v) = vneg (transform a v).
Proof. destruct a, v. unfold transform, vneg. cbn. f_equal; ring. Qed.

Lemma transform_vadd (a : mat3) (v w : vec3) :
  transform a (vadd v w) = vadd (transform a v) (transform a w).
Proof. destruct a, v, w. unfold transform, vadd. cbn. f_equal; ring. Qed.

Lemma vadd_cancel (v w : vec3) : vadd (vadd v w) (vneg w) = v.
Proof. destruct v, w. unfold vadd, vneg. cbn. f_equal; ring. Qed.



End MatrixFacts.

Section AffineTransform.

Variable get_body_barycentric : string -> Z -> vec3.
Variable rotation_matrix : R -> vec3 -> mat3.

(** The contract of Astropy's [rotation_matrix]. *)
Hypothesis rotation_matrix_orthonormal :
  forall angle axis, orthonormal (rotation_matrix angle axis).

Lemma total_matrix_orthonormal (vect : vec3) :
  orthonormal
    (matrix_product
       (_make_rotation_matrix_from_reprs rotation_matrix vect (mkVec 1 0 0))
       (_SUN_DETILT_MATRIX rotation_matrix)).
Proof.
  apply orthonormal_product; apply rotation_matrix_orthonormal.
Qed.

Lemma bind_pair_fst {A B C : Type} (c : result C) (f : C -> result B)
    (a M : A) (off : B) :
  (x <- c ;; y <- f x ;; Ok (a, y)) = Ok (M, off) -> M = a.
Proof.
  destruct c as [x |]; cbn [bind]; [| discriminate].
  destruct (f x); cbn [bind]; [| discriminate].
  now intros [= -> _].
Qed.

Lemma hcrs_to_hgs_matrix (hcrscoord hgsframe : Frame) (M : nd mat3) (off : nd vec3) :
  hcrs_to_hgs get_body_barycentric rotation_matrix hcrscoord hgsframe
  = Ok (M, off) ->
  exists t vects,
    obstime hgsframe = Some t /\
    isscalar vects = isscalar t /\
    M = nd_map (fun vect =>
                  matrix_product
                    (_make_rotation_matrix_from_reprs rotation_matrix vect
                       (mkVec 1 0 0))
                    (_SUN_DETILT_MATRIX rotation_matrix)) vects.
Proof.
  unfold hcrs_to_hgs. destruct (obstime hgsframe) as [t |]; [| discriminate].
  intros H. exists t.
  destruct (broadcast2 vsub (nd_map (get_body_barycentric "earth") t)
              (nd_map (get_body_barycentric "sun") t)) as [sun_earth |] eqn:Hse;
    [| discriminate].
  assert (Hshape : isscalar sun_earth = isscalar t).
  { destruct t as [i | l]; cbn in Hse.
    - injection Hse as <-. reflexivity.
    - destruct (Nat.eqb (List.length (map (get_body_barycentric "earth") l))
                  (List.length (map (get_body_barycentric "sun") l))).
      + injection Hse as <-. reflexivity.
      + destruct (map (get_body_barycentric "earth") l) as [| a [| a' la]],
                 (map (get_body_barycentric "sun") l) as [| b [| b' lb]];
          try discriminate; injection Hse as <-; reflexivity. }
  cbn [bind] in H.
  set (axis := fun v : vec3 => mkVec (vx v * 1) (vy v * 1) (vz v * 0)) in *.
  exists (nd_map axis (nd_map (transform (_SUN_DETILT_MATRIX rotation_matrix))
                         sun_earth)).
  split; [reflexivity |]. split.
  { rewrite <- Hshape. now destruct sun_earth. }
  destruct sun_earth as [v | l]; cbn [nd_map bind] in H |- *.
  - now apply bind_pair_fst in H.
  - unfold np_stack in H.
    destruct (map _ (map axis (map _ l))) as [| r rs] eqn:Hl;
      [discriminate |].
    cbn [bind nd_map] in H. apply bind_pair_fst in H. subst M.
    f_equal. rewrite <- Hl. now rewrite !map_map.
Qed.

(** With scalar obstimes on both sides [hcrs_to_hgs] returns. *)
Lemma hcrs_to_hgs_returns (hcrscoord hgsframe : Frame) (i j : Z) :
  obstime hgsframe = Some (Scalar i) ->
  obstime hcrscoord = Some (Scalar j) ->
  exists M off,
    hcrs_to_hgs get_body_barycentric rotation_matrix hcrscoord hgsframe
    = Ok (Scalar M, Scalar off).
Proof.
  intros Hi Hj. unfold hcrs_to_hgs. rewrite Hi, Hj.
  cbn [nd_map broadcast2 bind obstime_ne np_any elements existsb].
  destruct (negb (Z.eqb j i) || false); cbn [bind]; eauto.
Qed.

(** C4.  [hcrs_to_hgs] returns for scalar obstimes, and under the contract
    of [rotation_matrix] every matrix that it returns - the single one of a
    scalar obstime, each one of the stack of an array obstime - satisfies
    [transpose M * M = identity];
    [hgs_to_hcrs] calls [hcrs_to_hgs] with its two arguments swapped and
    returns the transposed matrices with the negated offset rotated by
    them, which for scalars is [(transpose M, - (transpose M * off))] and
    undoes [v |-> M * v + off]. *)
Theorem hcrs_hgs_affine_pair (hgs hcrs : Frame) :
  (forall i j, obstime hgs = Some (Scalar i) -> obstime hcrs = Some (Scalar j) ->
     exists M off,
       hcrs_to_hgs get_body_barycentric rotation_matrix hcrs hgs
       = Ok (Scalar M, Scalar off)) /\
  (forall M off,
     hcrs_to_hgs get_body_barycentric rotation_matrix hcrs hgs = Ok (M, off) ->
     Forall orthonormal (elements M) /\
     (forall t, obstime hgs = Some t -> isscalar M = isscalar t)) /\
  hgs_to_hcrs get_body_barycentric rotation_matrix hgs hcrs =
    ('(M, off) <- hcrs_to_hgs get_body_barycentric rotation_matrix hcrs hgs ;;
     reverse_offset <- broadcast2 transform (nd_map matrix_transpose M)
                         (nd_map vneg off) ;;
     Ok (nd_map matrix_transpose M, reverse_offset)) /\
  (forall M off,
     hcrs_to_hgs get_body_barycentric rotation_matrix hcrs hgs
     = Ok (Scalar M, Scalar off) ->
     hgs_to_hcrs get_body_barycentric rotation_matrix hgs hcrs
     = Ok (Scalar (matrix_transpose M),
           Scalar (vneg (transform (matrix_transpose M) off))) /\
     forall v,
       vadd (transform (matrix_transpose M) (vadd (transform M v) off))
            (vneg (transform (matrix_transpose M) off)) = v).
Proof.
  split; [| split; [| split]].
  - intros i j. apply hcrs_to_hgs_returns.
  - intros M off H.
    apply hcrs_to_hgs_matrix in H as (t & vects & Ht & Hshape & ->).
    split.
    + destruct vects as [v | l]; cbn [nd_map elements].
      * constructor; [apply total_matrix_orthonormal | constructor].
      * apply Forall_map, Forall_forall. intros v _.
        apply total_matrix_orthonormal.
    + intros t' Ht'. rewrite Ht in Ht'. injection Ht' as <-.
      rewrite <- Hshape. now destruct vects.
  - reflexivity.
  - intros M off H. split.
    + unfold hgs_to_hcrs. rewrite H. cbn [bind nd_map broadcast2].
      now rewrite transform_vneg.
    + intros v.
      apply hcrs_to_hgs_matrix in H as (t & vects & _ & _ & HM).
      assert (Horth : orthonormal M).
      { destruct vects as [w | l]; cbn [nd_map] in HM; [| discriminate].
        injection HM as ->. apply total_matrix_orthonormal. }
      rewrite transform_vadd, <- transform_product.
      unfold orthonormal in Horth. rewrite Horth, transform_identity.
      apply vadd_cancel.
Qed.



End AffineTransform.

(** ** The statements at sample inputs *)

Lemma isclose_refl (a : R) : isclose a a = true.
Proof.
  unfold isclose, rtol.
  destruct (Rle_dec (Rabs (a - a)) (1 / 100000 * Rabs a)) as [_ | Hn];
    [reflexivity |].
  exfalso. apply Hn. rewrite Rminus_diag, Rabs_R0.
  pose proof (Rabs_pos a). lra.
Qed.

Lemma allclose_scalar_refl (v : R) (u : Unit) :
  scale u <> 0 -> allclose (qty v u) (qty v u) = Ok true.
Proof.
  intros Hu. unfold allclose, qty. cbn [unit].
  rewrite to_own_unit by exact Hu. cbn [bind value broadcast2 np_all elements forallb].
  now rewrite isclose_refl.
Qed.

Lemma km_scale_nonzero : scale km <> 0.
Proof. simpl. lra. Qed.

Lemma earth_equals_earth :
  _observers_are_equal (ObserverCoord Sample.earth) (ObserverCoord Sample.earth)
    false = Ok true.
Proof.
  unfold _observers_are_equal, Sample.earth.
  cbn [andb is_frame negb attr_lat attr_lon attr_radius obs_lat obs_lon
       obs_radius bind].
  rewrite (allclose_scalar_refl 0 deg deg_scale_nonzero). cbn [bind negb].
  apply allclose_scalar_refl, km_scale_nonzero.
Qed.

Lemma z_rotation_orthonormal (angle : R) (axis : vec3) :
  orthonormal (Sample.z_rotation angle axis).
Proof.
  unfold orthonormal, Sample.z_rotation, matrix_product, matrix_transpose,
    identity. cbn.
  pose proof (sin2_cos2 angle) as H. unfold Rsqr in H.
  f_equal; try ring; lra.
Qed.

Lemma limb_off_observer :
  0 < 695700000 * 695700000 + 0 * 0
      + (150000000 * scale km - 0) * (150000000 * scale km - 0).
Proof. cbn [scale km]. lra. Qed.

(** C1 at the limb point: both observers are [earth], at 150e6 km. *)
Lemma hcc_to_hpc_formula_witness :
  let D := 150000000 * 1000 in
  let distance := sqrt (695700000 * 695700000 + 0 * 0 + (D - 0) * (D - 0)) in
  let lon := arctan2 695700000 (D - 0) * (180 / PI) in
  hcc_to_hpc Sample.no_graph Sample.wrap_angle Sample.hcc_limb
    Sample.hpc_frame_earth =
  Ok (realize_frame Sample.hpc_frame_earth
        (Some (SphericalRepresentation
                 (qty (wrap_at 180 lon) deg)
                 (qty (asin (0 / distance) * (180 / PI)) deg)
                 (qty (distance / 1000) km)))).
Proof.
  exact (proj1 (hcc_to_hpc_formula Sample.no_graph Sample.wrap_angle
                  Sample.hcc_limb Sample.hpc_frame_earth Sample.hcc_limb
                  (ObserverCoord Sample.earth) (ObserverCoord Sample.earth)
                  Sample.earth km 695700000 0 0 150000000
                  eq_refl eq_refl
                  (or_introl (conj earth_equals_earth eq_refl))
                  eq_refl eq_refl eq_refl eq_refl eq_refl km_scale_nonzero
                  limb_off_observer)).
Defined.

Lemma carrington_turn : 360 - 360 <= 10 + Sample.L0_linear 355 - IZR 1 * 360 < 360.
Proof. unfold Sample.L0_linear. lra. Qed.

(** C2 at instant 355 with [L0 i = i] degrees: longitude 10 becomes 365,
    which a Carrington frame shows as 5. *)
Lemma carrington_longitude_shift_witness :
  hgs_to_hgc Sample.L0_linear Sample.wrap_angle
    (Sample.hgs_point (Some (Scalar 355%Z)))
    (Sample.hgc_frame (Some (Scalar 355%Z)))
  = (c_lon <- qadd (qty 10 deg)
                (mkQ (nd_map Sample.L0_linear (Scalar 355%Z)) deg) ;;
     c_lon <- Longitude 360 c_lon ;;
     Ok (mkFrame HeliographicCarrington (Some (Scalar 355%Z)) None
           (Some (SphericalRepresentation c_lon (qty 20 deg) (qty 695700 km)))))
  /\ (c_lon <- qadd (qty 10 deg)
                 (mkQ (nd_map Sample.L0_linear (Scalar 355%Z)) deg) ;;
      Longitude 360 c_lon)
     = Ok (qty (wrap_at 360 (10 + Sample.L0_linear 355)) deg)
  /\ wrap_at 360 (10 + Sample.L0_linear 355)
     = 10 + Sample.L0_linear 355 - IZR 1 * 360.
Proof.
  pose proof (carrington_longitude_shift Sample.L0_linear Sample.wrap_angle
                (Sample.hgs_point (Some (Scalar 355%Z)))
                (Sample.hgc_frame (Some (Scalar 355%Z)))
                (Scalar 355%Z) (qty 10 deg) (qty 20 deg) (qty 695700 km)
                eq_refl eq_refl eq_refl) as (Hforward & _ & Hscalar & _).
  split; [exact Hforward | split].
  - exact (proj1 (Hscalar 10 355%Z eq_refl eq_refl)).
  - exact (wrap_at_unique 360 (10 + Sample.L0_linear 355) 1 carrington_turn).
Defined.

(** C7 at instants 1 and 2, and at a destination without obstime. *)
Lemma obstime_mismatch_raises_witness :
  ((exists msg,
      hgs_to_hgc Sample.L0_zero Sample.wrap_angle
        (Sample.hgs_point (Some (Scalar 1%Z)))
        (Sample.hgc_frame (Some (Scalar 2%Z))) = Raise (ValueError msg)) /\
   (exists msg,
      hgc_to_hgs Sample.L0_zero Sample.wrap_angle
        (Sample.hgs_point (Some (Scalar 1%Z)))
        (Sample.hgc_frame (Some (Scalar 2%Z))) = Raise (ValueError msg))).
Proof.
  apply (obstime_mismatch_raises Sample.L0_zero Sample.wrap_angle
           (Sample.hgs_point (Some (Scalar 1%Z)))
           (Sample.hgc_frame (Some (Scalar 2%Z)))).
  right. right. exists (Scalar 2%Z), (Scalar 1%Z).
  split; [reflexivity | split; [reflexivity |]].
  simpl. discriminate.
Defined.

(** C5 as stated fails: a Stonyhurst frame carries no observer, or may be
    given a label, and [hcc_to_hgs] still returns a point, because it
    tests the observer of the Heliocentric coordinate. *)
Lemma hcc_to_hgs_destination_observer_counterexample :
  (~ geometric (observer (Sample.hgs_frame None)) /\
   forall wrap_angle,
     returns (hcc_to_hgs wrap_angle Sample.hcc_limb (Sample.hgs_frame None))) /\
  (~ geometric (observer Sample.hgs_frame_label_observer) /\
   forall wrap_angle,
     returns (hcc_to_hgs wrap_angle Sample.hcc_limb
                Sample.hgs_frame_label_observer)) /\
  forall wrap_angle,
    ~ (forall helioccoord heliogframe,
         ~ geometric (observer heliogframe) ->
         raises (hcc_to_hgs wrap_angle helioccoord heliogframe)).
Proof.
  assert (Hnone : ~ geometric (observer (Sample.hgs_frame None)))
    by (intros [o Ho]; discriminate).
  assert (Hlabel : ~ geometric (observer Sample.hgs_frame_label_observer))
    by (intros [o Ho]; discriminate).
  assert (Hlimb : forall d : R,
            d = 695700000 * (1 / 1) * (695700000 * (1 / 1)) +
                0 * (1 / 1) * (0 * (1 / 1)) * (1 * 1 / (1 * 1)) +
                0 * (1 / 1) * (0 * (1 / 1)) * (1 * 1 / (1 * 1)) ->
            sqrt d <> 0).
  { intros d ->. apply Rgt_not_eq, sqrt_lt_R0. lra. }
  split; [| split].
  - split; [exact Hnone |]. intros wrap_angle. eexists. run.
    divisor_nonzero Hzero; [exact (Hlimb _ eq_refl Hzero) |]. reflexivity.
  - split; [exact Hlabel |]. intros wrap_angle. eexists. run.
    divisor_nonzero Hzero; [exact (Hlimb _ eq_refl Hzero) |]. reflexivity.
  - intros wrap_angle Hclaim.
    destruct (Hclaim Sample.hcc_limb (Sample.hgs_frame None) Hnone)
      as (e & He & _).
    revert He. run.
    divisor_nonzero Hzero; [exact (Hlimb _ eq_refl Hzero) |]. discriminate.
Qed.

(** C5, amended, at a coordinate whose observer is a label. *)
Lemma hcc_to_hgs_requires_source_observer_witness :
  exists msg,
    hcc_to_hgs Sample.wrap_angle Sample.hcc_label (Sample.hgs_frame None)
    = Raise (ConvertError msg).
Proof.
  exact (proj1 (hcc_to_hgs_requires_source_observer Sample.wrap_angle
                  Sample.hcc_label (Sample.hgs_frame None)) "earth" eq_refl).
Defined.

(** C6 at two frames without obstime, observers "earth" and "venus", and
    at a geometric observer against a label. *)
Lemma hpc_to_hpc_label_observer_witness :
  hpc_to_hpc Sample.no_graph Sample.hpc_point_earth_label
    Sample.hpc_frame_venus_label
  = Raise (AttributeError "lat") /\
  hpc_to_hpc Sample.no_graph Sample.hpc_point_earth
    Sample.hpc_frame_venus_label
  = Raise (AttributeError "lat").
Proof.
  split.
  - exact (hpc_to_hpc_label_observer Sample.no_graph
             Sample.hpc_point_earth_label Sample.hpc_frame_venus_label
             (ObserverLabel "earth") (ObserverLabel "venus")
             eq_refl eq_refl eq_refl).
  - exact (hpc_to_hpc_label_observer Sample.no_graph
             Sample.hpc_point_earth Sample.hpc_frame_venus_label
             (ObserverCoord Sample.earth) (ObserverLabel "venus")
             eq_refl eq_refl eq_refl).
Defined.

(** C10 at two frames whose observers are the same label. *)
Lemma hpc_to_hcc_observer_test_unreachable_witness :
  hpc_to_hcc Sample.no_distance Sample.no_graph Sample.hpc_point_earth_label
    Sample.hcc_frame_label
  = Raise (ValueError "To compare two observers, both must be instances of BaseCoordinateFrame. Cannot compare two observers {} and {}.").
Proof.
  exact (proj1 (hpc_to_hcc_observer_test_unreachable Sample.no_distance
                  Sample.no_graph Sample.hpc_point_earth_label
                  Sample.hcc_frame_label)
           (ObserverLabel "earth") (ObserverLabel "earth")
           eq_refl eq_refl eq_refl).
Defined.

(** C9 at a Stonyhurst point and a Heliocentric point. *)
Lemma same_frame_returns_data_witness :
  hgs_to_hgs Sample.no_graph (Sample.hgs_point (Some (Scalar 7%Z)))
    (Sample.hgs_frame (Some (Scalar 7%Z)))
  = Ok (Sample.hgs_point (Some (Scalar 7%Z))) /\
  hcc_to_hcc Sample.no_graph Sample.hcc_label Sample.hcc_frame_label
  = Ok Sample.hcc_label.
Proof.
  pose proof (same_frame_returns_data Sample.no_graph) as (Htime & Hobs & Hself & _).
  split.
  - exact (proj1 (Htime (Sample.hgs_point (Some (Scalar 7%Z)))
                    (Sample.hgs_frame (Some (Scalar 7%Z))) _ eq_refl eq_refl)).
  - exact (Hobs Sample.hcc_label Sample.hcc_frame_label
             (ObserverLabel "earth") (ObserverLabel "earth")
             eq_refl eq_refl (Hself (ObserverLabel "earth"))).
Defined.

Lemma is_one_one : is_one one = true.
Proof.
  unfold is_one, same_dims, one. cbn [scale ldim adim Z.eqb andb].
  destruct (Req_dec_T 1 1) as [_ | Hn]; [reflexivity | now destruct Hn].
Qed.

Lemma one_scale_nonzero : scale one <> 0.
Proof. simpl. lra. Qed.

(** C8 at a Stonyhurst direction without distance: its distance reads 1
    (dimensionless) and the conversion works with one solar radius. *)
Lemma hgs_to_hcc_unit_sphere_witness :
  spherical Sample.hgs_direction = Ok (qty 10 deg, qty 20 deg, qty 1 one) /\
  hgs_to_hcc 695700000 Sample.hgs_direction Sample.hcc_frame_earth =
  hgs_to_hcc_cartesian (qty 10 deg) (qty 20 deg) (qty 695700000 m)
    Sample.hcc_frame_earth /\
  hgs_to_hcc_cartesian (qty 10 deg) (qty 20 deg) (qty 695700000 m)
    Sample.hcc_frame_earth =
  (let lon := (10 - 0) * (PI / 180) in
   let lat := 20 * (PI / 180) in
   let b := 0 * (PI / 180) in
   Ok (realize_frame Sample.hcc_frame_earth
         (Some (CartesianRepresentation
                  (qty (695700000 * cos lat * sin lon / 1000) km)
                  (qty (695700000 * (sin lat * cos b - cos lat * cos lon * sin b)
                        / 1000) km)
                  (qty (695700000 * (sin lat * sin b + cos lat * cos lon * cos b)
                        / 1000) km))))).
Proof.
  split; [reflexivity | split].
  - exact (proj1 (hgs_to_hcc_unit_sphere 695700000 Sample.hgs_direction
                    Sample.hcc_frame_earth (qty 10 deg) (qty 20 deg) (qty 1 one)
                    eq_refl)
             is_one_one (allclose_scalar_refl 1 one one_scale_nonzero)).
  - exact (hgs_to_hcc_cartesian_metres Sample.hcc_frame_earth Sample.earth
             10 20 695700000 0 0 eq_refl eq_refl eq_refl).
Defined.

(** C4 at an array obstime of two instants, and for a scalar one. *)
Lemma hcrs_hgs_affine_pair_witness :
  returns (hcrs_to_hgs Sample.ephemeris Sample.z_rotation
             (Sample.hcrs_frame (Scalar 0%Z))
             (Sample.hgs_frame (Some (Array [1%Z; 2%Z])))) /\
  (forall M off,
     hcrs_to_hgs Sample.ephemeris Sample.z_rotation
       (Sample.hcrs_frame (Scalar 0%Z))
       (Sample.hgs_frame (Some (Array [1%Z; 2%Z]))) = Ok (M, off) ->
     Forall orthonormal (elements M) /\
     (forall t, Some (Array [1%Z; 2%Z]) = Some t -> isscalar M = isscalar t)) /\
  (forall M off,
     hcrs_to_hgs Sample.ephemeris Sample.z_rotation
       (Sample.hcrs_frame (Scalar 0%Z))
       (Sample.hgs_frame (Some (Scalar 1%Z))) = Ok (Scalar M, Scalar off) ->
     hgs_to_hcrs Sample.ephemeris Sample.z_rotation
       (Sample.hgs_frame (Some (Scalar 1%Z)))
       (Sample.hcrs_frame (Scalar 0%Z))
     = Ok (Scalar (matrix_transpose M),
           Scalar (vneg (transform (matrix_transpose M) off))) /\
     forall v,
       vadd (transform (matrix_transpose M) (vadd (transform M v) off))
            (vneg (transform (matrix_transpose M) off)) = v).
Proof.
  split; [| split].
  - eexists. run. reflexivity.
  - exact (proj1 (proj2 (hcrs_hgs_affine_pair Sample.ephemeris
                           Sample.z_rotation z_rotation_orthonormal
                           (Sample.hgs_frame (Some (Array [1%Z; 2%Z])))
                           (Sample.hcrs_frame (Scalar 0%Z))))).
  - exact (proj2 (proj2 (proj2 (hcrs_hgs_affine_pair Sample.ephemeris
                                  Sample.z_rotation z_rotation_orthonormal
                                  (Sample.hgs_frame (Some (Scalar 1%Z)))
                                  (Sample.hcrs_frame (Scalar 0%Z)))))).
Defined.

(** * Further properties of the transformation functions *)

(** ** The conversion formulas *)

Lemma zip_with_maps {A B C D : Type} (h : B -> C -> D) (f : A -> B) (g : A -> C)
    (l : list A) :
  zip_with h (map f l) (map g l) = map (fun i => h (f i) (g i)) l.
Proof.
  induction l as [| i l IH]; cbn; [reflexivity | now rewrite IH].
Qed.

Lemma broadcast2_same_shape {A B C D : Type} (h : B -> C -> D) (f : A -> B)
    (g : A -> C) (t : nd A) :
  broadcast2 h (nd_map f t) (nd_map g t) = Ok (nd_map (fun i => h (f i) (g i)) t).
Proof.
  destruct t as [i | l]; cbn [nd_map broadcast2]; [reflexivity |].
  rewrite !length_map, Nat.eqb_refl. now rewrite zip_with_maps.
Qed.

Lemma nd_map_nd_map {A B C : Type} (g : B -> C) (f : A -> B) (t : nd A) :
  nd_map g (nd_map f t) = nd_map (fun i => g (f i)) t.
Proof. destruct t; cbn [nd_map]; [reflexivity | now rewrite map_map]. Qed.

Lemma broadcast2_scalar_r {A B C D : Type} (h : B -> C -> D) (f : A -> B) (c : C)
    (t : nd A) :
  broadcast2 h (nd_map f t) (Scalar c) = Ok (nd_map (fun i => h (f i) c) t).
Proof. destruct t; cbn [nd_map broadcast2]; [reflexivity | now rewrite map_map]. Qed.

Lemma broadcast2_scalar_l {A B C D : Type} (h : C -> B -> D) (f : A -> B) (c : C)
    (t : nd A) :
  broadcast2 h (Scalar c) (nd_map f t) = Ok (nd_map (fun i => h c (f i)) t).
Proof. destruct t; cbn [nd_map broadcast2]; [reflexivity | now rewrite map_map]. Qed.

Lemma nd_map_ext {A B : Type} (f g : A -> B) (t : nd A) :
  (forall i, f i = g i) -> nd_map f t = nd_map g t.
Proof. intros H. destruct t; cbn [nd_map]; [now rewrite H | f_equal; now apply map_ext]. Qed.

(** The operations on quantities, on arguments that are given point by
    point over one array (or are scalars). *)
Ltac pointwise :=
  unfold to, deg2rad, rad2deg, qcos, qsin, qtrig, qadd, qsub, qmul,
    qsquare, qsqrt, qarctan2, qarcsin, to, qty;
  repeat (cbn [bind value unit same_dims ldim adim scale m km deg rad one
               Z.eqb Pos.eqb andb nd_map unit_mul unit_div Z.add Z.sub Z.even
               Z.div2 Pos.add Pos.succ Z.pos_sub Z.opp Pos.div2 Z.double
               Z.succ_double Z.pred_double Pos.pred_double];
          rewrite ?nd_map_nd_map, ?broadcast2_same_shape, ?broadcast2_scalar_r,
            ?broadcast2_scalar_l).

(** A quotient point by point, no divisor being zero. *)
Lemma qdiv_pointwise {A : Type} (f g : A -> R) (t : nd A) (u1 u2 : Unit) :
  (forall p, In p (elements t) -> g p <> 0) ->
  qdiv (mkQ (nd_map f t) u1) (mkQ (nd_map g t) u2)
  = Ok (mkQ (nd_map (fun p => f p / g p) t) (unit_div u1 u2)).
Proof.
  intros Hg. unfold qdiv. cbn [value unit].
  replace (existsb (fun y => if Req_dec_T y 0 then true else false)
             (elements (nd_map g t))) with false.
  - now rewrite broadcast2_same_shape.
  - symmetry. apply not_true_is_false. intros H.
    apply existsb_exists in H as (y & Hy & Hzero).
    assert (Hin : exists p, In p (elements t) /\ y = g p).
    { destruct t as [p | l]; cbn [nd_map elements] in *.
      - destruct Hy as [<- | []]. exists p. split; [now left | reflexivity].
      - apply in_map_iff in Hy as (p & <- & Hp). eauto. }
    destruct Hin as (p & Hp & ->).
    destruct (Req_dec_T (g p) 0) as [Hz | _]; [| discriminate].
    exact (Hg p Hp Hz).
Qed.

Lemma spherical_points_eq (f : Frame) (u1 u2 u3 : Unit) {A : Type}
    (a b c a' b' c' : A -> R) (pts : nd A) :
  (forall p, a p = a' p) -> (forall p, b p = b' p) -> (forall p, c p = c' p) ->
  Ok (realize_frame f
        (Some (SphericalRepresentation (mkQ (nd_map a pts) u1)
                 (mkQ (nd_map b pts) u2) (mkQ (nd_map c pts) u3))))
  = Ok (realize_frame f
          (Some (SphericalRepresentation (mkQ (nd_map a' pts) u1)
                   (mkQ (nd_map b' pts) u2) (mkQ (nd_map c' pts) u3)))).
Proof.
  intros Ha Hb Hc.
  now rewrite (nd_map_ext a a' pts Ha), (nd_map_ext b b' pts Hb),
    (nd_map_ext c c' pts Hc).
Qed.

Lemma cartesian_points_eq (f : Frame) (u1 u2 u3 : Unit) {A : Type}
    (a b c a' b' c' : A -> R) (pts : nd A) :
  (forall p, a p = a' p) -> (forall p, b p = b' p) -> (forall p, c p = c' p) ->
  Ok (realize_frame f
        (Some (CartesianRepresentation (mkQ (nd_map a pts) u1)
                 (mkQ (nd_map b pts) u2) (mkQ (nd_map c pts) u3))))
  = Ok (realize_frame f
          (Some (CartesianRepresentation (mkQ (nd_map a' pts) u1)
                   (mkQ (nd_map b' pts) u2) (mkQ (nd_map c' pts) u3)))).
Proof.
  intros Ha Hb Hc.
  now rewrite (nd_map_ext a a' pts Ha), (nd_map_ext b b' pts Hb),
    (nd_map_ext c c' pts Hc).
Qed.

Lemma is_one_length (u : Unit) : ldim u = 1%Z -> is_one u = false.
Proof.
  intros Hl. unfold is_one, same_dims. rewrite Hl. reflexivity.
Qed.

Lemma hpc_to_hcc_scalar (calculate_distance : Frame -> result Frame)
    (transform_to : Frame -> Frame -> result Frame)
    (heliopcoord heliocframe resolved : Frame) (obs_p obs_c : Observer)
    (o : ObserverFrame) (ua ud u : Unit) (Tx Ty d Dv : R) :
  observer heliopcoord = Some obs_p ->
  observer heliocframe = Some obs_c ->
  _observers_are_equal obs_p obs_c false = Ok true ->
  calculate_distance heliopcoord = Ok resolved ->
  data resolved
  = Some (SphericalRepresentation (qty Tx ua) (qty Ty ua) (qty d ud)) ->
  observer resolved = Some (ObserverCoord o) ->
  obs_radius o = qty Dv u ->
  ldim ua = 0%Z -> adim ua = 1%Z ->
  ldim ud = 1%Z -> adim ud = 0%Z ->
  ldim u = 1%Z -> adim u = 0%Z ->
  let x := Tx * scale ua in
  let y := Ty * scale ua in
  let dist := d * scale ud in
  let D := Dv * scale u in
  hpc_to_hcc calculate_distance transform_to heliopcoord heliocframe =
  Ok (realize_frame heliocframe
        (Some (CartesianRepresentation
                 (qty (dist * cos y * sin x / 1000) km)
                 (qty (dist * sin y / 1000) km)
                 (qty ((D - dist * cos y * cos x) / 1000) km)))).
Proof.
  intros Hp Hc Heq Hcd Hdata Hobs Hrad Hua1 Hua2 Hud1 Hud2 Hu1 Hu2 x y dist D.
  unfold hpc_to_hcc, get_observer. rewrite Hp, Hc. cbn [bind]. rewrite Heq.
  cbn [bind negb].
  apply _observers_are_equal_answers in Heq as [Hframe _]. rewrite Hframe.
  cbn [negb]. rewrite Hcd. cbn [bind].
  destruct resolved as [cls t ob dat]. cbn [data observer] in Hdata, Hobs.
  subst ob dat. destruct o as [id la lo ra]. cbn [obs_radius] in Hrad. subst ra.
  destruct ua as [sa la' aa], ud as [sd ld ad], u as [su lu au].
  cbn [ldim adim scale] in *. subst.
  run.
  replace (Ty * (sa / 1) * (1 / 1)) with (Ty * sa) by field.
  replace (Tx * (sa / 1) * (1 / 1)) with (Tx * sa) by field.
  apply (cartesian_point_eq heliocframe); field.
Qed.

(** X1.  [hpc_to_hcc], for observers that compare equal, acts point by
    point on a single point or an array of points: for each point that
    [calculate_distance] hands back with longitude [Tx] and latitude [Ty]
    in an angle unit and distance [d] in a length unit, the result holds
    the Cartesian point, in km, [x = d cos Ty sin Tx], [y = d sin Ty] and
    [z = D - d cos Ty cos Tx], [D] the radius of the observer; the result
    has the shape of the input. *)
Theorem hpc_to_hcc_formula (calculate_distance : Frame -> result Frame)
    (transform_to : Frame -> Frame -> result Frame)
    (heliopcoord heliocframe resolved : Frame) (obs_p obs_c : Observer)
    (o : ObserverFrame) (ua ud u : Unit) (pts : nd (R * R * R)) (Dv : R) :
  observer heliopcoord = Some obs_p ->
  observer heliocframe = Some obs_c ->
  _observers_are_equal obs_p obs_c false = Ok true ->
  calculate_distance heliopcoord = Ok resolved ->
  data resolved
  = Some (SphericalRepresentation
            (mkQ (nd_map (fun p => fst (fst p)) pts) ua)
            (mkQ (nd_map (fun p => snd (fst p)) pts) ua)
            (mkQ (nd_map (fun p => snd p) pts) ud)) ->
  observer resolved = Some (ObserverCoord o) ->
  obs_radius o = qty Dv u ->
  ldim ua = 0%Z -> adim ua = 1%Z ->
  ldim ud = 1%Z -> adim ud = 0%Z ->
  ldim u = 1%Z -> adim u = 0%Z ->
  let x (p : R * R * R) := fst (fst p) * scale ua in
  let y (p : R * R * R) := snd (fst p) * scale ua in
  let dist (p : R * R * R) := snd p * scale ud in
  let D := Dv * scale u in
  hpc_to_hcc calculate_distance transform_to heliopcoord heliocframe =
  Ok (realize_frame heliocframe
        (Some (CartesianRepresentation
                 (mkQ (nd_map (fun p => dist p * cos (y p) * sin (x p) / 1000)
                         pts) km)
                 (mkQ (nd_map (fun p => dist p * sin (y p) / 1000) pts) km)
                 (mkQ (nd_map (fun p =>
                                 (D - dist p * cos (y p) * cos (x p)) / 1000)
                         pts) km)))).
Proof.
  intros Hp Hc Heq Hcd Hdata Hobs Hrad Hua1 Hua2 Hud1 Hud2 Hu1 Hu2 x y dist D.
  unfold hpc_to_hcc, get_observer. rewrite Hp, Hc. cbn [bind]. rewrite Heq.
  cbn [bind negb].
  apply _observers_are_equal_answers in Heq as [Hframe _]. rewrite Hframe.
  cbn [negb]. rewrite Hcd. cbn [bind].
  destruct resolved as [cls t ob dat]. cbn [data observer] in Hdata, Hobs.
  subst ob dat. destruct o as [id la lo ra]. cbn [obs_radius] in Hrad. subst ra.
  destruct ua as [sa la' aa], ud as [sd ld ad], u as [su lu au].
  cbn [ldim adim scale] in *. subst.
  unfold spherical, get_data, get_observer.
  cbn [observer data bind represent_as_spherical attr_radius obs_radius].
  pointwise.
  apply (cartesian_points_eq heliocframe); intros p; unfold x, y, dist, D;
    norm_units;
    replace (snd (fst p) * (sa / 1) * (1 / 1)) with (snd (fst p) * sa) by field;
    replace (fst (fst p) * (sa / 1) * (1 / 1)) with (fst (fst p) * sa) by field;
    field.
Qed.

(** [hcc_to_hgs] point by point, no point being the centre of the Sun. *)
Lemma hcc_to_hgs_points (wrap_angle : FrameClass -> R)
    (helioccoord heliogframe : Frame)
    (o : ObserverFrame) (ul : Unit) (pts : nd (R * R * R)) (l0 b0 : R) :
  data helioccoord
  = Some (CartesianRepresentation
            (mkQ (nd_map (fun p => fst (fst p)) pts) ul)
            (mkQ (nd_map (fun p => snd (fst p)) pts) ul)
            (mkQ (nd_map (fun p => snd p) pts) ul)) ->
  observer helioccoord = Some (ObserverCoord o) ->
  obs_lon o = qty l0 deg -> obs_lat o = qty b0 deg ->
  ldim ul = 1%Z -> adim ul = 0%Z ->
  let b := b0 * (PI / 180) in
  let x (p : R * R * R) := fst (fst p) * scale ul in
  let y (p : R * R * R) := snd (fst p) * scale ul in
  let z (p : R * R * R) := snd p * scale ul in
  let r p := sqrt (x p * x p + y p * y p + z p * z p) in
  let w := wrap_angle (frame_class heliogframe) in
  (forall p, In p (elements pts) -> 0 < x p * x p + y p * y p + z p * z p) ->
  hcc_to_hgs wrap_angle helioccoord heliogframe =
  Ok (realize_frame heliogframe
        (Some (SphericalRepresentation
                 (mkQ (nd_map (fun p =>
                                 wrap_at w
                                   ((arctan2 (x p) (z p * cos b - y p * sin b)
                                     + l0 * (PI / 180)) * (180 / PI))) pts) deg)
                 (mkQ (nd_map (fun p =>
                                 asin ((y p * cos b + z p * sin b) / r p)
                                 * (180 / PI)) pts) deg)
                 (mkQ (nd_map (fun p => r p / 1000) pts) km)))).
Proof.
  intros Hdata Hobs Hlon Hlat Hl Ha b x y z r w Hpos.
  destruct helioccoord as [cls t ob d]. cbn [data observer] in Hdata, Hobs.
  subst ob d. destruct o as [id la lo ra]. cbn [obs_lon obs_lat] in Hlon, Hlat.
  subst la lo. destruct ul as [s l a]. cbn [ldim adim scale] in *. subst l a.
  unfold hcc_to_hgs, get_observer, cartesian, get_data.
  cbn [observer data bind is_frame negb represent_as_cartesian attr_lon attr_lat
       obs_lon obs_lat].
  pointwise.
  rewrite qdiv_pointwise.
  2:{ intros p Hp. apply Rgt_not_eq, sqrt_lt_R0. specialize (Hpos p Hp).
      unfold x, y, z in Hpos.
      match goal with
      | |- 0 < ?e =>
          replace e with (fst (fst p) * s * (fst (fst p) * s)
                          + snd (fst p) * s * (snd (fst p) * s)
                          + snd p * s * (snd p * s)) by field
      end.
      exact Hpos. }
  pointwise. unfold realize_spherical. rewrite Longitude_degrees.
  pointwise. fold w.
  apply (spherical_points_eq heliogframe); intros p; unfold r, x, y, z, b;
    norm_units; reflexivity.
Qed.

Lemma hcc_to_hgs_scalar (wrap_angle : FrameClass -> R)
    (helioccoord heliogframe : Frame)
    (o : ObserverFrame) (ul : Unit) (xv yv zv l0 b0 : R) :
  data helioccoord
  = Some (CartesianRepresentation (qty xv ul) (qty yv ul) (qty zv ul)) ->
  observer helioccoord = Some (ObserverCoord o) ->
  obs_lon o = qty l0 deg -> obs_lat o = qty b0 deg ->
  ldim ul = 1%Z -> adim ul = 0%Z ->
  let x := xv * scale ul in
  let y := yv * scale ul in
  let z := zv * scale ul in
  let b := b0 * (PI / 180) in
  let r := sqrt (x * x + y * y + z * z) in
  0 < x * x + y * y + z * z ->
  hcc_to_hgs wrap_angle helioccoord heliogframe =
  Ok (realize_frame heliogframe
        (Some (SphericalRepresentation
                 (qty (wrap_at (wrap_angle (frame_class heliogframe))
                         ((arctan2 x (z * cos b - y * sin b) + l0 * (PI / 180))
                          * (180 / PI))) deg)
                 (qty (asin ((y * cos b + z * sin b) / r) * (180 / PI)) deg)
                 (qty (r / 1000) km)))).
Proof.
  intros Hdata Hobs Hlon Hlat Hl Ha x y z b r Hpos.
  apply (hcc_to_hgs_points wrap_angle helioccoord heliogframe o ul
           (Scalar (xv, yv, zv)) l0 b0 Hdata Hobs Hlon Hlat Hl Ha).
  intros p [<- | []]. exact Hpos.
Qed.

(** X2.  [hcc_to_hgs] acts point by point on a single point or an array of
    points [(x, y, z)] given in a length unit, none of them the centre of
    the Sun: for an observer at Stonyhurst longitude [l0] and latitude [b0]
    (degrees) each point becomes the spherical point with
    [r = sqrt (x^2 + y^2 + z^2)] (in km), longitude
    [atan2 (x, z cos b0 - y sin b0) + l0] and latitude
    [asin ((y cos b0 + z sin b0) / r)], both in degrees; the result has the
    shape of the input.  The longitude is held as a [Longitude] of the
    frame: it is shown in the turn that ends at the wrap angle [w] of the
    frame, that is, less a whole number of turns, and as it is when it
    lies between [w - 360] and [w]. *)
Theorem hcc_to_hgs_formula (wrap_angle : FrameClass -> R)
    (helioccoord heliogframe : Frame)
    (o : ObserverFrame) (ul : Unit) (pts : nd (R * R * R)) (l0 b0 : R) :
  data helioccoord
  = Some (CartesianRepresentation
            (mkQ (nd_map (fun p => fst (fst p)) pts) ul)
            (mkQ (nd_map (fun p => snd (fst p)) pts) ul)
            (mkQ (nd_map (fun p => snd p) pts) ul)) ->
  observer helioccoord = Some (ObserverCoord o) ->
  obs_lon o = qty l0 deg -> obs_lat o = qty b0 deg ->
  ldim ul = 1%Z -> adim ul = 0%Z ->
  let b := b0 * (PI / 180) in
  let x (p : R * R * R) := fst (fst p) * scale ul in
  let y (p : R * R * R) := snd (fst p) * scale ul in
  let z (p : R * R * R) := snd p * scale ul in
  let r p := sqrt (x p * x p + y p * y p + z p * z p) in
  let lon p :=
    (arctan2 (x p) (z p * cos b - y p * sin b) + l0 * (PI / 180)) * (180 / PI) in
  let w := wrap_angle (frame_class heliogframe) in
  (forall p, In p (elements pts) -> 0 < x p * x p + y p * y p + z p * z p) ->
  hcc_to_hgs wrap_angle helioccoord heliogframe =
  Ok (realize_frame heliogframe
        (Some (SphericalRepresentation
                 (mkQ (nd_map (fun p => wrap_at w (lon p)) pts) deg)
                 (mkQ (nd_map (fun p =>
                                 asin ((y p * cos b + z p * sin b) / r p)
                                 * (180 / PI)) pts) deg)
                 (mkQ (nd_map (fun p => r p / 1000) pts) km)))) /\
  (forall p,
     (exists k : Z, wrap_at w (lon p) = lon p - IZR k * 360) /\
     (w - 360 <= lon p < w -> wrap_at w (lon p) = lon p)).
Proof.
  intros Hdata Hobs Hlon Hlat Hl Ha b x y z r lon w Hpos. split.
  - exact (hcc_to_hgs_points wrap_angle helioccoord heliogframe o ul pts l0 b0
             Hdata Hobs Hlon Hlat Hl Ha Hpos).
  - intros p. split; [apply wrap_at_turns | apply wrap_at_id].
Qed.

Lemma hgs_to_hcc_scalar (RSUN_METERS : R) (heliogcoord heliocframe : Frame)
    (o : ObserverFrame) (ul : Unit) (hglon hglat rv l0 b0 : R) :
  data heliogcoord
  = Some (SphericalRepresentation (qty hglon deg) (qty hglat deg) (qty rv ul)) ->
  observer heliocframe = Some (ObserverCoord o) ->
  obs_lon o = qty l0 deg -> obs_lat o = qty b0 deg ->
  ldim ul = 1%Z -> adim ul = 0%Z ->
  let lon := (hglon - l0) * (PI / 180) in
  let lat := hglat * (PI / 180) in
  let b := b0 * (PI / 180) in
  let r := rv * scale ul in
  hgs_to_hcc RSUN_METERS heliogcoord heliocframe =
  Ok (realize_frame heliocframe
        (Some (CartesianRepresentation
                 (qty (r * cos lat * sin lon / 1000) km)
                 (qty (r * (sin lat * cos b - cos lat * cos lon * sin b) / 1000) km)
                 (qty (r * (sin lat * sin b + cos lat * cos lon * cos b) / 1000) km)))).
Proof.
  intros Hdata Hobs Hlon Hlat Hl Ha lon lat b r.
  destruct heliogcoord as [cls t ob d]. cbn [data] in Hdata. subst d.
  destruct heliocframe as [cls' t' ob' d']. cbn [observer] in Hobs. subst ob'.
  destruct o as [id la lo ra]. cbn [obs_lon obs_lat] in Hlon, Hlat. subst la lo.
  destruct ul as [s l a]. cbn [ldim adim scale] in *. subst l a.
  run. norm_units.
  replace (hglon * (PI / 180) - l0 * (PI / 180)) with ((hglon - l0) * (PI / 180))
    by ring.
  apply (cartesian_point_eq
           (mkFrame cls' t' (Some (ObserverCoord
                                     (mkObserver id (qty b0 deg) (qty l0 deg) ra)))
              d'));
    field.
Qed.

(** X3.  [hgs_to_hcc] acts point by point on a single point or an array of
    points of longitude and latitude in degrees and radial distance [r] in
    a length unit: for a destination observer at longitude [l0] and
    latitude [b0] (degrees), with [lon = hglon - l0], each point becomes
    the Cartesian point, in km, [x = r cos lat sin lon],
    [y = r (sin lat cos b0 - cos lat cos lon sin b0)] and
    [z = r (sin lat sin b0 + cos lat cos lon cos b0)]; the result has the
    shape of the input. *)
Theorem hgs_to_hcc_formula (RSUN_METERS : R) (heliogcoord heliocframe : Frame)
    (o : ObserverFrame) (ul : Unit) (pts : nd (R * R * R)) (l0 b0 : R) :
  data heliogcoord
  = Some (SphericalRepresentation
            (mkQ (nd_map (fun p => fst (fst p)) pts) deg)
            (mkQ (nd_map (fun p => snd (fst p)) pts) deg)
            (mkQ (nd_map (fun p => snd p) pts) ul)) ->
  observer heliocframe = Some (ObserverCoord o) ->
  obs_lon o = qty l0 deg -> obs_lat o = qty b0 deg ->
  ldim ul = 1%Z -> adim ul = 0%Z ->
  let lon (p : R * R * R) := (fst (fst p) - l0) * (PI / 180) in
  let lat (p : R * R * R) := snd (fst p) * (PI / 180) in
  let b := b0 * (PI / 180) in
  let r (p : R * R * R) := snd p * scale ul in
  hgs_to_hcc RSUN_METERS heliogcoord heliocframe =
  Ok (realize_frame heliocframe
        (Some (CartesianRepresentation
                 (mkQ (nd_map (fun p => r p * cos (lat p) * sin (lon p) / 1000)
                         pts) km)
                 (mkQ (nd_map (fun p =>
                                 r p * (sin (lat p) * cos b
                                        - cos (lat p) * cos (lon p) * sin b)
                                 / 1000) pts) km)
                 (mkQ (nd_map (fun p =>
                                 r p * (sin (lat p) * sin b
                                        + cos (lat p) * cos (lon p) * cos b)
                                 / 1000) pts) km)))).
Proof.
  intros Hdata Hobs Hlon Hlat Hl Ha lon lat b r.
  unfold hgs_to_hcc, spherical, get_data. rewrite Hdata.
  cbn [bind represent_as_spherical].
  rewrite given_radius by (left; apply is_one_length; exact Hl).
  cbn [bind].
  destruct heliocframe as [cls' t' ob' d']. cbn [observer] in Hobs. subst ob'.
  destruct o as [id la lo ra]. cbn [obs_lon obs_lat] in Hlon, Hlat. subst la lo.
  destruct ul as [s l a]. cbn [ldim adim scale] in *. subst l a.
  unfold hgs_to_hcc_cartesian, get_observer.
  cbn [observer bind is_frame negb attr_lon attr_lat obs_lon obs_lat].
  pointwise.
  apply (cartesian_points_eq
           (mkFrame cls' t' (Some (ObserverCoord
                                     (mkObserver id (qty b0 deg) (qty l0 deg) ra)))
              d'));
    intros p; unfold r, lon, lat, b; norm_units;
    replace (fst (fst p) * (PI / 180) - l0 * (PI / 180))
      with ((fst (fst p) - l0) * (PI / 180)) by ring;
    field.
Qed.

(** Lines 126-140 of [hcc_to_hpc] point by point, no point being at the
    observer. *)
Lemma hcc_to_hpc_projection_points (wrap_angle : FrameClass -> R)
    (helioccoord heliopframe : Frame)
    (o : ObserverFrame) (ul u : Unit) (pts : nd (R * R * R)) (Dv : R) :
  data helioccoord
  = Some (CartesianRepresentation
            (mkQ (nd_map (fun p => fst (fst p)) pts) ul)
            (mkQ (nd_map (fun p => snd (fst p)) pts) ul)
            (mkQ (nd_map (fun p => snd p) pts) ul)) ->
  observer helioccoord = Some (ObserverCoord o) ->
  obs_radius o = qty Dv u ->
  ldim ul = 1%Z -> adim ul = 0%Z ->
  ldim u = 1%Z -> adim u = 0%Z -> scale u <> 0 ->
  let x (p : R * R * R) := fst (fst p) * scale ul in
  let y (p : R * R * R) := snd (fst p) * scale ul in
  let z (p : R * R * R) := snd p * scale ul in
  let D := Dv * scale u in
  let distance p := sqrt (x p * x p + y p * y p + (D - z p) * (D - z p)) in
  let w := wrap_angle (frame_class heliopframe) in
  (forall p, In p (elements pts) ->
             0 < x p * x p + y p * y p + (D - z p) * (D - z p)) ->
  hcc_to_hpc_projection wrap_angle helioccoord heliopframe =
  Ok (realize_frame heliopframe
        (Some (SphericalRepresentation
                 (mkQ (nd_map (fun p =>
                                 wrap_at w (arctan2 (x p) (D - z p) * (180 / PI)))
                         pts) deg)
                 (mkQ (nd_map (fun p => asin (y p / distance p) * (180 / PI))
                         pts) deg)
                 (mkQ (nd_map (fun p => distance p / 1000) pts) km)))).
Proof.
  intros Hdata Hobs Hrad Hl1 Hl2 Hu1 Hu2 Hs x y z D distance w Hpos.
  destruct helioccoord as [cls t ob d]. cbn [data observer] in Hdata, Hobs.
  subst ob d. destruct o as [id la lo ra]. cbn [obs_radius] in Hrad. subst ra.
  destruct ul as [sl ll al], u as [s l a]. cbn [ldim adim scale] in *. subst.
  unfold hcc_to_hpc_projection, cartesian, get_data, get_observer.
  cbn [observer data bind represent_as_cartesian attr_radius obs_radius].
  pointwise.
  rewrite qdiv_pointwise.
  2:{ intros p Hp. apply Rgt_not_eq, sqrt_lt_R0. specialize (Hpos p Hp).
      unfold x, y, z, D in Hpos.
      match goal with
      | |- 0 < ?e =>
          replace e with (fst (fst p) * sl * (fst (fst p) * sl)
                          + snd (fst p) * sl * (snd (fst p) * sl)
                          + (Dv * s - snd p * sl) * (Dv * s - snd p * sl))
            by (field; exact Hs)
      end.
      exact Hpos. }
  pointwise. unfold realize_spherical. rewrite Longitude_degrees.
  pointwise. fold w.
  apply (spherical_points_eq heliopframe); intros p;
    unfold distance, x, y, z, D; norm_units;
    replace ((Dv - snd p * sl / s) * s) with (Dv * s - snd p * sl)
      by (field; exact Hs);
    try replace (fst (fst p) * sl * (fst (fst p) * sl)
                 + snd (fst p) * sl * (snd (fst p) * sl)
                 + (Dv - snd p * sl / s) * (Dv - snd p * sl / s) * (s * s))
      with (fst (fst p) * sl * (fst (fst p) * sl)
            + snd (fst p) * sl * (snd (fst p) * sl)
            + (Dv * s - snd p * sl) * (Dv * s - snd p * sl))
      by (field; exact Hs);
    reflexivity.
Qed.

(** X4.  [hcc_to_hpc], for observers that compare equal, acts point by
    point on a single point or an array of points [(x, y, z)] given in a
    length unit, none of them at the observer: with [D] the radius of the
    observer each point becomes the spherical point at
    [distance = sqrt (x^2 + y^2 + (D - z)^2)] (in km), of longitude
    [atan2 (x, D - z)] and latitude [asin (y / distance)], both in degrees;
    the result has the shape of the input.  The longitude is held as a
    [Longitude] of the frame: it is shown in the turn that ends at the wrap
    angle [w] of the frame, that is, less a whole number of turns, and as
    it is when it lies between [w - 360] and [w]. *)
Theorem hcc_to_hpc_pointwise (transform_to : Frame -> Frame -> result Frame)
    (wrap_angle : FrameClass -> R)
    (helioccoord heliopframe : Frame) (obs_p : Observer)
    (o : ObserverFrame) (ul u : Unit) (pts : nd (R * R * R)) (Dv : R) :
  data helioccoord
  = Some (CartesianRepresentation
            (mkQ (nd_map (fun p => fst (fst p)) pts) ul)
            (mkQ (nd_map (fun p => snd (fst p)) pts) ul)
            (mkQ (nd_map (fun p => snd p) pts) ul)) ->
  observer helioccoord = Some (ObserverCoord o) ->
  observer heliopframe = Some obs_p ->
  _observers_are_equal (ObserverCoord o) obs_p false = Ok true ->
  obs_radius o = qty Dv u ->
  ldim ul = 1%Z -> adim ul = 0%Z ->
  ldim u = 1%Z -> adim u = 0%Z -> scale u <> 0 ->
  let x (p : R * R * R) := fst (fst p) * scale ul in
  let y (p : R * R * R) := snd (fst p) * scale ul in
  let z (p : R * R * R) := snd p * scale ul in
  let D := Dv * scale u in
  let distance p := sqrt (x p * x p + y p * y p + (D - z p) * (D - z p)) in
  let lon p := arctan2 (x p) (D - z p) * (180 / PI) in
  let w := wrap_angle (frame_class heliopframe) in
  (forall p, In p (elements pts) ->
             0 < x p * x p + y p * y p + (D - z p) * (D - z p)) ->
  hcc_to_hpc transform_to wrap_angle helioccoord heliopframe =
  Ok (realize_frame heliopframe
        (Some (SphericalRepresentation
                 (mkQ (nd_map (fun p => wrap_at w (lon p)) pts) deg)
                 (mkQ (nd_map (fun p => asin (y p / distance p) * (180 / PI))
                         pts) deg)
                 (mkQ (nd_map (fun p => distance p / 1000) pts) km)))) /\
  (forall p,
     (exists k : Z, wrap_at w (lon p) = lon p - IZR k * 360) /\
     (w - 360 <= lon p < w -> wrap_at w (lon p) = lon p)).
Proof.
  intros Hdata Hobs Hp Heq Hrad Hl1 Hl2 Hu1 Hu2 Hs x y z D distance lon w Hpos.
  split.
  - unfold hcc_to_hpc, get_observer. rewrite Hobs, Hp. cbn [bind]. rewrite Heq.
    cbn [bind negb].
    exact (hcc_to_hpc_projection_points wrap_angle helioccoord heliopframe o ul u
             pts Dv Hdata Hobs Hrad Hl1 Hl2 Hu1 Hu2 Hs Hpos).
  - intros p. split; [apply wrap_at_turns | apply wrap_at_id].
Qed.

Lemma hgs_to_hcc_radius_returns (RSUN_METERS : R) (r : Quantity) :
  returns (hgs_to_hcc_radius RSUN_METERS r).
Proof.
  unfold returns, hgs_to_hcc_radius.
  destruct (is_one (unit r)) eqn:Hone.
  - apply is_one_true in Hone. destruct r as [v u]. cbn [unit] in Hone. subst u.
    unfold allclose, to. cbn [unit value same_dims one ldim adim Z.eqb andb bind].
    destruct v as [x | l]; cbn [nd_map broadcast2 bind];
      match goal with
      | |- context [np_all ?b] => destruct (np_all b)
      end; cbn [ones_like nd_map qmul value unit broadcast2 bind]; eauto.
  - cbn [bind]. eauto.
Qed.

(** X5.  [hgs_to_hcc] requires a geometric observer on the destination
    frame: when that observer is a label it raises [ConvertError], for every
    coordinate whose spherical components can be read, and it returns a
    point only for a geometric destination observer. *)
Theorem hgs_to_hcc_requires_destination_observer (RSUN_METERS : R)
    (heliogcoord heliocframe : Frame) (hglon hglat r : Quantity) :
  spherical heliogcoord = Ok (hglon, hglat, r) ->
  (forall name, observer heliocframe = Some (ObserverLabel name) ->
     hgs_to_hcc RSUN_METERS heliogcoord heliocframe =
     Raise (ConvertError "Cannot transform heliographic coordinates to heliocentric coordinates for observer '{}' without `obstime` being specified.")) /\
  (returns (hgs_to_hcc RSUN_METERS heliogcoord heliocframe) ->
     geometric (observer heliocframe)).
Proof.
  intros Hsph. unfold hgs_to_hcc. rewrite Hsph. cbn [bind].
  destruct (hgs_to_hcc_radius_returns RSUN_METERS r) as [r' ->]. cbn [bind].
  unfold hgs_to_hcc_cartesian, get_observer, geometric, returns.
  destruct (observer heliocframe) as [[name | o] |]; cbn [bind is_frame negb].
  - split; [reflexivity |]. intros [a Ha]. discriminate.
  - split; [intros name [=] | eauto].
  - split; [intros name [=] |]. intros [a Ha]. discriminate.
Qed.

(** ** Observers that are labels *)

(** X6.  [hcc_to_hpc] compares the observers without [string_ok]: as soon
    as one of them is a label - two equal labels included - it raises the
    [ValueError] of [_observers_are_equal], whatever the transform graph
    would do.  [hcc_to_hcc] allows labels: two labels that differ raise the
    same [ValueError], and no route through Stonyhurst is tried. *)
Theorem heliocentric_label_observers
    (transform_to : Frame -> Frame -> result Frame)
    (wrap_angle : FrameClass -> R)
    (coord frame : Frame) (obs_from obs_to : Observer) :
  observer coord = Some obs_from ->
  observer frame = Some obs_to ->
  is_frame obs_from && is_frame obs_to = false ->
  hcc_to_hpc transform_to wrap_angle coord frame =
  Raise (ValueError "To compare two observers, both must be instances of BaseCoordinateFrame. Cannot compare two observers {} and {}.") /\
  (py_eq obs_from obs_to = false ->
   hcc_to_hcc transform_to coord frame =
   Raise (ValueError "To compare two observers, both must be instances of BaseCoordinateFrame. Cannot compare two observers {} and {}.")).
Proof.
  intros Hfrom Hto Hlabel. split.
  - unfold hcc_to_hpc, get_observer. rewrite Hfrom, Hto. cbn [bind].
    now rewrite _observers_are_equal_not_frames.
  - intros Hneq. unfold hcc_to_hcc, get_observer. rewrite Hfrom, Hto.
    cbn [bind]. unfold _observers_are_equal. rewrite Hneq, Hlabel. reflexivity.
Qed.

(** X7.  The two tests of lines 266-271 of [hpc_to_hpc] never fire: to reach
    them both observers must have answered [.lat], so both are frame
    objects.  For every input and every transform graph [hpc_to_hpc] is the
    function without those tests; it never raises their [ConvertError]
    itself. *)
Theorem hpc_to_hpc_observer_tests_unreachable
    (transform_to : Frame -> Frame -> result Frame)
    (heliopcoord heliopframe : Frame) :
  hpc_to_hpc transform_to heliopcoord heliopframe =
  hpc_to_hpc_without_observer_tests transform_to heliopcoord heliopframe.
Proof.
  unfold hpc_to_hpc, hpc_to_hpc_without_observer_tests, get_observer.
  destruct (observer heliopcoord) as [obs_from |]; [| reflexivity].
  destruct (observer heliopframe) as [obs_to |]; [| reflexivity].
  cbn [bind].
  destruct (py_eq obs_from obs_to); [reflexivity |].
  destruct obs_from as [s1 | o1]; [reflexivity |].
  destruct obs_to as [s2 | o2]; [reflexivity |].
  cbn [attr_lat attr_lon attr_radius bind is_frame negb].
  reflexivity.
Qed.

(** ** Round trips, in exact arithmetic *)

Lemma sqrt_one_plus_sqr_pos (t : R) : 0 < sqrt (1 + t²).
Proof. apply sqrt_lt_R0. pose proof (Rle_0_sqr t). lra. Qed.

Lemma sqrt_sum_pos_x (a c : R) :
  0 < c -> sqrt (a * a + c * c) = c * sqrt (1 + (a / c)²).
Proof.
  intros Hc.
  replace (a * a + c * c) with ((c * c) * (1 + (a / c)²))
    by (unfold Rsqr; field; lra).
  rewrite sqrt_mult.
  - rewrite sqrt_square by lra. reflexivity.
  - nra.
  - pose proof (Rle_0_sqr (a / c)). lra.
Qed.

Lemma sqrt_sum_neg_x (a c : R) :
  c < 0 -> sqrt (a * a + c * c) = - c * sqrt (1 + (a / c)²).
Proof.
  intros Hc.
  replace (a * a + c * c) with ((- c * - c) * (1 + (a / c)²))
    by (unfold Rsqr; field; lra).
  rewrite sqrt_mult.
  - rewrite sqrt_square by lra. reflexivity.
  - nra.
  - pose proof (Rle_0_sqr (a / c)). lra.
Qed.

Lemma sin_minus_PI (x : R) : sin (x - PI) = - sin x.
Proof. rewrite sin_minus, cos_PI, sin_PI. ring. Qed.

Lemma cos_minus_PI (x : R) : cos (x - PI) = - cos x.
Proof. rewrite cos_minus, cos_PI, sin_PI. ring. Qed.

(** Polar form: [arctan2 a c] is the angle of the point [(c, a)]. *)
Lemma arctan2_polar (a c : R) :
  sqrt (a * a + c * c) * sin (arctan2 a c) = a /\
  sqrt (a * a + c * c) * cos (arctan2 a c) = c.
Proof.
  unfold arctan2.
  destruct (Rlt_dec 0 c) as [Hpos | Hnpos].
  - rewrite sqrt_sum_pos_x by exact Hpos.
    rewrite sin_atan, cos_atan.
    pose proof (sqrt_one_plus_sqr_pos (a / c)) as HS.
    split; field; lra.
  - destruct (Rlt_dec c 0) as [Hneg | Hnneg].
    + rewrite sqrt_sum_neg_x by exact Hneg.
      pose proof (sqrt_one_plus_sqr_pos (a / c)) as HS.
      destruct (Rle_dec 0 a).
      * rewrite neg_sin, neg_cos, sin_atan, cos_atan. split; field; lra.
      * rewrite sin_minus_PI, cos_minus_PI, sin_atan, cos_atan.
        split; field; lra.
    + assert (c = 0) by lra. subst c.
      replace (a * a + 0 * 0) with (a * a) by ring.
      destruct (Rlt_dec 0 a) as [Ha | Hna].
      * rewrite sqrt_square by lra. rewrite sin_PI2, cos_PI2. split; ring.
      * destruct (Rlt_dec a 0) as [Ha' | Hna'].
        -- replace (a * a) with (- a * - a) by ring.
           rewrite sqrt_square by lra.
           rewrite sin_neg, cos_neg, sin_PI2, cos_PI2. split; ring.
        -- assert (a = 0) by lra. subst a.
           rewrite Rmult_0_l, sqrt_0. split; ring.
Qed.

Lemma ratio_in_range (w r : R) : 0 < r -> w * w <= r * r -> -1 <= w / r <= 1.
Proof.
  intros Hr Hw.
  assert (- r <= w <= r) as [Hlo Hhi] by nra.
  pose proof (Rinv_0_lt_compat r Hr) as Hinv.
  assert (r * / r = 1) as Hone by (field; lra).
  unfold Rdiv. split; nra.
Qed.

Lemma asin_polar (w r : R) :
  0 < r -> w * w <= r * r ->
  r * sin (asin (w / r)) = w /\
  r * cos (asin (w / r)) = sqrt (r * r - w * w).
Proof.
  intros Hr Hw. pose proof (ratio_in_range w r Hr Hw) as Hrange.
  rewrite sin_asin, cos_asin by exact Hrange. split.
  - field. lra.
  - rewrite <- (sqrt_square r) at 1 by lra.
    rewrite <- sqrt_mult.
    + f_equal. unfold Rsqr. field. lra.
    + nra.
    + destruct Hrange as [Hlo Hhi]. unfold Rsqr. nra.
Qed.

(** The angle of a point given in polar form, in the principal range. *)
Lemma arctan2_of_polar (k theta : R) :
  0 < k -> - PI < theta <= PI ->
  arctan2 (k * sin theta) (k * cos theta) = theta.
Proof.
  intros Hk [Hlo Hhi]. pose proof PI_RGT_0 as HPI.
  assert (Htan : forall c, c <> 0 -> k * sin theta / (k * c) = sin theta / c)
    by (intros c Hc; field; lra).
  unfold arctan2.
  destruct (Rlt_dec 0 (k * cos theta)) as [Hpos | Hnpos].
  - assert (Hc : 0 < cos theta) by nra.
    assert (- (PI / 2) < theta < PI / 2).
    { split.
      - destruct (Rlt_dec (- (PI / 2)) theta) as [H | H]; [exact H | exfalso].
        assert (cos (- theta) <= 0) by (apply cos_le_0; lra).
        rewrite cos_neg in *. lra.
      - destruct (Rlt_dec theta (PI / 2)) as [H | H]; [exact H | exfalso].
        assert (cos theta <= 0) by (apply cos_le_0; lra). lra. }
    rewrite Htan by lra. fold (tan theta). now apply atan_tan.
  - destruct (Rlt_dec (k * cos theta) 0) as [Hneg | Hnneg].
    + assert (Hc : cos theta < 0) by nra.
      rewrite Htan by lra.
      destruct (Rle_dec 0 (k * sin theta)) as [Hs | Hs].
      * assert (PI / 2 < theta).
        { destruct (Rlt_dec (PI / 2) theta) as [H | H]; [exact H | exfalso].
          destruct (Rle_dec (- (PI / 2)) theta).
          - assert (0 <= cos theta) by (apply cos_ge_0; lra). lra.
          - assert (0 < sin (- theta)) by (apply sin_gt_0; lra).
            rewrite sin_neg in *. nra. }
        replace (sin theta / cos theta) with (tan (theta - PI)).
        -- rewrite atan_tan by lra. ring.
        -- unfold tan. rewrite sin_minus_PI, cos_minus_PI. field. lra.
      * assert (Hs' : sin theta < 0) by nra.
        assert (theta < - (PI / 2)).
        { destruct (Rlt_dec theta (- (PI / 2))) as [H | H]; [exact H | exfalso].
          destruct (Rle_dec theta (PI / 2)).
          - assert (0 <= cos theta) by (apply cos_ge_0; lra). lra.
          - assert (0 <= sin theta) by (apply sin_ge_0; lra). lra. }
        replace (sin theta / cos theta) with (tan (theta + PI)).
        -- rewrite atan_tan by lra. ring.
        -- unfold tan. rewrite neg_sin, neg_cos. field. lra.
    + assert (Hc : cos theta = 0) by nra.
      destruct (Rlt_dec 0 (k * sin theta)) as [Hs | Hs].
      * assert (0 < sin theta) by nra.
        destruct (Rtotal_order theta (PI / 2)) as [H' | [H' | H']];
          [exfalso | lra | exfalso].
        -- destruct (Rlt_dec (- (PI / 2)) theta).
           ++ assert (0 < cos theta) by (apply cos_gt_0; lra). lra.
           ++ assert (0 <= sin (- theta)) by (apply sin_ge_0; lra).
              rewrite sin_neg in *. lra.
        -- assert (cos theta < 0) by (apply cos_lt_0; lra). lra.
      * destruct (Rlt_dec (k * sin theta) 0) as [Hs' | Hs'].
        -- assert (sin theta < 0) by nra.
           destruct (Rtotal_order theta (- (PI / 2))) as [H' | [H' | H']];
             [exfalso | lra | exfalso].
           ++ assert (cos (- theta) < 0) by (apply cos_lt_0; lra).
              rewrite cos_neg in *. lra.
           ++ destruct (Rlt_dec theta (PI / 2)).
              ** assert (0 < cos theta) by (apply cos_gt_0; lra). lra.
              ** assert (0 <= sin theta) by (apply sin_ge_0; lra). lra.
        -- exfalso. assert (sin theta = 0) by nra.
           apply (cos_sin_0 theta). split; assumption.
Qed.

(** The projection of a point [(x, y, c)] with [c] along the line of sight,
    and back. *)
Lemma projection_inverse (x y c : R) :
  0 < x * x + y * y + c * c ->
  let d := sqrt (x * x + y * y + c * c) in
  d * cos (asin (y / d)) * sin (arctan2 x c) = x /\
  d * sin (asin (y / d)) = y /\
  d * cos (asin (y / d)) * cos (arctan2 x c) = c.
Proof.
  intros Hpos d.
  assert (Hd : 0 < d) by (apply sqrt_lt_R0; exact Hpos).
  assert (Hdd : d * d = x * x + y * y + c * c) by (apply sqrt_sqrt; lra).
  assert (Hy : y * y <= d * d) by nra.
  destruct (asin_polar y d Hd Hy) as [Hsin Hcos].
  destruct (arctan2_polar x c) as [Hx Hc].
  replace (d * d - y * y) with (x * x + c * c) in Hcos by lra.
  rewrite Hcos. repeat split; assumption.
Qed.

(** A point given by distance, longitude and latitude, projected back. *)
Lemma polar_inverse (d theta phi : R) :
  0 < d -> - PI < theta <= PI -> - (PI / 2) < phi < PI / 2 ->
  let x := d * cos phi * sin theta in
  let y := d * sin phi in
  let c := d * cos phi * cos theta in
  sqrt (x * x + y * y + c * c) = d /\
  arctan2 x c = theta /\
  asin (y / d) = phi.
Proof.
  intros Hd Htheta Hphi x y c.
  assert (Hcos : 0 < cos phi) by (apply cos_gt_0; lra).
  pose proof (sin2_cos2 theta) as Ht. pose proof (sin2_cos2 phi) as Hp.
  unfold Rsqr in Ht, Hp.
  repeat split.
  - apply sqrt_lem_1; [| lra |].
    + nra.
    + unfold x, y, c.
      replace (d * cos phi * sin theta * (d * cos phi * sin theta) +
               d * sin phi * (d * sin phi) +
               d * cos phi * cos theta * (d * cos phi * cos theta))
        with (d * d * (cos phi * cos phi * (sin theta * sin theta
                                            + cos theta * cos theta)
                       + sin phi * sin phi)) by ring.
      rewrite Ht. replace (cos phi * cos phi * 1 + sin phi * sin phi) with 1 by lra.
      ring.
  - unfold x, c. apply arctan2_of_polar; [nra | exact Htheta].
  - unfold y. replace (d * sin phi / d) with (sin phi) by (field; lra).
    apply asin_sin. lra.
Qed.

(** Lines 126-140 of [hcc_to_hpc] on one point given in a length unit. *)
Lemma hcc_to_hpc_projection_length (wrap_angle : FrameClass -> R)
    (helioccoord heliopframe : Frame)
    (o : ObserverFrame) (ul u : Unit) (xv yv zv Dv : R) :
  data helioccoord
  = Some (CartesianRepresentation (qty xv ul) (qty yv ul) (qty zv ul)) ->
  observer helioccoord = Some (ObserverCoord o) ->
  obs_radius o = qty Dv u ->
  ldim ul = 1%Z -> adim ul = 0%Z ->
  ldim u = 1%Z -> adim u = 0%Z -> scale u <> 0 ->
  let x := xv * scale ul in
  let y := yv * scale ul in
  let z := zv * scale ul in
  let D := Dv * scale u in
  let distance := sqrt (x * x + y * y + (D - z) * (D - z)) in
  0 < x * x + y * y + (D - z) * (D - z) ->
  hcc_to_hpc_projection wrap_angle helioccoord heliopframe =
  Ok (realize_frame heliopframe
        (Some (SphericalRepresentation
                 (qty (wrap_at (wrap_angle (frame_class heliopframe))
                         (arctan2 x (D - z) * (180 / PI))) deg)
                 (qty (asin (y / distance) * (180 / PI)) deg)
                 (qty (distance / 1000) km)))).
Proof.
  intros Hdata Hobs Hrad Hl1 Hl2 Hu1 Hu2 Hs x y z D distance Hpos.
  apply (hcc_to_hpc_projection_points wrap_angle helioccoord heliopframe o ul u
           (Scalar (xv, yv, zv)) Dv Hdata Hobs Hrad Hl1 Hl2 Hu1 Hu2 Hs).
  intros p [<- | []]. exact Hpos.
Qed.

Lemma hgs_to_hgc_same_obstime (L0 : Z -> R) (wrap_angle : FrameClass -> R)
    (coord frame : Frame) (t : Time) (lon lat distance : Quantity) :
  obstime coord = Some t -> obstime frame = Some t ->
  spherical coord = Ok (lon, lat, distance) ->
  hgs_to_hgc L0 wrap_angle coord frame =
  (c_lon <- qadd lon (mkQ (nd_map L0 t) deg) ;;
   c_lon <- Longitude (wrap_angle (frame_class frame)) c_lon ;;
   Ok (mkFrame (frame_class frame) (Some t) None
         (Some (SphericalRepresentation c_lon lat distance)))).
Proof.
  intros Hc Hf Hsph. unfold hgs_to_hgc. rewrite Hf, Hc.
  change (ne <- obstime_ne (Some t) (Some t) ;; Ok (np_any ne))
    with (obstime_guard (Some t) (Some t)).
  rewrite obstime_guard_same. cbn [bind]. rewrite Hsph.
  unfold _carrington_offset. cbn [bind].
  rewrite to_own_unit by exact deg_scale_nonzero. cbn [bind].
  destruct (qadd lon (mkQ (nd_map L0 t) deg)) as [c_lon | e]; [| reflexivity].
  cbn [bind]. unfold realize_spherical. cbn [frame_class].
  destruct (Longitude (wrap_angle (frame_class frame)) c_lon); reflexivity.
Qed.

Lemma hgc_to_hgs_same_obstime (L0 : Z -> R) (wrap_angle : FrameClass -> R)
    (coord frame : Frame) (t : Time) (lon lat distance : Quantity) :
  obstime coord = Some t -> obstime frame = Some t ->
  spherical coord = Ok (lon, lat, distance) ->
  hgc_to_hgs L0 wrap_angle coord frame =
  (s_lon <- qsub lon (mkQ (nd_map L0 t) deg) ;;
   s_lon <- Longitude (wrap_angle (frame_class frame)) s_lon ;;
   Ok (realize_frame frame
         (Some (SphericalRepresentation s_lon lat distance)))).
Proof.
  intros Hc Hf Hsph. unfold hgc_to_hgs. rewrite Hf, Hc.
  change (ne <- obstime_ne (Some t) (Some t) ;; Ok (np_any ne))
    with (obstime_guard (Some t) (Some t)).
  rewrite obstime_guard_same. cbn [bind]. rewrite Hsph.
  unfold _carrington_offset. cbn [bind].
  rewrite to_own_unit by exact deg_scale_nonzero. cbn [bind].
  destruct (qsub lon (mkQ (nd_map L0 t) deg)) as [s_lon | e]; [| reflexivity].
  cbn [bind]. unfold realize_spherical.
  destruct (Longitude (wrap_angle (frame_class frame)) s_lon); reflexivity.
Qed.

(** A longitude shifted by a scalar offset, held as a [Longitude] at one
    wrap angle, shifted back and held as a [Longitude] at another: the
    longitude itself, held at the second wrap angle. *)
Lemma shift_and_back (w1 w2 : R) (lon : Quantity) (offset : R) :
  ldim (unit lon) = 0%Z -> adim (unit lon) = 1%Z ->
  (shifted <- qadd lon (qty offset deg) ;;
   shown <- Longitude w1 shifted ;;
   back <- qsub shown (qty offset deg) ;;
   Longitude w2 back) = Longitude w2 lon /\
  (shifted <- qsub lon (qty offset deg) ;;
   shown <- Longitude w1 shifted ;;
   back <- qadd shown (qty offset deg) ;;
   Longitude w2 back) = Longitude w2 lon.
Proof.
  destruct lon as [v [s l a]]. cbn [unit ldim adim]. intros -> ->.
  unfold qadd, qsub, qty, to, Longitude.
  cbn [unit value same_dims ldim adim deg Z.eqb Pos.eqb andb bind nd_map scale].
  set (o := offset * (PI / 180 / s)).
  set (k := PI / 180 / s).
  assert (Hadd : forall x,
            wrap_value (w2 * k) (360 * k) (wrap_value (w1 * k) (360 * k) (x + o) - o)
            = wrap_value (w2 * k) (360 * k) x).
  { intros x. unfold Rminus. rewrite wrap_value_wrap. f_equal. ring. }
  assert (Hsub : forall x,
            wrap_value (w2 * k) (360 * k) (wrap_value (w1 * k) (360 * k) (x - o) + o)
            = wrap_value (w2 * k) (360 * k) x).
  { intros x. rewrite wrap_value_wrap. f_equal. ring. }
  destruct v as [x | xs];
    repeat cbn [broadcast2 bind value unit nd_map same_dims ldim adim deg Z.eqb
                Pos.eqb andb scale];
    fold k; fold o.
  - split; do 3 f_equal; [apply Hadd | apply Hsub].
  - split; do 3 f_equal; rewrite !map_map; apply map_ext; intros x;
      [apply Hadd | apply Hsub].
Qed.

(** Stonyhurst to Carrington and back, and the other way round. *)
Lemma stonyhurst_carrington_exact (L0 : Z -> R) (wrap_angle : FrameClass -> R)
    (coord hgsframe hgcframe : Frame) (i : Z) (lon lat distance : Quantity) :
  obstime coord = Some (Scalar i) ->
  obstime hgsframe = Some (Scalar i) ->
  obstime hgcframe = Some (Scalar i) ->
  data coord = Some (SphericalRepresentation lon lat distance) ->
  ldim (unit lon) = 0%Z -> adim (unit lon) = 1%Z ->
  (forall shown,
     Longitude (wrap_angle (frame_class hgsframe)) lon = Ok shown ->
     (hgc <- hgs_to_hgc L0 wrap_angle coord hgcframe ;;
      hgc_to_hgs L0 wrap_angle hgc hgsframe)
     = Ok (realize_frame hgsframe
             (Some (SphericalRepresentation shown lat distance)))) /\
  (forall shown,
     Longitude (wrap_angle (frame_class hgcframe)) lon = Ok shown ->
     (hgs <- hgc_to_hgs L0 wrap_angle coord hgsframe ;;
      hgs_to_hgc L0 wrap_angle hgs hgcframe)
     = Ok (mkFrame (frame_class hgcframe) (Some (Scalar i)) None
             (Some (SphericalRepresentation shown lat distance)))).
Proof.
  intros Hc Hs Hg Hdata Hl Ha.
  assert (Hsph : spherical coord = Ok (lon, lat, distance))
    by (unfold spherical, get_data; now rewrite Hdata).
  set (ws := wrap_angle (frame_class hgsframe)).
  set (wc := wrap_angle (frame_class hgcframe)).
  split; intros shown Hshown.
  - destruct (shift_and_back wc ws lon (L0 i) Hl Ha) as [Hthere _].
    unfold qty in Hthere. rewrite Hshown in Hthere.
    rewrite (hgs_to_hgc_same_obstime L0 wrap_angle coord hgcframe (Scalar i)
               lon lat distance) by assumption.
    cbn [nd_map]. fold wc.
    destruct (qadd lon (mkQ (Scalar (L0 i)) deg)) as [shifted | e];
      [| discriminate].
    cbn [bind] in Hthere |- *.
    destruct (Longitude wc shifted) as [held | e]; [| discriminate].
    cbn [bind] in Hthere |- *.
    rewrite (hgc_to_hgs_same_obstime L0 wrap_angle _ hgsframe (Scalar i)
               held lat distance) by (try assumption; reflexivity).
    cbn [nd_map]. fold ws.
    destruct (qsub held (mkQ (Scalar (L0 i)) deg)) as [back | e];
      [| discriminate].
    cbn [bind] in Hthere |- *. now rewrite Hthere.
  - destruct (shift_and_back ws wc lon (L0 i) Hl Ha) as [_ Hthere].
    unfold qty in Hthere. rewrite Hshown in Hthere.
    rewrite (hgc_to_hgs_same_obstime L0 wrap_angle coord hgsframe (Scalar i)
               lon lat distance) by assumption.
    cbn [nd_map]. fold ws.
    destruct (qsub lon (mkQ (Scalar (L0 i)) deg)) as [shifted | e];
      [| discriminate].
    cbn [bind] in Hthere |- *.
    destruct (Longitude ws shifted) as [held | e]; [| discriminate].
    cbn [bind] in Hthere |- *.
    rewrite (hgs_to_hgc_same_obstime L0 wrap_angle _ hgcframe (Scalar i)
               held lat distance) by (try assumption; reflexivity).
    cbn [nd_map]. fold wc.
    destruct (qadd held (mkQ (Scalar (L0 i)) deg)) as [back | e];
      [| discriminate].
    cbn [bind] in Hthere |- *. now rewrite Hthere.
Qed.

(** X8.  Stonyhurst to Carrington and back, and Carrington to Stonyhurst
    and back, at one scalar obstime shared by the coordinate and both
    frames: the longitude, shifted by [L0] and shifted back, comes back as
    the frame of arrival holds it, whatever the wrap angle of the frame in
    between; a point whose longitude is a [Longitude] of the frame of
    arrival already is returned as it was given. *)
Theorem stonyhurst_carrington_round_trip (L0 : Z -> R)
    (wrap_angle : FrameClass -> R)
    (coord hgsframe hgcframe : Frame) (i : Z) (lon lat distance : Quantity) :
  obstime coord = Some (Scalar i) ->
  obstime hgsframe = Some (Scalar i) ->
  obstime hgcframe = Some (Scalar i) ->
  data coord = Some (SphericalRepresentation lon lat distance) ->
  ldim (unit lon) = 0%Z -> adim (unit lon) = 1%Z ->
  (forall shown,
     Longitude (wrap_angle (frame_class hgsframe)) lon = Ok shown ->
     (hgc <- hgs_to_hgc L0 wrap_angle coord hgcframe ;;
      hgc_to_hgs L0 wrap_angle hgc hgsframe)
     = Ok (realize_frame hgsframe
             (Some (SphericalRepresentation shown lat distance)))) /\
  (forall shown,
     Longitude (wrap_angle (frame_class hgcframe)) lon = Ok shown ->
     (hgs <- hgc_to_hgs L0 wrap_angle coord hgsframe ;;
      hgs_to_hgc L0 wrap_angle hgs hgcframe)
     = Ok (mkFrame (frame_class hgcframe) (Some (Scalar i)) None
             (Some (SphericalRepresentation shown lat distance)))) /\
  (Longitude (wrap_angle (frame_class hgsframe)) lon = Ok lon ->
   (hgc <- hgs_to_hgc L0 wrap_angle coord hgcframe ;;
    hgc_to_hgs L0 wrap_angle hgc hgsframe)
   = Ok (realize_frame hgsframe (data coord))) /\
  (Longitude (wrap_angle (frame_class hgcframe)) lon = Ok lon ->
   (hgs <- hgc_to_hgs L0 wrap_angle coord hgsframe ;;
    hgs_to_hgc L0 wrap_angle hgs hgcframe)
   = Ok (mkFrame (frame_class hgcframe) (Some (Scalar i)) None (data coord))).
Proof.
  intros Hc Hs Hg Hdata Hl Ha.
  destruct (stonyhurst_carrington_exact L0 wrap_angle coord hgsframe hgcframe i
              lon lat distance Hc Hs Hg Hdata Hl Ha) as [Hthere Hback].
  split; [exact Hthere | split; [exact Hback | split]].
  - intros Hheld. rewrite Hdata. now apply Hthere.
  - intros Hheld. rewrite Hdata. now apply Hback.
Qed.

Lemma degrees_radians (a : R) : a * (180 / PI) * (PI / 180) = a.
Proof. field. exact PI_nonzero. Qed.

Lemma sin_wrapped_degrees (w a : R) :
  sin (wrap_at w (a * (180 / PI)) * (PI / 180)) = sin a.
Proof. rewrite sin_wrap_at. now rewrite degrees_radians. Qed.

Lemma cos_wrapped_degrees (w a : R) :
  cos (wrap_at w (a * (180 / PI)) * (PI / 180)) = cos a.
Proof. rewrite cos_wrap_at. now rewrite degrees_radians. Qed.

(** Heliocentric to Helioprojective and back. *)
Lemma hcc_hpc_hcc_exact (calculate_distance : Frame -> result Frame)
    (transform_to : Frame -> Frame -> result Frame)
    (wrap_angle : FrameClass -> R)
    (coord hpcframe hccframe : Frame) (o : ObserverFrame) (ul u : Unit)
    (xv yv zv Dv : R) :
  data coord
  = Some (CartesianRepresentation (qty xv ul) (qty yv ul) (qty zv ul)) ->
  observer coord = Some (ObserverCoord o) ->
  observer hpcframe = Some (ObserverCoord o) ->
  observer hccframe = Some (ObserverCoord o) ->
  _observers_are_equal (ObserverCoord o) (ObserverCoord o) false = Ok true ->
  obs_radius o = qty Dv u ->
  ldim ul = 1%Z -> adim ul = 0%Z ->
  ldim u = 1%Z -> adim u = 0%Z -> scale u <> 0 ->
  (forall hpc, hcc_to_hpc transform_to wrap_angle coord hpcframe = Ok hpc ->
               calculate_distance hpc = Ok hpc) ->
  let x := xv * scale ul in
  let y := yv * scale ul in
  let z := zv * scale ul in
  let D := Dv * scale u in
  0 < x * x + y * y + (D - z) * (D - z) ->
  (hpc <- hcc_to_hpc transform_to wrap_angle coord hpcframe ;;
   hpc_to_hcc calculate_distance transform_to hpc hccframe)
  = Ok (realize_frame hccframe
          (Some (CartesianRepresentation
                   (qty (x / 1000) km) (qty (y / 1000) km) (qty (z / 1000) km)))).
Proof.
  intros Hdata Hobs Hp Hc Hself Hrad Hl1 Hl2 Hu1 Hu2 Hs Hcd x y z D Hpos.
  set (d := sqrt (x * x + y * y + (D - z) * (D - z))).
  set (w := wrap_angle (frame_class hpcframe)).
  set (hpc := realize_frame hpcframe
                (Some (SphericalRepresentation
                         (qty (wrap_at w (arctan2 x (D - z) * (180 / PI))) deg)
                         (qty (asin (y / d) * (180 / PI)) deg)
                         (qty (d / 1000) km)))).
  assert (Hforward : hcc_to_hpc transform_to wrap_angle coord hpcframe = Ok hpc).
  { unfold hcc_to_hpc, get_observer. rewrite Hobs, Hp. cbn [bind].
    rewrite Hself. cbn [bind negb].
    exact (hcc_to_hpc_projection_length wrap_angle coord hpcframe o ul u
             xv yv zv Dv Hdata Hobs Hrad Hl1 Hl2 Hu1 Hu2 Hs Hpos). }
  rewrite Hforward. cbn [bind].
  pose proof (hpc_to_hcc_scalar calculate_distance transform_to hpc hccframe hpc
                (ObserverCoord o) (ObserverCoord o) o deg km u
                (wrap_at w (arctan2 x (D - z) * (180 / PI)))
                (asin (y / d) * (180 / PI))
                (d / 1000) Dv Hp Hc Hself (Hcd hpc Hforward) eq_refl Hp Hrad
                eq_refl eq_refl eq_refl eq_refl Hu1 Hu2) as Hback.
  cbv zeta in Hback. rewrite Hback. cbn [scale deg km].
  rewrite sin_wrapped_degrees, cos_wrapped_degrees, !degrees_radians.
  replace (d / 1000 * 1000) with d by field.
  destruct (projection_inverse x y (D - z) Hpos) as (Hx & Hy & Hz).
  fold d in Hx, Hy, Hz.
  apply (cartesian_point_eq hccframe).
  - now rewrite Hx.
  - now rewrite Hy.
  - fold D. rewrite Hz. f_equal. ring.
Qed.

(** X9.  Heliocentric to Helioprojective and back, for one observer shared
    by the coordinate and both frames, a point [(x, y, z)] that is not at
    the observer, and a [calculate_distance] that leaves the projected
    point (which has a distance) as it is: the Cartesian point is returned,
    expressed in km, whatever the wrap angle of the Helioprojective
    frame. *)
Theorem hcc_hpc_hcc_round_trip (calculate_distance : Frame -> result Frame)
    (transform_to : Frame -> Frame -> result Frame)
    (wrap_angle : FrameClass -> R)
    (coord hpcframe hccframe : Frame) (o : ObserverFrame) (ul u : Unit)
    (xv yv zv Dv : R) :
  data coord
  = Some (CartesianRepresentation (qty xv ul) (qty yv ul) (qty zv ul)) ->
  observer coord = Some (ObserverCoord o) ->
  observer hpcframe = Some (ObserverCoord o) ->
  observer hccframe = Some (ObserverCoord o) ->
  _observers_are_equal (ObserverCoord o) (ObserverCoord o) false = Ok true ->
  obs_radius o = qty Dv u ->
  ldim ul = 1%Z -> adim ul = 0%Z ->
  ldim u = 1%Z -> adim u = 0%Z -> scale u <> 0 ->
  (forall hpc, hcc_to_hpc transform_to wrap_angle coord hpcframe = Ok hpc ->
               calculate_distance hpc = Ok hpc) ->
  let x := xv * scale ul in
  let y := yv * scale ul in
  let z := zv * scale ul in
  let D := Dv * scale u in
  0 < x * x + y * y + (D - z) * (D - z) ->
  (hpc <- hcc_to_hpc transform_to wrap_angle coord hpcframe ;;
   hpc_to_hcc calculate_distance transform_to hpc hccframe)
  = Ok (realize_frame hccframe
          (Some (CartesianRepresentation
                   (qty (x / 1000) km) (qty (y / 1000) km) (qty (z / 1000) km)))).
Proof.
  exact (hcc_hpc_hcc_exact calculate_distance transform_to wrap_angle coord
           hpcframe hccframe o ul u xv yv zv Dv).
Qed.

Lemma degrees_in_range (a lo hi : R) :
  lo < a <= hi -> lo * (PI / 180) < a * (PI / 180) <= hi * (PI / 180).
Proof. pose proof PI_RGT_0. intros [Hlo Hhi]. split; nra. Qed.

Lemma degrees_strictly_in_range (a lo hi : R) :
  lo < a < hi -> lo * (PI / 180) < a * (PI / 180) < hi * (PI / 180).
Proof. pose proof PI_RGT_0. intros [Hlo Hhi]. split; nra. Qed.

(** Helioprojective to Heliocentric and back. *)
Lemma hpc_hcc_hpc_exact (calculate_distance : Frame -> result Frame)
    (transform_to : Frame -> Frame -> result Frame)
    (wrap_angle : FrameClass -> R)
    (coord hccframe hpcframe : Frame) (o : ObserverFrame) (ud u : Unit)
    (Tx Ty dv Dv : R) :
  data coord
  = Some (SphericalRepresentation (qty Tx deg) (qty Ty deg) (qty dv ud)) ->
  observer coord = Some (ObserverCoord o) ->
  observer hccframe = Some (ObserverCoord o) ->
  observer hpcframe = Some (ObserverCoord o) ->
  _observers_are_equal (ObserverCoord o) (ObserverCoord o) false = Ok true ->
  obs_radius o = qty Dv u ->
  ldim ud = 1%Z -> adim ud = 0%Z ->
  ldim u = 1%Z -> adim u = 0%Z -> scale u <> 0 ->
  calculate_distance coord = Ok coord ->
  -180 < Tx <= 180 -> -90 < Ty < 90 -> 0 < dv * scale ud ->
  (hcc <- hpc_to_hcc calculate_distance transform_to coord hccframe ;;
   hcc_to_hpc transform_to wrap_angle hcc hpcframe)
  = Ok (realize_frame hpcframe
          (Some (SphericalRepresentation
                   (qty (wrap_at (wrap_angle (frame_class hpcframe)) Tx) deg)
                   (qty Ty deg) (qty (dv * scale ud / 1000) km)))).
Proof.
  intros Hdata Hobs Hc Hp Hself Hrad Hd1 Hd2 Hu1 Hu2 Hs Hcd HTx HTy Hpos.
  set (x := Tx * (PI / 180)). set (y := Ty * (PI / 180)).
  set (d := dv * scale ud). set (D := Dv * scale u).
  pose proof (hpc_to_hcc_scalar calculate_distance transform_to coord hccframe
                coord (ObserverCoord o) (ObserverCoord o) o deg ud u
                Tx Ty dv Dv Hobs Hc Hself Hcd Hdata Hobs Hrad
                eq_refl eq_refl Hd1 Hd2 Hu1 Hu2) as Hforward.
  cbv zeta in Hforward. cbn [scale deg] in Hforward.
  fold x y d D in Hforward. rewrite Hforward. cbn [bind].
  set (hcc := realize_frame hccframe _).
  unfold hcc_to_hpc, get_observer.
  change (observer hcc) with (observer hccframe). rewrite Hc, Hp. cbn [bind].
  rewrite Hself. cbn [bind negb].
  assert (Hx : - PI < x <= PI).
  { pose proof (degrees_in_range Tx (-180) 180 HTx) as H. unfold x.
    replace (-180 * (PI / 180)) with (- PI) in H by field.
    replace (180 * (PI / 180)) with PI in H by field. exact H. }
  assert (Hy : - (PI / 2) < y < PI / 2).
  { pose proof (degrees_strictly_in_range Ty (-90) 90 HTy) as H. unfold y.
    replace (-90 * (PI / 180)) with (- (PI / 2)) in H by field.
    replace (90 * (PI / 180)) with (PI / 2) in H by field. exact H. }
  destruct (polar_inverse d x y Hpos Hx Hy) as (Hdist & Hlon & Hlat).
  assert (Hoff : 0 < d * cos y * sin x * (d * cos y * sin x)
                     + d * sin y * (d * sin y)
                     + d * cos y * cos x * (d * cos y * cos x)).
  { apply Rnot_le_lt. intros Hle.
    assert (Hzero : sqrt (d * cos y * sin x * (d * cos y * sin x)
                          + d * sin y * (d * sin y)
                          + d * cos y * cos x * (d * cos y * cos x)) = 0)
      by (apply sqrt_neg_0; exact Hle).
    rewrite Hdist in Hzero. fold d in Hpos. lra. }
  pose proof (hcc_to_hpc_projection_length wrap_angle hcc hpcframe o km u
                (d * cos y * sin x / 1000) (d * sin y / 1000)
                ((D - d * cos y * cos x) / 1000) Dv
                eq_refl Hc Hrad eq_refl eq_refl Hu1 Hu2 Hs) as Hback.
  cbv zeta in Hback. cbn [scale km] in Hback. fold D in Hback.
  replace (d * cos y * sin x / 1000 * 1000) with (d * cos y * sin x) in Hback
    by field.
  replace (d * sin y / 1000 * 1000) with (d * sin y) in Hback by field.
  replace (D - (D - d * cos y * cos x) / 1000 * 1000) with (d * cos y * cos x)
    in Hback by field.
  rewrite (Hback Hoff).
  rewrite Hdist, Hlon, Hlat. unfold x, y.
  apply (spherical_point_eq hpcframe); [f_equal | |]; field; exact PI_nonzero.
Qed.

(** X10.  Helioprojective to Heliocentric and back, for one observer shared
    by the coordinate and both frames, a point with longitude in
    (-180, 180], latitude strictly between -90 and 90 degrees and a positive
    distance that [calculate_distance] leaves as it is: the latitude is
    returned as given, the distance expressed in km, and the longitude as
    the Helioprojective frame holds it, which is the longitude given when
    that lies in the turn that ends at the wrap angle of the frame. *)
Theorem hpc_hcc_hpc_round_trip (calculate_distance : Frame -> result Frame)
    (transform_to : Frame -> Frame -> result Frame)
    (wrap_angle : FrameClass -> R)
    (coord hccframe hpcframe : Frame) (o : ObserverFrame) (ud u : Unit)
    (Tx Ty dv Dv : R) :
  data coord
  = Some (SphericalRepresentation (qty Tx deg) (qty Ty deg) (qty dv ud)) ->
  observer coord = Some (ObserverCoord o) ->
  observer hccframe = Some (ObserverCoord o) ->
  observer hpcframe = Some (ObserverCoord o) ->
  _observers_are_equal (ObserverCoord o) (ObserverCoord o) false = Ok true ->
  obs_radius o = qty Dv u ->
  ldim ud = 1%Z -> adim ud = 0%Z ->
  ldim u = 1%Z -> adim u = 0%Z -> scale u <> 0 ->
  calculate_distance coord = Ok coord ->
  -180 < Tx <= 180 -> -90 < Ty < 90 -> 0 < dv * scale ud ->
  let w := wrap_angle (frame_class hpcframe) in
  (hcc <- hpc_to_hcc calculate_distance transform_to coord hccframe ;;
   hcc_to_hpc transform_to wrap_angle hcc hpcframe)
  = Ok (realize_frame hpcframe
          (Some (SphericalRepresentation
                   (qty (wrap_at w Tx) deg)
                   (qty Ty deg) (qty (dv * scale ud / 1000) km)))) /\
  (w - 360 <= Tx < w ->
   (hcc <- hpc_to_hcc calculate_distance transform_to coord hccframe ;;
    hcc_to_hpc transform_to wrap_angle hcc hpcframe)
   = Ok (realize_frame hpcframe
           (Some (SphericalRepresentation
                    (qty Tx deg) (qty Ty deg)
                    (qty (dv * scale ud / 1000) km))))).
Proof.
  intros Hdata Hobs Hc Hp Hself Hrad Hd1 Hd2 Hu1 Hu2 Hs Hcd HTx HTy Hpos w.
  pose proof (hpc_hcc_hpc_exact calculate_distance transform_to wrap_angle
                coord hccframe hpcframe o ud u Tx Ty dv Dv Hdata Hobs Hc Hp
                Hself Hrad Hd1 Hd2 Hu1 Hu2 Hs Hcd HTx HTy Hpos) as Hround.
  fold w in Hround. split; [exact Hround |].
  intros Hturn. rewrite Hround. now rewrite (wrap_at_id w Tx Hturn).
Qed.

(** The rotation by the observer's latitude [b] keeps lengths and is undone
    by the opposite rotation. *)
Lemma tilt_keeps_norm (x y z b : R) :
  x * x + (y * cos b + z * sin b) * (y * cos b + z * sin b)
  + (z * cos b - y * sin b) * (z * cos b - y * sin b)
  = x * x + y * y + z * z.
Proof.
  pose proof (sin2_cos2 b) as H. unfold Rsqr in H.
  replace (x * x + (y * cos b + z * sin b) * (y * cos b + z * sin b)
           + (z * cos b - y * sin b) * (z * cos b - y * sin b))
    with (x * x + (y * y + z * z) * (sin b * sin b + cos b * cos b)) by ring.
  rewrite H. ring.
Qed.

Lemma tilt_back (w c b : R) :
  (w * cos b - c * sin b) * cos b + (w * sin b + c * cos b) * sin b = w /\
  (w * sin b + c * cos b) * cos b - (w * cos b - c * sin b) * sin b = c.
Proof.
  pose proof (sin2_cos2 b) as H. unfold Rsqr in H. split.
  - replace ((w * cos b - c * sin b) * cos b + (w * sin b + c * cos b) * sin b)
      with (w * (sin b * sin b + cos b * cos b)) by ring.
    rewrite H. ring.
  - replace ((w * sin b + c * cos b) * cos b - (w * cos b - c * sin b) * sin b)
      with (c * (sin b * sin b + cos b * cos b)) by ring.
    rewrite H. ring.
Qed.

(** Heliocentric to Stonyhurst and back. *)
Lemma hcc_hgs_hcc_exact (RSUN_METERS : R) (wrap_angle : FrameClass -> R)
    (coord hgsframe hccframe : Frame) (o : ObserverFrame) (ul : Unit)
    (xv yv zv l0 b0 : R) :
  data coord
  = Some (CartesianRepresentation (qty xv ul) (qty yv ul) (qty zv ul)) ->
  observer coord = Some (ObserverCoord o) ->
  observer hccframe = Some (ObserverCoord o) ->
  obs_lon o = qty l0 deg -> obs_lat o = qty b0 deg ->
  ldim ul = 1%Z -> adim ul = 0%Z ->
  let x := xv * scale ul in
  let y := yv * scale ul in
  let z := zv * scale ul in
  0 < x * x + y * y + z * z ->
  (hgs <- hcc_to_hgs wrap_angle coord hgsframe ;;
   hgs_to_hcc RSUN_METERS hgs hccframe)
  = Ok (realize_frame hccframe
          (Some (CartesianRepresentation
                   (qty (x / 1000) km) (qty (y / 1000) km) (qty (z / 1000) km)))).
Proof.
  intros Hdata Hobs Hc Hlon Hlat Hl1 Hl2 x y z Hpos.
  set (b := b0 * (PI / 180)).
  set (w := y * cos b + z * sin b). set (c := z * cos b - y * sin b).
  set (r := sqrt (x * x + y * y + z * z)).
  set (turn := wrap_angle (frame_class hgsframe)).
  pose proof (hcc_to_hgs_scalar wrap_angle coord hgsframe o ul xv yv zv l0 b0
                Hdata Hobs Hlon Hlat Hl1 Hl2 Hpos) as Hforward.
  cbv zeta in Hforward. fold x y z b in Hforward. fold w c r turn in Hforward.
  rewrite Hforward. cbn [bind].
  set (hgs := realize_frame hgsframe _).
  pose proof (hgs_to_hcc_scalar RSUN_METERS hgs hccframe o km
                (wrap_at turn ((arctan2 x c + l0 * (PI / 180)) * (180 / PI)))
                (asin (w / r) * (180 / PI)) (r / 1000) l0 b0
                eq_refl Hc Hlon Hlat eq_refl eq_refl) as Hback.
  cbv zeta in Hback. cbn [scale km] in Hback. fold b in Hback.
  rewrite Hback.
  destruct (wrap_at_turns turn ((arctan2 x c + l0 * (PI / 180)) * (180 / PI)))
    as [k ->].
  replace (((arctan2 x c + l0 * (PI / 180)) * (180 / PI) - IZR k * 360 - l0)
           * (PI / 180))
    with (arctan2 x c - IZR k * (2 * PI)) by (field; exact PI_nonzero).
  rewrite sin_turns, cos_turns.
  rewrite degrees_radians.
  replace (r / 1000 * 1000) with r by field.
  assert (Hnorm : x * x + w * w + c * c = x * x + y * y + z * z)
    by apply tilt_keeps_norm.
  assert (Hpos' : 0 < x * x + w * w + c * c) by lra.
  destruct (projection_inverse x w c Hpos') as (Hx & Hw & Hc').
  rewrite Hnorm in Hx, Hw, Hc'. fold r in Hx, Hw, Hc'.
  destruct (tilt_back y z b) as [Hty Htz].
  set (sl := sin (asin (w / r))) in *. set (cl := cos (asin (w / r))) in *.
  set (sa := sin (arctan2 x c)) in *. set (ca := cos (arctan2 x c)) in *.
  apply (cartesian_point_eq hccframe).
  - now rewrite Hx.
  - replace (r * (sl * cos b - cl * ca * sin b))
      with ((r * sl) * cos b - (r * cl * ca) * sin b) by ring.
    rewrite Hw, Hc'. unfold w, c.
    pose proof (sin2_cos2 b) as H. unfold Rsqr in H. f_equal. nra.
  - replace (r * (sl * sin b + cl * ca * cos b))
      with ((r * sl) * sin b + (r * cl * ca) * cos b) by ring.
    rewrite Hw, Hc'. unfold w, c.
    pose proof (sin2_cos2 b) as H. unfold Rsqr in H. f_equal. nra.
Qed.

(** X11.  Heliocentric to Stonyhurst and back, the destination Heliocentric
    frame carrying the observer of the coordinate, for a point other than
    the centre of the Sun: the Cartesian point is returned, expressed in
    km, whatever the wrap angle of the Stonyhurst frame. *)
Theorem hcc_hgs_hcc_round_trip (RSUN_METERS : R) (wrap_angle : FrameClass -> R)
    (coord hgsframe hccframe : Frame) (o : ObserverFrame) (ul : Unit)
    (xv yv zv l0 b0 : R) :
  data coord
  = Some (CartesianRepresentation (qty xv ul) (qty yv ul) (qty zv ul)) ->
  observer coord = Some (ObserverCoord o) ->
  observer hccframe = Some (ObserverCoord o) ->
  obs_lon o = qty l0 deg -> obs_lat o = qty b0 deg ->
  ldim ul = 1%Z -> adim ul = 0%Z ->
  let x := xv * scale ul in
  let y := yv * scale ul in
  let z := zv * scale ul in
  0 < x * x + y * y + z * z ->
  (hgs <- hcc_to_hgs wrap_angle coord hgsframe ;;
   hgs_to_hcc RSUN_METERS hgs hccframe)
  = Ok (realize_frame hccframe
          (Some (CartesianRepresentation
                   (qty (x / 1000) km) (qty (y / 1000) km) (qty (z / 1000) km)))).
Proof.
  exact (hcc_hgs_hcc_exact RSUN_METERS wrap_angle coord hgsframe hccframe o ul
           xv yv zv l0 b0).
Qed.

(** Lines 222-250 of [hgs_to_hcc] on one point, the radial distance in a
    length unit. *)
Lemma hgs_to_hcc_cartesian_length (heliocframe : Frame) (o : ObserverFrame)
    (ul : Unit) (hglon hglat rv l0 b0 : R) :
  observer heliocframe = Some (ObserverCoord o) ->
  obs_lon o = qty l0 deg -> obs_lat o = qty b0 deg ->
  ldim ul = 1%Z -> adim ul = 0%Z ->
  let lon := (hglon - l0) * (PI / 180) in
  let lat := hglat * (PI / 180) in
  let b := b0 * (PI / 180) in
  let r := rv * scale ul in
  hgs_to_hcc_cartesian (qty hglon deg) (qty hglat deg) (qty rv ul) heliocframe =
  Ok (realize_frame heliocframe
        (Some (CartesianRepresentation
                 (qty (r * cos lat * sin lon / 1000) km)
                 (qty (r * (sin lat * cos b - cos lat * cos lon * sin b) / 1000) km)
                 (qty (r * (sin lat * sin b + cos lat * cos lon * cos b) / 1000) km)))).
Proof.
  intros Hobs Hlon Hlat Hl Ha lon lat b r.
  destruct heliocframe as [cls t ob d]. cbn [observer] in Hobs. subst ob.
  destruct o as [id la lo ra]. cbn [obs_lon obs_lat] in Hlon, Hlat. subst la lo.
  destruct ul as [s l a]. cbn [ldim adim scale] in *. subst l a.
  run. norm_units.
  replace (hglon * (PI / 180) - l0 * (PI / 180)) with ((hglon - l0) * (PI / 180))
    by ring.
  apply (cartesian_point_eq
           (mkFrame cls t (Some (ObserverCoord
                                   (mkObserver id (qty b0 deg) (qty l0 deg) ra)))
              d));
    field.
Qed.

(** Lines 222-250 of [hgs_to_hcc] followed by [hcc_to_hgs]. *)
Lemma hgs_hcc_hgs_cartesian (wrap_angle : FrameClass -> R)
    (hccframe hgsframe : Frame) (o : ObserverFrame)
    (ul : Unit) (hglon hglat rv l0 b0 : R) :
  observer hccframe = Some (ObserverCoord o) ->
  obs_lon o = qty l0 deg -> obs_lat o = qty b0 deg ->
  ldim ul = 1%Z -> adim ul = 0%Z ->
  0 < rv * scale ul -> -90 < hglat < 90 -> -180 < hglon - l0 <= 180 ->
  (hcc <- hgs_to_hcc_cartesian (qty hglon deg) (qty hglat deg) (qty rv ul)
            hccframe ;;
   hcc_to_hgs wrap_angle hcc hgsframe)
  = Ok (realize_frame hgsframe
          (Some (SphericalRepresentation
                   (qty (wrap_at (wrap_angle (frame_class hgsframe)) hglon) deg)
                   (qty hglat deg)
                   (qty (rv * scale ul / 1000) km)))).
Proof.
  intros Hc Hlon Hlat Hl1 Hl2 Hpos Hlat_range Hlon_range.
  set (lon := (hglon - l0) * (PI / 180)). set (lat := hglat * (PI / 180)).
  set (b := b0 * (PI / 180)). set (r := rv * scale ul).
  pose proof (hgs_to_hcc_cartesian_length hccframe o ul hglon hglat rv l0 b0
                Hc Hlon Hlat Hl1 Hl2) as Hforward.
  cbv zeta in Hforward. fold lon lat b r in Hforward.
  rewrite Hforward. cbn [bind].
  set (w := r * sin lat). set (c := r * cos lat * cos lon).
  set (x := r * cos lat * sin lon).
  replace (r * (sin lat * cos b - cos lat * cos lon * sin b))
    with (w * cos b - c * sin b) by (unfold w, c; ring).
  replace (r * (sin lat * sin b + cos lat * cos lon * cos b))
    with (w * sin b + c * cos b) by (unfold w, c; ring).
  set (hcc := realize_frame hccframe _).
  assert (Hlon' : - PI < lon <= PI).
  { pose proof (degrees_in_range (hglon - l0) (-180) 180 Hlon_range) as H.
    unfold lon.
    replace (-180 * (PI / 180)) with (- PI) in H by field.
    replace (180 * (PI / 180)) with PI in H by field. exact H. }
  assert (Hlat' : - (PI / 2) < lat < PI / 2).
  { pose proof (degrees_strictly_in_range hglat (-90) 90 Hlat_range) as H.
    unfold lat.
    replace (-90 * (PI / 180)) with (- (PI / 2)) in H by field.
    replace (90 * (PI / 180)) with (PI / 2) in H by field. exact H. }
  fold r in Hpos.
  destruct (polar_inverse r lon lat Hpos Hlon' Hlat') as (Hdist & Hlon2 & Hlat2).
  fold x w c in Hdist, Hlon2, Hlat2. fold w in Hlat2.
  destruct (tilt_back w c b) as [Hw Hc'].
  pose proof (tilt_keeps_norm x (w * cos b - c * sin b) (w * sin b + c * cos b) b)
    as Hnorm.
  rewrite Hw, Hc' in Hnorm.
  assert (Hoff : 0 < x * x + (w * cos b - c * sin b) * (w * cos b - c * sin b)
                     + (w * sin b + c * cos b) * (w * sin b + c * cos b)).
  { rewrite <- Hnorm. apply Rnot_le_lt. intros Hle.
    apply sqrt_neg_0 in Hle. rewrite Hdist in Hle. lra. }
  pose proof (hcc_to_hgs_scalar wrap_angle hcc hgsframe o km
                (x / 1000) ((w * cos b - c * sin b) / 1000)
                ((w * sin b + c * cos b) / 1000) l0 b0
                eq_refl Hc Hlon Hlat eq_refl eq_refl) as Hback.
  cbv zeta in Hback. cbn [scale km] in Hback. fold b in Hback.
  replace (x / 1000 * 1000) with x in Hback by field.
  replace ((w * cos b - c * sin b) / 1000 * 1000) with (w * cos b - c * sin b)
    in Hback by field.
  replace ((w * sin b + c * cos b) / 1000 * 1000) with (w * sin b + c * cos b)
    in Hback by field.
  rewrite (Hback Hoff).
  rewrite <- Hnorm. rewrite Hw, Hc'.
  rewrite Hdist, Hlon2, Hlat2. unfold lon, lat.
  apply (spherical_point_eq hgsframe); [f_equal | |]; field; exact PI_nonzero.
Qed.

Lemma allclose_to_one (v : R) :
  Rabs (v - 1) <= 1 / 100000 -> allclose (qty v one) (qty 1 one) = Ok true.
Proof.
  intros Hv.
  change (allclose (qty v one) (qty 1 one))
    with (Ok (A := bool) (isclose (v * (1 / 1)) 1 && true)).
  unfold isclose, rtol.
  replace (v * (1 / 1) - 1) with (v - 1) by field.
  replace (1 / 100000 * Rabs 1) with (1 / 100000) by (rewrite Rabs_R1; field).
  destruct (Rle_dec (Rabs (v - 1)) (1 / 100000)); [reflexivity | contradiction].
Qed.

(** Stonyhurst to Heliocentric and back, the distance in a length unit. *)
Lemma hgs_hcc_hgs_exact (RSUN_METERS : R) (wrap_angle : FrameClass -> R)
    (coord hccframe hgsframe : Frame) (o : ObserverFrame) (ul : Unit)
    (hglon hglat rv l0 b0 : R) :
  data coord
  = Some (SphericalRepresentation (qty hglon deg) (qty hglat deg) (qty rv ul)) ->
  observer hccframe = Some (ObserverCoord o) ->
  obs_lon o = qty l0 deg -> obs_lat o = qty b0 deg ->
  ldim ul = 1%Z -> adim ul = 0%Z ->
  0 < rv * scale ul -> -90 < hglat < 90 -> -180 < hglon - l0 <= 180 ->
  (hcc <- hgs_to_hcc RSUN_METERS coord hccframe ;;
   hcc_to_hgs wrap_angle hcc hgsframe)
  = Ok (realize_frame hgsframe
          (Some (SphericalRepresentation
                   (qty (wrap_at (wrap_angle (frame_class hgsframe)) hglon) deg)
                   (qty hglat deg)
                   (qty (rv * scale ul / 1000) km)))).
Proof.
  intros Hdata Hc Hlon Hlat Hl1 Hl2 Hpos Hlat_range Hlon_range.
  unfold hgs_to_hcc, spherical, get_data. rewrite Hdata.
  cbn [bind represent_as_spherical].
  rewrite given_radius by (left; apply is_one_length; exact Hl1).
  cbn [bind].
  exact (hgs_hcc_hgs_cartesian wrap_angle hccframe hgsframe o ul hglon hglat rv
           l0 b0 Hc Hlon Hlat Hl1 Hl2 Hpos Hlat_range Hlon_range).
Qed.

(** X12.  Stonyhurst to Heliocentric and back, for a point with a positive
    radial distance in a length unit, latitude strictly between -90 and 90
    degrees and longitude within (-180, 180] degrees of the observer's:
    the latitude is returned as given, the distance expressed in km, and
    the longitude as the Stonyhurst frame holds it, which is the longitude
    given when that lies in the turn that ends at the wrap angle of the
    frame. *)
Theorem hgs_hcc_hgs_round_trip (RSUN_METERS : R) (wrap_angle : FrameClass -> R)
    (coord hccframe hgsframe : Frame) (o : ObserverFrame) (ul : Unit)
    (hglon hglat rv l0 b0 : R) :
  data coord
  = Some (SphericalRepresentation (qty hglon deg) (qty hglat deg) (qty rv ul)) ->
  observer hccframe = Some (ObserverCoord o) ->
  obs_lon o = qty l0 deg -> obs_lat o = qty b0 deg ->
  ldim ul = 1%Z -> adim ul = 0%Z ->
  0 < rv * scale ul -> -90 < hglat < 90 -> -180 < hglon - l0 <= 180 ->
  let w := wrap_angle (frame_class hgsframe) in
  (hcc <- hgs_to_hcc RSUN_METERS coord hccframe ;;
   hcc_to_hgs wrap_angle hcc hgsframe)
  = Ok (realize_frame hgsframe
          (Some (SphericalRepresentation
                   (qty (wrap_at w hglon) deg) (qty hglat deg)
                   (qty (rv * scale ul / 1000) km)))) /\
  (w - 360 <= hglon < w ->
   (hcc <- hgs_to_hcc RSUN_METERS coord hccframe ;;
    hcc_to_hgs wrap_angle hcc hgsframe)
   = Ok (realize_frame hgsframe
           (Some (SphericalRepresentation
                    (qty hglon deg) (qty hglat deg)
                    (qty (rv * scale ul / 1000) km))))).
Proof.
  intros Hdata Hc Hlon Hlat Hl1 Hl2 Hpos Hlat_range Hlon_range w.
  pose proof (hgs_hcc_hgs_exact RSUN_METERS wrap_angle coord hccframe hgsframe
                o ul hglon hglat rv l0 b0 Hdata Hc Hlon Hlat Hl1 Hl2 Hpos
                Hlat_range Hlon_range) as Hround.
  fold w in Hround. split; [exact Hround |].
  intros Hturn. rewrite Hround. now rewrite (wrap_at_id w hglon Hturn).
Qed.

(** Stonyhurst to Heliocentric and back, from the unit sphere. *)
Lemma unit_sphere_exact (RSUN_METERS : R) (wrap_angle : FrameClass -> R)
    (coord hccframe hgsframe : Frame) (o : ObserverFrame)
    (hglon hglat v l0 b0 : R) :
  spherical coord = Ok (qty hglon deg, qty hglat deg, qty v one) ->
  Rabs (v - 1) <= 1 / 100000 ->
  observer hccframe = Some (ObserverCoord o) ->
  obs_lon o = qty l0 deg -> obs_lat o = qty b0 deg ->
  0 < RSUN_METERS -> -90 < hglat < 90 -> -180 < hglon - l0 <= 180 ->
  (hcc <- hgs_to_hcc RSUN_METERS coord hccframe ;;
   hcc_to_hgs wrap_angle hcc hgsframe)
  = Ok (realize_frame hgsframe
          (Some (SphericalRepresentation
                   (qty (wrap_at (wrap_angle (frame_class hgsframe)) hglon) deg)
                   (qty hglat deg)
                   (qty (RSUN_METERS / 1000) km)))).
Proof.
  intros Hsph Hv Hc Hlon Hlat Hpos Hlat_range Hlon_range.
  unfold hgs_to_hcc. rewrite Hsph. cbn [bind].
  rewrite (unit_sphere_radius RSUN_METERS (qty v one) is_one_one
             (allclose_to_one v Hv)).
  cbn [bind qty value nd_map].
  pose proof (hgs_hcc_hgs_cartesian wrap_angle hccframe hgsframe o m hglon hglat
                RSUN_METERS l0 b0 Hc Hlon Hlat eq_refl eq_refl) as H.
  cbn [scale m] in H. rewrite Rmult_1_r in H.
  exact (H Hpos Hlat_range Hlon_range).
Qed.

(** X13.  A Stonyhurst point on the unit sphere - its distance reads as a
    dimensionless number within 1e-5 of 1, as for a direction without
    distance - does not come back as given: Stonyhurst to Heliocentric and
    back returns its latitude and its longitude (as the Stonyhurst frame
    holds it, the longitude given when that lies in the turn that ends at
    the wrap angle of the frame) at one solar radius, in km. *)
Theorem unit_sphere_round_trip (RSUN_METERS : R) (wrap_angle : FrameClass -> R)
    (coord hccframe hgsframe : Frame) (o : ObserverFrame)
    (hglon hglat v l0 b0 : R) :
  spherical coord = Ok (qty hglon deg, qty hglat deg, qty v one) ->
  Rabs (v - 1) <= 1 / 100000 ->
  observer hccframe = Some (ObserverCoord o) ->
  obs_lon o = qty l0 deg -> obs_lat o = qty b0 deg ->
  0 < RSUN_METERS -> -90 < hglat < 90 -> -180 < hglon - l0 <= 180 ->
  let w := wrap_angle (frame_class hgsframe) in
  (hcc <- hgs_to_hcc RSUN_METERS coord hccframe ;;
   hcc_to_hgs wrap_angle hcc hgsframe)
  = Ok (realize_frame hgsframe
          (Some (SphericalRepresentation
                   (qty (wrap_at w hglon) deg) (qty hglat deg)
                   (qty (RSUN_METERS / 1000) km)))) /\
  (w - 360 <= hglon < w ->
   (hcc <- hgs_to_hcc RSUN_METERS coord hccframe ;;
    hcc_to_hgs wrap_angle hcc hgsframe)
   = Ok (realize_frame hgsframe
           (Some (SphericalRepresentation
                    (qty hglon deg) (qty hglat deg)
                    (qty (RSUN_METERS / 1000) km))))).
Proof.
  intros Hsph Hv Hc Hlon Hlat Hpos Hlat_range Hlon_range w.
  pose proof (unit_sphere_exact RSUN_METERS wrap_angle coord hccframe hgsframe
                o hglon hglat v l0 b0 Hsph Hv Hc Hlon Hlat Hpos Hlat_range
                Hlon_range) as Hround.
  fold w in Hround. split; [exact Hround |].
  intros Hturn. rewrite Hround. now rewrite (wrap_at_id w hglon Hturn).
Qed.

(** ** Round trips between the frame pairs *)


(** ** The affine transformation: what the matrix and the offset depend on *)

Lemma obstime_ne_same (t : Time) :
  exists ne, obstime_ne (Some t) (Some t) = Ok ne /\ np_any ne = false.
Proof.
  unfold obstime_ne, np_any. destruct t as [i | l]; cbn [broadcast2].
  - eexists. split; [reflexivity |]. cbn. now rewrite Z.eqb_refl.
  - rewrite Nat.eqb_refl. eexists. split; [reflexivity |].
    cbn [elements]. apply zip_with_ne_refl.
Qed.

(** The matrix part of [hcrs_to_hgs], and the rest of the function. *)
Lemma hcrs_to_hgs_rotation (get_body_barycentric : string -> Z -> vec3)
    (rotation_matrix : R -> vec3 -> mat3) (hcrscoord hgsframe : Frame) (t : Time) :
  obstime hgsframe = Some t ->
  elements t <> [] ->
  hcrs_to_hgs get_body_barycentric rotation_matrix hcrscoord hgsframe =
  (let total_matrix :=
     nd_map (hgs_rotation get_body_barycentric rotation_matrix) t in
   ne <- obstime_ne (obstime hcrscoord) (Some t) ;;
   offset <- (if np_any ne
              then
                match obstime hcrscoord with
                | None => Raise (AttributeError "tdb")
                | Some t_old =>
                    offset_icrf <-
                      broadcast2 vsub
                        (nd_map (get_body_barycentric "sun") t)
                        (nd_map (get_body_barycentric "sun") t_old) ;;
                    broadcast2 transform total_matrix offset_icrf
                end
              else Ok (Scalar (mkVec 0 0 0))) ;;
   Ok (total_matrix, offset)).
Proof.
  intros Ht Hne. unfold hcrs_to_hgs. rewrite Ht.
  rewrite broadcast2_same_shape. cbn [bind].
  destruct t as [i | l]; cbn [nd_map bind].
  - reflexivity.
  - destruct l as [| i l]; [now destruct Hne |].
    unfold np_stack. cbn [map bind nd_map]. unfold hgs_rotation.
    rewrite !map_map. reflexivity.
Qed.

(** X14.  Whatever the obstime of the HCRS side, the matrix (or stack of
    matrices) that [hcrs_to_hgs] returns is determined by the obstime of
    the Stonyhurst frame alone: every other call for the same Stonyhurst
    obstime returns the same matrices, and these are, instant by instant,
    the matrices that [hcrs_to_hgs] returns for the scalar obstimes, so
    that an array obstime gives exactly the stack of the matrices of its
    instants taken one by one. *)
Theorem hcrs_to_hgs_matrix_per_instant
    (get_body_barycentric : string -> Z -> vec3)
    (rotation_matrix : R -> vec3 -> mat3) (hcrscoord hgsframe : Frame)
    (t : Time) (M : nd mat3) (off : nd vec3) :
  obstime hgsframe = Some t ->
  hcrs_to_hgs get_body_barycentric rotation_matrix hcrscoord hgsframe
  = Ok (M, off) ->
  (forall hcrscoord' hgsframe' M' off',
     obstime hgsframe' = Some t ->
     hcrs_to_hgs get_body_barycentric rotation_matrix hcrscoord' hgsframe'
     = Ok (M', off') ->
     M' = M) /\
  exists per_instant : Z -> mat3,
    (forall i,
       hcrs_to_hgs get_body_barycentric rotation_matrix
         (mkFrame HCRS (Some (Scalar i)) None None)
         (mkFrame HeliographicStonyhurst (Some (Scalar i)) None None)
       = Ok (Scalar (per_instant i), Scalar (mkVec 0 0 0))) /\
    (forall i, t = Scalar i -> M = Scalar (per_instant i)) /\
    (forall l, t = Array l -> M = Array (map per_instant l)).
Proof.
  intros Ht H.
  assert (Hne : elements t <> []).
  { destruct t as [i | [| i l]]; cbn; try discriminate.
    exfalso. unfold hcrs_to_hgs in H. rewrite Ht in H. cbn in H. discriminate. }
  rewrite (hcrs_to_hgs_rotation _ _ _ _ t Ht Hne) in H. cbv zeta in H.
  apply bind_pair_fst in H. subst M.
  split.
  - intros hcrscoord' hgsframe' M' off' Ht' H'.
    rewrite (hcrs_to_hgs_rotation _ _ _ _ t Ht' Hne) in H'. cbv zeta in H'.
    now apply bind_pair_fst in H'.
  - exists (hgs_rotation get_body_barycentric rotation_matrix).
    split; [| split; intros ? ->; reflexivity].
    intros i.
    rewrite (hcrs_to_hgs_rotation get_body_barycentric rotation_matrix
               (mkFrame HCRS (Some (Scalar i)) None None)
               (mkFrame HeliographicStonyhurst (Some (Scalar i)) None None)
               (Scalar i) eq_refl)
      by (cbn; discriminate).
    cbv zeta.
    change (obstime (mkFrame HCRS (Some (Scalar i)) None None))
      with (Some (Scalar i)).
    unfold obstime_ne, np_any. cbn [broadcast2 bind elements existsb].
    rewrite Z.eqb_refl. reflexivity.
Qed.

(** X15.  When the two obstimes are the same the transformation is a pure
    rotation in both directions: [hcrs_to_hgs] returns the offset
    [(0, 0, 0)], no position of the Sun at another instant being looked up,
    and every offset that [hgs_to_hcrs] returns is [(0, 0, 0)] as well. *)
Theorem hcrs_hgs_same_obstime_pure_rotation
    (get_body_barycentric : string -> Z -> vec3)
    (rotation_matrix : R -> vec3 -> mat3) (hcrs hgs : Frame) (t : Time) :
  obstime hcrs = Some t ->
  obstime hgs = Some t ->
  elements t <> [] ->
  let M := nd_map (hgs_rotation get_body_barycentric rotation_matrix) t in
  hcrs_to_hgs get_body_barycentric rotation_matrix hcrs hgs
  = Ok (M, Scalar (mkVec 0 0 0)) /\
  hgs_to_hcrs get_body_barycentric rotation_matrix hgs hcrs
  = Ok (nd_map matrix_transpose M,
        nd_map (fun _ => mkVec 0 0 0) M).
Proof.
  intros Hc Hg Hne M.
  assert (Hforward : hcrs_to_hgs get_body_barycentric rotation_matrix hcrs hgs
                     = Ok (M, Scalar (mkVec 0 0 0))).
  { rewrite (hcrs_to_hgs_rotation _ _ _ _ t Hg Hne). cbv zeta. rewrite Hc.
    destruct (obstime_ne_same t) as (ne & Hne1 & Hne2).
    rewrite Hne1. cbn [bind]. rewrite Hne2. reflexivity. }
  split; [exact Hforward |].
  unfold hgs_to_hcrs. rewrite Hforward. cbn [bind nd_map].
  assert (Hzero : forall a, transform a (vneg (mkVec 0 0 0)) = mkVec 0 0 0).
  { intros a. unfold transform, vneg. cbn. f_equal; ring. }
  destruct M as [a | l]; cbn [nd_map broadcast2 bind].
  - now rewrite Hzero.
  - do 3 f_equal. rewrite !map_map. apply map_ext. intros a. apply Hzero.
Qed.

Lemma shape_nd_map {A B : Type} (f : A -> B) (a : nd A) :
  shape (nd_map f a) = shape a.
Proof. destruct a; cbn; [reflexivity | now rewrite length_map]. Qed.

Lemma zip_with_length {A B C : Type} (f : A -> B -> C) (l1 : list A) (l2 : list B) :
  List.length l1 = List.length l2 ->
  List.length (zip_with f l1 l2) = List.length l1.
Proof.
  revert l2. induction l1 as [| x l1 IH]; intros [| y l2]; cbn; try discriminate;
    [reflexivity |].
  intros [= H]. now rewrite IH.
Qed.

Lemma broadcast2_returns {A B C : Type} (f : A -> B -> C) (a : nd A) (b : nd B) :
  broadcastable (shape a) (shape b) ->
  exists c, broadcast2 f a b = Ok c /\
            shape c = broadcast_shape (shape a) (shape b).
Proof.
  destruct a as [x | l1], b as [y | l2]; cbn [shape broadcastable broadcast2
                                              broadcast_shape]; intros H.
  - eauto.
  - eexists. split; [reflexivity |]. cbn. now rewrite length_map.
  - eexists. split; [reflexivity |]. cbn. now rewrite length_map.
  - destruct (Nat.eqb (List.length l1) (List.length l2)) eqn:E.
    + apply Nat.eqb_eq in E. eexists. split; [reflexivity |]. cbn.
      now rewrite zip_with_length.
    + apply Nat.eqb_neq in E. destruct H as [H | [H | H]]; [contradiction | |].
      * destruct l1 as [| x [| x' l1]]; try discriminate.
        eexists. split; [reflexivity |]. cbn. now rewrite length_map.
      * destruct l2 as [| y [| y' l2]]; try discriminate.
        destruct l1 as [| x [| x' l1]]; cbn in E; try contradiction;
          (eexists; split; [reflexivity |]); cbn; rewrite ?length_map;
          reflexivity.
Qed.

Lemma broadcast2_needs {A B C : Type} (f : A -> B -> C) (a : nd A) (b : nd B) :
  returns (broadcast2 f a b) -> broadcastable (shape a) (shape b).
Proof.
  destruct a as [x | l1], b as [y | l2]; cbn [shape broadcastable broadcast2];
    try tauto.
  intros [c H]. destruct (Nat.eqb (List.length l1) (List.length l2)) eqn:E.
  - apply Nat.eqb_eq in E. now left.
  - destruct l1 as [| x [| x' l1]], l2 as [| y [| y' l2]]; cbn; try discriminate;
      auto.
Qed.

Lemma broadcastable_sym (s1 s2 : option nat) :
  broadcastable s1 s2 -> broadcastable s2 s1.
Proof. destruct s1, s2; cbn; intuition. Qed.

Lemma broadcastable_again (s1 s2 : option nat) :
  broadcastable s1 s2 -> broadcastable s1 (broadcast_shape s1 s2).
Proof.
  destruct s1 as [n1 |], s2 as [n2 |]; cbn; auto.
  intros H. destruct (Nat.eqb n1 n2) eqn:E; [now left |].
  apply Nat.eqb_neq in E. destruct (Nat.eqb n1 1) eqn:E1.
  - apply Nat.eqb_eq in E1. auto.
  - now left.
Qed.

(** X16.  When the two functions of the affine pair return.
    [hcrs_to_hgs] returns exactly when the Stonyhurst side has an obstime
    with at least one instant and the HCRS side has an obstime whose shape
    broadcasts with it (a scalar, an array of the same length, or one of
    the two arrays of length one); [hgs_to_hcrs], which calls it with the
    arguments swapped, returns in exactly the same cases.  Without obstime
    on the Stonyhurst side both raise [ValueError]. *)
Theorem hcrs_hgs_returns_exactly
    (get_body_barycentric : string -> Z -> vec3)
    (rotation_matrix : R -> vec3 -> mat3) (hcrs hgs : Frame) :
  let defined :=
    exists t t_old,
      obstime hgs = Some t /\ obstime hcrs = Some t_old /\
      elements t <> [] /\ broadcastable (shape t_old) (shape t) in
  (returns (hcrs_to_hgs get_body_barycentric rotation_matrix hcrs hgs)
   <-> defined) /\
  (returns (hgs_to_hcrs get_body_barycentric rotation_matrix hgs hcrs)
   <-> defined) /\
  (obstime hgs = None ->
     hcrs_to_hgs get_body_barycentric rotation_matrix hcrs hgs =
     Raise (ValueError "To perform this transformation the coordinate Frame needs an obstime Attribute") /\
     hgs_to_hcrs get_body_barycentric rotation_matrix hgs hcrs =
     Raise (ValueError "To perform this transformation the coordinate Frame needs an obstime Attribute")).
Proof.
  intros defined.
  assert (Hnone : obstime hgs = None ->
            hcrs_to_hgs get_body_barycentric rotation_matrix hcrs hgs =
            Raise (ValueError "To perform this transformation the coordinate Frame needs an obstime Attribute") /\
            hgs_to_hcrs get_body_barycentric rotation_matrix hgs hcrs =
            Raise (ValueError "To perform this transformation the coordinate Frame needs an obstime Attribute")).
  { intros Ht. unfold hgs_to_hcrs, hcrs_to_hgs. rewrite Ht. split; reflexivity. }
  assert (Hshape : forall t M off,
            obstime hgs = Some t -> elements t <> [] ->
            hcrs_to_hgs get_body_barycentric rotation_matrix hcrs hgs
            = Ok (M, off) ->
            broadcastable (shape M) (shape off) /\
            exists t_old, obstime hcrs = Some t_old /\
                          broadcastable (shape t_old) (shape t)).
  { intros t M off Ht Hne H.
    rewrite (hcrs_to_hgs_rotation _ _ _ _ t Ht Hne) in H. cbv zeta in H.
    destruct (obstime hcrs) as [t_old |].
    - cbn [obstime_ne] in H.
      destruct (broadcast2 (fun i j => negb (Z.eqb i j)) t_old t) as [ne |] eqn:Hcmp;
        [| discriminate].
      assert (Hb : broadcastable (shape t_old) (shape t))
        by (eapply broadcast2_needs; eexists; exact Hcmp).
      split; [| eauto]. cbn [bind] in H.
      destruct (np_any ne).
      + destruct (broadcast2_returns vsub
                    (nd_map (get_body_barycentric "sun") t)
                    (nd_map (get_body_barycentric "sun") t_old))
          as (icrf & Hicrf & Hs1).
        { rewrite !shape_nd_map. now apply broadcastable_sym. }
        rewrite Hicrf in H. cbn [bind] in H.
        destruct (broadcast2_returns transform
                    (nd_map (hgs_rotation get_body_barycentric rotation_matrix) t)
                    icrf) as (o & Ho & Hs2).
        { rewrite Hs1, !shape_nd_map. apply broadcastable_again.
          now apply broadcastable_sym. }
        rewrite Ho in H. cbn [bind] in H. injection H as <- <-.
        rewrite Hs2, Hs1, !shape_nd_map.
        apply broadcastable_again, broadcastable_again.
        now apply broadcastable_sym.
      + cbn [bind] in H. injection H as <- <-. rewrite shape_nd_map.
        cbn [shape]. destruct (shape t); exact I.
    - cbn in H. discriminate. }
  assert (Hforward : returns (hcrs_to_hgs get_body_barycentric rotation_matrix
                                hcrs hgs) <-> defined).
  { split.
    - intros [[M off] H].
      destruct (obstime hgs) as [t |] eqn:Ht;
        [| unfold hcrs_to_hgs in H; rewrite Ht in H; discriminate].
      assert (Hne : elements t <> []).
      { destruct t as [i | [| i l]]; cbn; try discriminate.
        exfalso. unfold hcrs_to_hgs in H. rewrite Ht in H. cbn in H.
        discriminate. }
      destruct (Hshape t M off eq_refl Hne H) as (_ & t_old & Hold & Hb).
      exists t, t_old. auto.
    - intros (t & t_old & Ht & Hold & Hne & Hb).
      rewrite (hcrs_to_hgs_rotation _ _ _ _ t Ht Hne). cbv zeta. rewrite Hold.
      cbn [obstime_ne].
      destruct (broadcast2_returns (fun i j => negb (Z.eqb i j)) t_old t Hb)
        as (ne & -> & _).
      cbn [bind]. destruct (np_any ne); [| eexists; reflexivity].
      destruct (broadcast2_returns vsub
                  (nd_map (get_body_barycentric "sun") t)
                  (nd_map (get_body_barycentric "sun") t_old))
        as (icrf & -> & Hs1).
      { rewrite !shape_nd_map. now apply broadcastable_sym. }
      cbn [bind].
      destruct (broadcast2_returns transform
                  (nd_map (hgs_rotation get_body_barycentric rotation_matrix) t)
                  icrf) as (o & -> & _).
      { rewrite Hs1, !shape_nd_map. apply broadcastable_again.
        now apply broadcastable_sym. }
      eexists. reflexivity. }
  split; [exact Hforward |].
  split; [| exact Hnone].
  split.
  - intros [r H]. apply Hforward. unfold hgs_to_hcrs in H.
    destruct (hcrs_to_hgs get_body_barycentric rotation_matrix hcrs hgs);
      [eexists; reflexivity | discriminate].
  - intros Hd. pose proof Hd as (t & t_old & Ht & Hold & Hne & Hb).
    apply Hforward in Hd as [[M off] H].
    destruct (Hshape t M off Ht Hne H) as (HM & _).
    unfold hgs_to_hcrs. rewrite H. cbn [bind].
    destruct (broadcast2_returns transform (nd_map matrix_transpose M)
                (nd_map vneg off)) as (o & -> & _).
    { now rewrite !shape_nd_map. }
    eexists. reflexivity.
Qed.

(** ** Changing the observer of a Heliocentric point *)

Lemma unit_vector_norm (lat lon b : R) :
  (cos lat * sin lon) * (cos lat * sin lon)
  + (sin lat * cos b - cos lat * cos lon * sin b)
    * (sin lat * cos b - cos lat * cos lon * sin b)
  + (sin lat * sin b + cos lat * cos lon * cos b)
    * (sin lat * sin b + cos lat * cos lon * cos b) = 1.
Proof.
  pose proof (sin2_cos2 lat) as Hlat. pose proof (sin2_cos2 lon) as Hlon.
  pose proof (sin2_cos2 b) as Hb. unfold Rsqr in Hlat, Hlon, Hb.
  replace ((cos lat * sin lon) * (cos lat * sin lon)
           + (sin lat * cos b - cos lat * cos lon * sin b)
             * (sin lat * cos b - cos lat * cos lon * sin b)
           + (sin lat * sin b + cos lat * cos lon * cos b)
             * (sin lat * sin b + cos lat * cos lon * cos b))
    with (cos lat * cos lat * (sin lon * sin lon)
          + (sin lat * sin lat + cos lat * cos lat * (cos lon * cos lon))
            * (sin b * sin b + cos b * cos b)) by ring.
  rewrite Hb.
  replace (cos lat * cos lat * (sin lon * sin lon)
           + (sin lat * sin lat + cos lat * cos lat * (cos lon * cos lon)) * 1)
    with (sin lat * sin lat
          + cos lat * cos lat * (sin lon * sin lon + cos lon * cos lon)) by ring.
  rewrite Hlon. lra.
Qed.

(** X17.  [hcc_to_hcc] between two geometric observers that do not compare
    equal, the transform graph taking the two steps through Stonyhurst by
    [hcc_to_hgs] and [hgs_to_hcc], for a point other than the centre of
    the Sun: the result is a Cartesian point in km, in the destination
    frame, at the same distance from the centre of the Sun as the point
    given. *)
Theorem hcc_to_hcc_keeps_solar_distance (RSUN_METERS : R)
    (transform_to : Frame -> Frame -> result Frame)
    (wrap_angle : FrameClass -> R)
    (coord hccframe : Frame) (o1 o2 : ObserverFrame) (ul : Unit)
    (xv yv zv l1 b1 l2 b2 : R) :
  data coord
  = Some (CartesianRepresentation (qty xv ul) (qty yv ul) (qty zv ul)) ->
  observer coord = Some (ObserverCoord o1) ->
  observer hccframe = Some (ObserverCoord o2) ->
  _observers_are_equal (ObserverCoord o1) (ObserverCoord o2) true = Ok false ->
  obs_lon o1 = qty l1 deg -> obs_lat o1 = qty b1 deg ->
  obs_lon o2 = qty l2 deg -> obs_lat o2 = qty b2 deg ->
  ldim ul = 1%Z -> adim ul = 0%Z ->
  transform_to coord (mkFrame HeliographicStonyhurst None None None)
  = hcc_to_hgs wrap_angle coord (mkFrame HeliographicStonyhurst None None None) ->
  (forall hgs, frame_class hgs = HeliographicStonyhurst ->
     transform_to hgs hccframe = hgs_to_hcc RSUN_METERS hgs hccframe) ->
  let x := xv * scale ul in
  let y := yv * scale ul in
  let z := zv * scale ul in
  0 < x * x + y * y + z * z ->
  exists x' y' z',
    hcc_to_hcc transform_to coord hccframe
    = Ok (realize_frame hccframe
            (Some (CartesianRepresentation
                     (qty x' km) (qty y' km) (qty z' km)))) /\
    (x' * 1000) * (x' * 1000) + (y' * 1000) * (y' * 1000)
    + (z' * 1000) * (z' * 1000)
    = x * x + y * y + z * z.
Proof.
  intros Hdata Hobs Hc Hdiff Hlon1 Hlat1 Hlon2 Hlat2 Hl1 Hl2 Hto Hback x y z
    Hpos.
  set (r := sqrt (x * x + y * y + z * z)).
  unfold hcc_to_hcc, get_observer. rewrite Hobs, Hc. cbn [bind].
  rewrite Hdiff. cbn [bind]. rewrite Hto.
  pose proof (hcc_to_hgs_scalar wrap_angle coord
                (mkFrame HeliographicStonyhurst None None None) o1 ul
                xv yv zv l1 b1 Hdata Hobs Hlon1 Hlat1 Hl1 Hl2 Hpos) as Hforward.
  cbv zeta in Hforward. fold x y z in Hforward. fold r in Hforward.
  rewrite Hforward. cbn [bind].
  set (hgs := set_observer _ _).
  rewrite (Hback hgs eq_refl).
  match type of Hforward with
  | _ = Ok (realize_frame _ (Some (SphericalRepresentation
                                     (qty ?lon _) (qty ?lat _) _))) =>
      pose proof (hgs_to_hcc_scalar RSUN_METERS hgs hccframe o2 km
                    lon lat (r / 1000) l2 b2 eq_refl Hc Hlon2 Hlat2
                    eq_refl eq_refl) as Hresult;
      set (hglon := lon) in *; set (hglat := lat) in *
  end.
  cbv zeta in Hresult. cbn [scale km] in Hresult.
  replace (r / 1000 * 1000) with r in Hresult by field.
  rewrite Hresult.
  set (lon := (hglon - l2) * (PI / 180)). set (lat := hglat * (PI / 180)).
  set (b := b2 * (PI / 180)).
  do 3 eexists. split; [reflexivity |].
  replace (r * cos lat * sin lon / 1000 * 1000) with (r * (cos lat * sin lon))
    by field.
  replace (r * (sin lat * cos b - cos lat * cos lon * sin b) / 1000 * 1000)
    with (r * (sin lat * cos b - cos lat * cos lon * sin b)) by field.
  replace (r * (sin lat * sin b + cos lat * cos lon * cos b) / 1000 * 1000)
    with (r * (sin lat * sin b + cos lat * cos lon * cos b)) by field.
  pose proof (unit_vector_norm lat lon b) as Hunit.
  set (u1 := cos lat * sin lon) in *.
  set (u2 := sin lat * cos b - cos lat * cos lon * sin b) in *.
  set (u3 := sin lat * sin b + cos lat * cos lon * cos b) in *.
  replace (r * u1 * (r * u1) + r * u2 * (r * u2) + r * u3 * (r * u3))
    with (r * r * (u1 * u1 + u2 * u2 + u3 * u3)) by ring.
  rewrite Hunit, Rmult_1_r. unfold r. apply sqrt_sqrt.
  lra.
Qed.

(** ** The culling loop of [_make_sunpy_graph] *)

Section CullingFacts.

Context {Class Transform : Type}.
Variable class_eqb : Class -> Class -> bool.
Hypothesis class_eqb_spec : forall a b, class_eqb a b = true <-> a = b.

Lemma dict_del_absent {V : Type} (k : Class) (d : list (Class * V)) :
  dict_contains class_eqb k d = false -> dict_del class_eqb k d = d.
Proof.
  unfold dict_contains, dict_del. induction d as [| e d IH]; cbn; [reflexivity |].
  intros H. apply orb_false_iff in H as [He Hd]. rewrite He. cbn.
  now rewrite IH.
Qed.

Lemma guarded_del {V : Type} (k : Class) (d : list (Class * V)) :
  (if dict_contains class_eqb k d then dict_del class_eqb k d else d)
  = dict_del class_eqb k d.
Proof.
  destruct (dict_contains class_eqb k d) eqn:H; [reflexivity |].
  symmetry. now apply dict_del_absent.
Qed.

Lemma in_dict_del {V : Type} (k c : Class) (v : V) (d : list (Class * V)) :
  In (c, v) (dict_del class_eqb k d) <-> In (c, v) d /\ c <> k.
Proof.
  unfold dict_del. rewrite filter_In. cbn [fst].
  rewrite negb_true_iff. split; intros [Hin Hne]; split; try exact Hin.
  - intros ->. rewrite (proj2 (class_eqb_spec k k) eq_refl) in Hne. discriminate.
  - destruct (class_eqb k c) eqn:E; [| reflexivity].
    apply class_eqb_spec in E. now destruct Hne.
Qed.

Lemma cull_frame_edges (g : TransformGraph Class Transform) (frame src dst : Class)
    (t : Transform) :
  has_edge (cull_frame class_eqb g frame) src dst t <->
  has_edge g src dst t /\ src <> frame /\ dst <> frame.
Proof.
  unfold has_edge, cull_frame. rewrite guarded_del. split.
  - intros (row & Hrow & Ht). apply in_map_iff in Hrow as (e & He & Hin).
    rewrite guarded_del in He. destruct e as [c row0]. cbn [fst snd] in He.
    injection He as -> <-. apply in_dict_del in Hin as [Hin Hsrc].
    apply in_dict_del in Ht as [Ht Hdst]. eauto.
  - intros ((row & Hrow & Ht) & Hsrc & Hdst).
    exists (dict_del class_eqb frame row). split.
    + apply in_map_iff. exists (src, row). rewrite guarded_del. cbn [fst snd].
      split; [reflexivity |]. now apply in_dict_del.
    + now apply in_dict_del.
Qed.

Lemma cull_frame_sources (g : TransformGraph Class Transform) (frame src : Class) :
  In src (map fst (cull_frame class_eqb g frame)) <->
  In src (map fst g) /\ src <> frame.
Proof.
  unfold cull_frame. rewrite guarded_del, map_map. cbn [fst].
  rewrite !in_map_iff. split.
  - intros ([c row] & <- & Hin). apply in_dict_del in Hin as [Hin Hne].
    split; [exists (c, row); now split | exact Hne].
  - intros (([c row] & <- & Hin) & Hne). exists (c, row).
    split; [reflexivity | now apply in_dict_del].
Qed.

Lemma cull_frames_edges (frames : list Class) (g : TransformGraph Class Transform)
    (src dst : Class) (t : Transform) :
  has_edge (fold_left (cull_frame class_eqb) frames g) src dst t <->
  has_edge g src dst t /\ ~ In src frames /\ ~ In dst frames.
Proof.
  revert g. induction frames as [| f frames IH]; intros g; cbn [fold_left In].
  - tauto.
  - rewrite IH, cull_frame_edges. intuition congruence.
Qed.

Lemma cull_frames_sources (frames : list Class) (g : TransformGraph Class Transform)
    (src : Class) :
  In src (map fst (fold_left (cull_frame class_eqb) frames g)) <->
  In src (map fst g) /\ ~ In src frames.
Proof.
  revert g. induction frames as [| f frames IH]; intros g; cbn [fold_left In].
  - tauto.
  - rewrite IH, cull_frame_sources. intuition congruence.
Qed.

Lemma on_keep_list (name : string) :
  existsb (String.eqb name) keep_list = true <-> In name keep_list.
Proof.
  rewrite existsb_exists. split.
  - intros (k & Hin & Heq). apply String.eqb_eq in Heq. now subst.
  - intros Hin. exists name. split; [exact Hin | apply String.eqb_refl].
Qed.

Lemma not_culled (lookup_name : string -> Class) (get_names : list string)
    (c : Class) :
  ~ In c (map lookup_name (cull_list get_names)) <-> kept lookup_name get_names c.
Proof.
  unfold kept, cull_list. rewrite in_map_iff. split.
  - intros Hnot name Hin Hc. apply on_keep_list.
    destruct (existsb (String.eqb name) keep_list) eqn:E; [reflexivity |].
    exfalso. apply Hnot. exists name. split; [exact Hc |].
    apply filter_In. split; [exact Hin | now rewrite E].
  - intros Hkept (name & Hc & Hin). apply filter_In in Hin as [Hin Hoff].
    apply negb_true_iff in Hoff.
    apply (Hkept name Hin) in Hc. apply on_keep_list in Hc. congruence.
Qed.

(** X18.  What the culling loop of [_make_sunpy_graph] leaves: a transform
    from [src] to [dst] is in the culled graph exactly when it is in the
    full graph and both frames are kept, a frame being kept when every name
    under which the graph knows it is on [keep_list] (one name off the list
    culls the frame); and the sources of the culled graph are the kept
    sources of the full graph.  No edge is added, none between two kept
    frames is lost, and no culled frame remains as source or destination. *)
Theorem culled_graph_edges (lookup_name : string -> Class)
    (get_names : list string) (g : TransformGraph Class Transform) :
  (forall src dst t,
     has_edge (cull_graph class_eqb lookup_name get_names g) src dst t <->
     has_edge g src dst t /\
     kept lookup_name get_names src /\ kept lookup_name get_names dst) /\
  (forall src,
     In src (map fst (cull_graph class_eqb lookup_name get_names g)) <->
     In src (map fst g) /\ kept lookup_name get_names src).
Proof.
  unfold cull_graph. cbv zeta. split.
  - intros src dst t. rewrite cull_frames_edges, !not_culled. reflexivity.
  - intros src. rewrite cull_frames_sources, not_culled. reflexivity.
Qed.

End CullingFacts.

(** ** The further properties at sample inputs *)

(** X1 at two Helioprojective points seen from [Sample.earth]. *)
Lemma hpc_to_hcc_formula_witness :
  let x (p : R * R * R) := fst (fst p) * scale deg in
  let y (p : R * R * R) := snd (fst p) * scale deg in
  let dist (p : R * R * R) := snd p * scale km in
  let D := 150000000 * scale km in
  hpc_to_hcc Sample.no_distance Sample.no_graph Example.hpc_points
    Sample.hcc_frame_earth =
  Ok (realize_frame Sample.hcc_frame_earth
        (Some (CartesianRepresentation
                 (mkQ (nd_map (fun p => dist p * cos (y p) * sin (x p) / 1000)
                         Example.two_directions) km)
                 (mkQ (nd_map (fun p => dist p * sin (y p) / 1000)
                         Example.two_directions) km)
                 (mkQ (nd_map (fun p =>
                                 (D - dist p * cos (y p) * cos (x p)) / 1000)
                         Example.two_directions) km)))).
Proof.
  exact (hpc_to_hcc_formula Sample.no_distance Sample.no_graph
           Example.hpc_points Sample.hcc_frame_earth Example.hpc_points
           (ObserverCoord Sample.earth) (ObserverCoord Sample.earth)
           Sample.earth deg km km Example.two_directions 150000000
           eq_refl eq_refl earth_equals_earth eq_refl eq_refl eq_refl eq_refl
           eq_refl eq_refl eq_refl eq_refl eq_refl eq_refl).
Defined.

Lemma two_points_off_centre (p : R * R * R) :
  In p (elements Example.two_points) ->
  0 < fst (fst p) * scale m * (fst (fst p) * scale m)
      + snd (fst p) * scale m * (snd (fst p) * scale m)
      + snd p * scale m * (snd p * scale m).
Proof. intros [<- | [<- | []]]; cbn [fst snd scale m]; lra. Qed.

(** X2 at two Heliocentric points, in metres, for a Stonyhurst frame that
    wraps its longitudes at 180 degrees. *)
Lemma hcc_to_hgs_formula_witness :
  let b := 0 * (PI / 180) in
  let x (p : R * R * R) := fst (fst p) * scale m in
  let y (p : R * R * R) := snd (fst p) * scale m in
  let z (p : R * R * R) := snd p * scale m in
  let r p := sqrt (x p * x p + y p * y p + z p * z p) in
  hcc_to_hgs Sample.wrap_angle Example.hcc_points (Sample.hgs_frame None) =
  Ok (realize_frame (Sample.hgs_frame None)
        (Some (SphericalRepresentation
                 (mkQ (nd_map (fun p =>
                                 wrap_at 180
                                   ((arctan2 (x p) (z p * cos b - y p * sin b)
                                     + 0 * (PI / 180)) * (180 / PI)))
                         Example.two_points) deg)
                 (mkQ (nd_map (fun p =>
                                 asin ((y p * cos b + z p * sin b) / r p)
                                 * (180 / PI)) Example.two_points) deg)
                 (mkQ (nd_map (fun p => r p / 1000) Example.two_points) km)))).
Proof.
  exact (proj1 (hcc_to_hgs_formula Sample.wrap_angle Example.hcc_points
                  (Sample.hgs_frame None) Sample.earth m Example.two_points 0 0
                  eq_refl eq_refl eq_refl eq_refl eq_refl eq_refl
                  two_points_off_centre)).
Defined.

(** X3 at two Stonyhurst points with their distance in km. *)
Lemma hgs_to_hcc_formula_witness :
  let lon (p : R * R * R) := (fst (fst p) - 0) * (PI / 180) in
  let lat (p : R * R * R) := snd (fst p) * (PI / 180) in
  let b := 0 * (PI / 180) in
  let r (p : R * R * R) := snd p * scale km in
  hgs_to_hcc 695700000 Example.hgs_points Sample.hcc_frame_earth =
  Ok (realize_frame Sample.hcc_frame_earth
        (Some (CartesianRepresentation
                 (mkQ (nd_map (fun p => r p * cos (lat p) * sin (lon p) / 1000)
                         Example.two_directions) km)
                 (mkQ (nd_map (fun p =>
                                 r p * (sin (lat p) * cos b
                                        - cos (lat p) * cos (lon p) * sin b)
                                 / 1000) Example.two_directions) km)
                 (mkQ (nd_map (fun p =>
                                 r p * (sin (lat p) * sin b
                                        + cos (lat p) * cos (lon p) * cos b)
                                 / 1000) Example.two_directions) km)))).
Proof.
  exact (hgs_to_hcc_formula 695700000 Example.hgs_points
           Sample.hcc_frame_earth Sample.earth km Example.two_directions 0 0
           eq_refl eq_refl eq_refl eq_refl eq_refl eq_refl).
Defined.

Lemma two_points_off_observer (p : R * R * R) :
  In p (elements Example.two_points) ->
  0 < fst (fst p) * scale m * (fst (fst p) * scale m)
      + snd (fst p) * scale m * (snd (fst p) * scale m)
      + (150000000 * scale km - snd p * scale m)
        * (150000000 * scale km - snd p * scale m).
Proof. intros [<- | [<- | []]]; cbn [fst snd scale m km]; lra. Qed.

(** X4 at two Heliocentric points, in metres, seen from [Sample.earth],
    for a Helioprojective frame that wraps its longitudes at 180 degrees. *)
Lemma hcc_to_hpc_pointwise_witness :
  let x (p : R * R * R) := fst (fst p) * scale m in
  let y (p : R * R * R) := snd (fst p) * scale m in
  let z (p : R * R * R) := snd p * scale m in
  let D := 150000000 * scale km in
  let distance p := sqrt (x p * x p + y p * y p + (D - z p) * (D - z p)) in
  hcc_to_hpc Sample.no_graph Sample.wrap_angle Example.hcc_points
    Sample.hpc_frame_earth =
  Ok (realize_frame Sample.hpc_frame_earth
        (Some (SphericalRepresentation
                 (mkQ (nd_map (fun p =>
                                 wrap_at 180
                                   (arctan2 (x p) (D - z p) * (180 / PI)))
                         Example.two_points) deg)
                 (mkQ (nd_map (fun p => asin (y p / distance p) * (180 / PI))
                         Example.two_points) deg)
                 (mkQ (nd_map (fun p => distance p / 1000)
                         Example.two_points) km)))).
Proof.
  exact (proj1 (hcc_to_hpc_pointwise Sample.no_graph Sample.wrap_angle
                  Example.hcc_points Sample.hpc_frame_earth
                  (ObserverCoord Sample.earth) Sample.earth
                  m km Example.two_points 150000000
                  eq_refl eq_refl eq_refl earth_equals_earth eq_refl
                  eq_refl eq_refl eq_refl eq_refl km_scale_nonzero
                  two_points_off_observer)).
Defined.

(** X5 at a destination frame whose observer is the label "earth". *)
Lemma hgs_to_hcc_requires_destination_observer_witness :
  hgs_to_hcc 695700000 Example.hgs_point_km Sample.hcc_frame_label =
  Raise (ConvertError "Cannot transform heliographic coordinates to heliocentric coordinates for observer '{}' without `obstime` being specified.").
Proof.
  exact (proj1 (hgs_to_hcc_requires_destination_observer 695700000
                  Example.hgs_point_km Sample.hcc_frame_label
                  (qty 10 deg) (qty 20 deg) (qty 695700 km) eq_refl)
           "earth" eq_refl).
Defined.

(** X6 at two equal labels for [hcc_to_hpc], and at the labels "earth" and
    "venus" for [hcc_to_hcc]. *)
Lemma heliocentric_label_observers_witness :
  hcc_to_hpc Sample.no_graph Sample.wrap_angle Sample.hcc_label
    Sample.hpc_point_earth_label =
  Raise (ValueError "To compare two observers, both must be instances of BaseCoordinateFrame. Cannot compare two observers {} and {}.") /\
  hcc_to_hcc Sample.no_graph Sample.hcc_label Example.hcc_frame_venus_label =
  Raise (ValueError "To compare two observers, both must be instances of BaseCoordinateFrame. Cannot compare two observers {} and {}.").
Proof.
  split.
  - exact (proj1 (heliocentric_label_observers Sample.no_graph
                    Sample.wrap_angle Sample.hcc_label
                    Sample.hpc_point_earth_label
                    (ObserverLabel "earth") (ObserverLabel "earth")
                    eq_refl eq_refl eq_refl)).
  - exact (proj2 (heliocentric_label_observers Sample.no_graph
                    Sample.wrap_angle Sample.hcc_label
                    Example.hcc_frame_venus_label
                    (ObserverLabel "earth") (ObserverLabel "venus")
                    eq_refl eq_refl eq_refl) eq_refl).
Defined.

Lemma ten_degrees_held :
  Longitude (Sample.wrap_angle HeliographicStonyhurst) (qty 10 deg)
  = Ok (qty 10 deg).
Proof.
  rewrite Longitude_degrees_scalar. cbn [Sample.wrap_angle].
  rewrite wrap_at_id by lra. reflexivity.
Qed.

(** X8 at instant 7 with [L0 i = i] degrees, from a Stonyhurst longitude of
    10 degrees. *)
Lemma stonyhurst_carrington_round_trip_witness :
  (hgc <- hgs_to_hgc Sample.L0_linear Sample.wrap_angle
            (Sample.hgs_point (Some (Scalar 7%Z)))
            (Sample.hgc_frame (Some (Scalar 7%Z))) ;;
   hgc_to_hgs Sample.L0_linear Sample.wrap_angle hgc
     (Sample.hgs_frame (Some (Scalar 7%Z))))
  = Ok (Sample.hgs_point (Some (Scalar 7%Z))).
Proof.
  exact (proj1 (proj2 (proj2
           (stonyhurst_carrington_round_trip Sample.L0_linear Sample.wrap_angle
              (Sample.hgs_point (Some (Scalar 7%Z)))
              (Sample.hgs_frame (Some (Scalar 7%Z)))
              (Sample.hgc_frame (Some (Scalar 7%Z))) 7%Z
              (qty 10 deg) (qty 20 deg) (qty 695700 km)
              eq_refl eq_refl eq_refl eq_refl eq_refl eq_refl)))
           ten_degrees_held).
Defined.

Lemma hcc_point_off_observer :
  0 < 300000000 * scale m * (300000000 * scale m)
      + 400000000 * scale m * (400000000 * scale m)
      + (150000000 * scale km - 500000000 * scale m)
        * (150000000 * scale km - 500000000 * scale m).
Proof. cbn [scale m km]. lra. Qed.

Lemma hcc_point_off_centre :
  0 < 300000000 * scale m * (300000000 * scale m)
      + 400000000 * scale m * (400000000 * scale m)
      + 500000000 * scale m * (500000000 * scale m).
Proof. cbn [scale m km]. lra. Qed.

(** X9 at a point off the axes, both frames with the observer [Sample.earth]. *)
Lemma hcc_hpc_hcc_round_trip_witness :
  (hpc <- hcc_to_hpc Sample.no_graph Sample.wrap_angle Example.hcc_point
            Sample.hpc_frame_earth ;;
   hpc_to_hcc Sample.no_distance Sample.no_graph hpc Sample.hcc_frame_earth)
  = Ok (realize_frame Sample.hcc_frame_earth
          (Some (CartesianRepresentation
                   (qty (300000000 * scale m / 1000) km)
                   (qty (400000000 * scale m / 1000) km)
                   (qty (500000000 * scale m / 1000) km)))).
Proof.
  exact (hcc_hpc_hcc_round_trip Sample.no_distance Sample.no_graph
           Sample.wrap_angle Example.hcc_point Sample.hpc_frame_earth
           Sample.hcc_frame_earth Sample.earth m km 300000000 400000000 500000000 150000000
           eq_refl eq_refl eq_refl eq_refl earth_equals_earth eq_refl
           eq_refl eq_refl eq_refl eq_refl km_scale_nonzero
           (fun _ _ => eq_refl) hcc_point_off_observer).
Defined.

Lemma zero_in_longitude_range : -180 < 0 <= 180.
Proof. lra. Qed.

Lemma zero_in_latitude_range : -90 < 0 < 90.
Proof. lra. Qed.

Lemma centre_distance_positive : 0 < 149304300 * scale km.
Proof. cbn [scale km]. lra. Qed.

Lemma zero_in_helioprojective_turn :
  Sample.wrap_angle (frame_class Sample.hpc_frame_earth) - 360 <= 0
  < Sample.wrap_angle (frame_class Sample.hpc_frame_earth).
Proof. cbn [Sample.wrap_angle frame_class Sample.hpc_frame_earth]. lra. Qed.

(** X10 at the disc centre. *)
Lemma hpc_hcc_hpc_round_trip_witness :
  (hcc <- hpc_to_hcc Sample.no_distance Sample.no_graph Example.hpc_centre
            Sample.hcc_frame_earth ;;
   hcc_to_hpc Sample.no_graph Sample.wrap_angle hcc Sample.hpc_frame_earth)
  = Ok (realize_frame Sample.hpc_frame_earth
          (Some (SphericalRepresentation
                   (qty 0 deg) (qty 0 deg)
                   (qty (149304300 * scale km / 1000) km)))).
Proof.
  exact (proj2 (hpc_hcc_hpc_round_trip Sample.no_distance Sample.no_graph
                  Sample.wrap_angle
                  Example.hpc_centre Sample.hcc_frame_earth
                  Sample.hpc_frame_earth
                  Sample.earth km km 0 0 149304300 150000000
                  eq_refl eq_refl eq_refl eq_refl earth_equals_earth eq_refl
                  eq_refl eq_refl eq_refl eq_refl km_scale_nonzero eq_refl
                  zero_in_longitude_range zero_in_latitude_range
                  centre_distance_positive)
           zero_in_helioprojective_turn).
Defined.

(** X11 at a point off the axes. *)
Lemma hcc_hgs_hcc_round_trip_witness :
  (hgs <- hcc_to_hgs Sample.wrap_angle Example.hcc_point
            (Sample.hgs_frame None) ;;
   hgs_to_hcc 695700000 hgs Sample.hcc_frame_earth)
  = Ok (realize_frame Sample.hcc_frame_earth
          (Some (CartesianRepresentation
                   (qty (300000000 * scale m / 1000) km)
                   (qty (400000000 * scale m / 1000) km)
                   (qty (500000000 * scale m / 1000) km)))).
Proof.
  exact (hcc_hgs_hcc_round_trip 695700000 Sample.wrap_angle Example.hcc_point
           (Sample.hgs_frame None) Sample.hcc_frame_earth Sample.earth m
           300000000 400000000 500000000 0 0
           eq_refl eq_refl eq_refl eq_refl eq_refl eq_refl eq_refl
           hcc_point_off_centre).
Defined.

Lemma surface_distance_positive : 0 < 695700 * scale km.
Proof. cbn [scale km]. lra. Qed.

Lemma twenty_in_latitude_range : -90 < 20 < 90.
Proof. lra. Qed.

Lemma ten_in_longitude_range : -180 < 10 - 0 <= 180.
Proof. lra. Qed.

Lemma ten_in_stonyhurst_turn :
  Sample.wrap_angle (frame_class (Sample.hgs_frame None)) - 360 <= 10
  < Sample.wrap_angle (frame_class (Sample.hgs_frame None)).
Proof. cbn [Sample.wrap_angle frame_class Sample.hgs_frame]. lra. Qed.

(** X12 at longitude 10 and latitude 20 degrees on the solar surface. *)
Lemma hgs_hcc_hgs_round_trip_witness :
  (hcc <- hgs_to_hcc 695700000 Example.hgs_point_km Sample.hcc_frame_earth ;;
   hcc_to_hgs Sample.wrap_angle hcc (Sample.hgs_frame None))
  = Ok (realize_frame (Sample.hgs_frame None)
          (Some (SphericalRepresentation
                   (qty 10 deg) (qty 20 deg)
                   (qty (695700 * scale km / 1000) km)))).
Proof.
  exact (proj2 (hgs_hcc_hgs_round_trip 695700000 Sample.wrap_angle
                  Example.hgs_point_km
                  Sample.hcc_frame_earth (Sample.hgs_frame None) Sample.earth km
                  10 20 695700 0 0
                  eq_refl eq_refl eq_refl eq_refl eq_refl eq_refl
                  surface_distance_positive twenty_in_latitude_range
                  ten_in_longitude_range)
           ten_in_stonyhurst_turn).
Defined.

Lemma one_is_close_to_one : Rabs (1 - 1) <= 1 / 100000.
Proof. rewrite Rminus_diag, Rabs_R0. lra. Qed.

Lemma solar_radius_positive : 0 < 695700000.
Proof. lra. Qed.

(** X13 at a Stonyhurst direction without distance: it comes back at
    695700 km. *)
Lemma unit_sphere_round_trip_witness :
  (hcc <- hgs_to_hcc 695700000 Sample.hgs_direction Sample.hcc_frame_earth ;;
   hcc_to_hgs Sample.wrap_angle hcc (Sample.hgs_frame None))
  = Ok (realize_frame (Sample.hgs_frame None)
          (Some (SphericalRepresentation
                   (qty 10 deg) (qty 20 deg) (qty (695700000 / 1000) km)))).
Proof.
  exact (proj2 (unit_sphere_round_trip 695700000 Sample.wrap_angle
                  Sample.hgs_direction
                  Sample.hcc_frame_earth (Sample.hgs_frame None) Sample.earth
                  10 20 1 0 0
                  eq_refl one_is_close_to_one eq_refl eq_refl eq_refl
                  solar_radius_positive twenty_in_latitude_range
                  ten_in_longitude_range)
           ten_in_stonyhurst_turn).
Defined.

Lemma two_instants_nonempty : elements Example.two_instants <> [].
Proof. discriminate. Qed.

(** X14 at an HCRS obstime 0 and a Stonyhurst obstime of two instants: the
    stack holds the matrices of the instants 1 and 2. *)
Lemma hcrs_to_hgs_matrix_per_instant_witness :
  exists M off (per_instant : Z -> mat3),
    hcrs_to_hgs Sample.ephemeris Sample.z_rotation
      (Sample.hcrs_frame (Scalar 0%Z))
      (Sample.hgs_frame (Some Example.two_instants)) = Ok (M, off) /\
    (forall i,
       hcrs_to_hgs Sample.ephemeris Sample.z_rotation
         (mkFrame HCRS (Some (Scalar i)) None None)
         (mkFrame HeliographicStonyhurst (Some (Scalar i)) None None)
       = Ok (Scalar (per_instant i), Scalar (mkVec 0 0 0))) /\
    M = Array [per_instant 1%Z; per_instant 2%Z].
Proof.
  destruct (hcrs_to_hgs Sample.ephemeris Sample.z_rotation
              (Sample.hcrs_frame (Scalar 0%Z))
              (Sample.hgs_frame (Some Example.two_instants)))
    as [[M off] | e] eqn:H.
  - destruct (proj2 (hcrs_to_hgs_matrix_per_instant Sample.ephemeris
                       Sample.z_rotation (Sample.hcrs_frame (Scalar 0%Z))
                       (Sample.hgs_frame (Some Example.two_instants))
                       Example.two_instants M off eq_refl H))
      as (per_instant & Hscalar & _ & Harray).
    exists M, off, per_instant. split; [reflexivity | split].
    + exact Hscalar.
    + exact (Harray [1%Z; 2%Z] eq_refl).
  - exfalso. revert H. run. discriminate.
Defined.

(** X15 at two frames with the same array obstime. *)
Lemma hcrs_hgs_same_obstime_pure_rotation_witness :
  let M := nd_map (hgs_rotation Sample.ephemeris Sample.z_rotation)
             Example.two_instants in
  hcrs_to_hgs Sample.ephemeris Sample.z_rotation
    (Sample.hcrs_frame Example.two_instants)
    (Sample.hgs_frame (Some Example.two_instants))
  = Ok (M, Scalar (mkVec 0 0 0)) /\
  hgs_to_hcrs Sample.ephemeris Sample.z_rotation
    (Sample.hgs_frame (Some Example.two_instants))
    (Sample.hcrs_frame Example.two_instants)
  = Ok (nd_map matrix_transpose M, nd_map (fun _ => mkVec 0 0 0) M).
Proof.
  exact (hcrs_hgs_same_obstime_pure_rotation Sample.ephemeris Sample.z_rotation
           (Sample.hcrs_frame Example.two_instants)
           (Sample.hgs_frame (Some Example.two_instants))
           Example.two_instants eq_refl eq_refl two_instants_nonempty).
Defined.

(** X16 at an HCRS obstime 0 against a Stonyhurst obstime of two instants,
    and at a Stonyhurst frame without obstime. *)
Lemma hcrs_hgs_returns_exactly_witness :
  returns (hcrs_to_hgs Sample.ephemeris Sample.z_rotation
             (Sample.hcrs_frame (Scalar 0%Z))
             (Sample.hgs_frame (Some Example.two_instants))) /\
  returns (hgs_to_hcrs Sample.ephemeris Sample.z_rotation
             (Sample.hgs_frame (Some Example.two_instants))
             (Sample.hcrs_frame (Scalar 0%Z))) /\
  hcrs_to_hgs Sample.ephemeris Sample.z_rotation
    (Sample.hcrs_frame (Scalar 0%Z)) (Sample.hgs_frame None) =
  Raise (ValueError "To perform this transformation the coordinate Frame needs an obstime Attribute").
Proof.
  pose proof (hcrs_hgs_returns_exactly Sample.ephemeris Sample.z_rotation
                (Sample.hcrs_frame (Scalar 0%Z))
                (Sample.hgs_frame (Some Example.two_instants)))
    as (Hforward & Hback & _).
  assert (Hdefined : exists t t_old,
            obstime (Sample.hgs_frame (Some Example.two_instants)) = Some t /\
            obstime (Sample.hcrs_frame (Scalar 0%Z)) = Some t_old /\
            elements t <> [] /\ broadcastable (shape t_old) (shape t)).
  { exists Example.two_instants, (Scalar 0%Z).
    split; [reflexivity | split; [reflexivity | split]].
    - exact two_instants_nonempty.
    - exact I. }
  split; [exact (proj2 Hforward Hdefined) | split].
  - exact (proj2 Hback Hdefined).
  - exact (proj1 (proj2 (proj2 (hcrs_hgs_returns_exactly Sample.ephemeris
                                  Sample.z_rotation
                                  (Sample.hcrs_frame (Scalar 0%Z))
                                  (Sample.hgs_frame None))) eq_refl)).
Defined.


Lemma earth_differs_from_venus :
  _observers_are_equal (ObserverCoord Sample.earth) (ObserverCoord Example.venus)
    true = Ok false.
Proof.
  unfold _observers_are_equal, Sample.earth, Example.venus.
  cbn [andb py_eq oid Nat.eqb is_frame negb attr_lat obs_lat bind].
  unfold allclose, qty, to.
  cbn [unit value same_dims deg ldim adim Z.eqb Pos.eqb andb bind nd_map scale
       broadcast2 np_all elements forallb].
  unfold isclose, rtol.
  destruct (Rle_dec _ _) as [Hle | _]; [| reflexivity].
  exfalso. revert Hle.
  replace (0 * (PI / 180 / (PI / 180)) - 3) with (Ropp 3)
    by (field; exact PI_nonzero).
  rewrite Rabs_Ropp, Rabs_pos_eq by lra. lra.
Qed.

Lemma direct_graph_to_heliocentric (hgs : Frame) :
  frame_class hgs = HeliographicStonyhurst ->
  Example.direct_graph hgs Example.hcc_frame_venus
  = hgs_to_hcc 695700000 hgs Example.hcc_frame_venus.
Proof. intros H. unfold Example.direct_graph. now rewrite H. Qed.

(** X17 at a point seen from [Sample.earth], for the observer
    [Example.venus]. *)
Lemma hcc_to_hcc_keeps_solar_distance_witness :
  let x := 300000000 * scale m in
  let y := 400000000 * scale m in
  let z := 500000000 * scale m in
  exists x' y' z',
    hcc_to_hcc Example.direct_graph Example.hcc_point Example.hcc_frame_venus
    = Ok (realize_frame Example.hcc_frame_venus
            (Some (CartesianRepresentation
                     (qty x' km) (qty y' km) (qty z' km)))) /\
    (x' * 1000) * (x' * 1000) + (y' * 1000) * (y' * 1000)
    + (z' * 1000) * (z' * 1000)
    = x * x + y * y + z * z.
Proof.
  exact (hcc_to_hcc_keeps_solar_distance 695700000 Example.direct_graph
           Sample.wrap_angle Example.hcc_point Example.hcc_frame_venus
           Sample.earth Example.venus m 300000000 400000000 500000000 0 0 40 3
           eq_refl eq_refl eq_refl earth_differs_from_venus
           eq_refl eq_refl eq_refl eq_refl eq_refl eq_refl eq_refl
           direct_graph_to_heliocentric hcc_point_off_centre).
Defined.

(** X18 at a graph of ICRS, FK5 and HCRS: the edge from ICRS to HCRS. *)
Lemma culled_graph_edges_witness :
  has_edge (cull_graph String.eqb Example.lookup_name Example.names Example.graph)
    "ICRS" "HCRS" 2%nat <->
  has_edge Example.graph "ICRS" "HCRS" 2%nat /\
  kept Example.lookup_name Example.names "ICRS" /\
  kept Example.lookup_name Example.names "HCRS".
Proof.
  exact (proj1 (culled_graph_edges String.eqb String.eqb_eq Example.lookup_name
                  Example.names Example.graph) "ICRS" "HCRS" 2%nat).
Defined.

(** ** The round trips at sample inputs *)




